(** * Entity matching and ranking engine: a shallow embedding

    The development follows [modules/bestMatch/matcher_engine.py] (the
    cached, indexed engine) and [modules/bestMatch/matcher.py] (the first
    generation of the same scorer).

    Modelling choices, fixed once for the whole file:
    - a Python [str] is the list of its Unicode code points ([list N]);
      literals are written [py "..."] and decoded from the UTF-8 bytes of
      the Rocq literal, so that the tables read as in the source;
    - a Python [float] score is an exact rational ([Q]); rounding of
      binary floating point is outside the model;
    - a JSON object with a fixed set of string fields is a record whose
      absent, [null] and empty fields are all the empty string (the code
      tests them with [if x] / [x or ''], which does not tell them apart);
    - dictionaries that are only looked up are [gmap]s, tables that are
      iterated in insertion order are association lists;
    - the character n-gram TF-IDF cosine of scikit-learn is a parameter
      of the sections that need it. *)

From Stdlib Require Import QArith Qround Lqa List String Ascii NArith ZArith Lia Bool.
From Stdlib Require Import Sorted Permutation.
From stdpp Require Import base gmap list strings.
Import ListNotations.

Local Open Scope N_scope.

(* ================================================================== *)
(** * Python strings as code-point lists *)
(* ================================================================== *)

Abbreviation str := (list N).

(** UTF-8 decoding of a byte list (well-formed input, as produced by the
    literals of this file). *)
Fixpoint utf8 (bs : list N) : str :=
  match bs with
  | [] => []
  | b0 :: r0 =>
      if b0 <? 0x80 then b0 :: utf8 r0
      else
        match r0 with
        | [] => []
        | b1 :: r1 =>
            if b0 <? 0xE0 then ((b0 - 0xC0) * 64 + (b1 - 0x80)) :: utf8 r1
            else
              match r1 with
              | [] => []
              | b2 :: r2 =>
                  if b0 <? 0xF0
                  then ((b0 - 0xE0) * 4096 + (b1 - 0x80) * 64 + (b2 - 0x80)) :: utf8 r2
                  else
                    match r2 with
                    | [] => []
                    | b3 :: r3 =>
                        ((b0 - 0xF0) * 262144 + (b1 - 0x80) * 4096
                         + (b2 - 0x80) * 64 + (b3 - 0x80)) :: utf8 r3
                    end
              end
        end
  end.

Definition py (s : string) : str :=
  utf8 (List.map N_of_ascii (list_ascii_of_string s)).

Definition str_eqb (a b : str) : bool := bool_decide (a = b).

(** Truthiness of a string: [if s] / [not s]. *)
Definition truthy (s : str) : bool :=
  match s with [] => false | _ :: _ => true end.

(** [a in b] on strings: [a] occurs as a contiguous run of [b]. *)
Fixpoint starts_with (a b : str) : bool :=
  match a, b with
  | [], _ => true
  | _ :: _, [] => false
  | x :: a', y :: b' => (x =? y) && starts_with a' b'
  end.

Fixpoint str_in (a b : str) : bool :=
  starts_with a b ||
  match b with
  | [] => false
  | _ :: b' => str_in a b'
  end.

(** [x in xs] on a list of strings. *)
Definition mem_str (x : str) (xs : list str) : bool :=
  existsb (str_eqb x) xs.

(** ** Character classes *)

Definition in_range (lo hi c : N) : bool := (lo <=? c) && (c <=? hi).

(** [str.isspace] / the [\s] class of a Unicode pattern. *)
Definition is_space (c : N) : bool :=
  in_range 0x09 0x0D c || in_range 0x1C 0x20 c || (c =? 0x85) || (c =? 0xA0)
  || (c =? 0x1680) || in_range 0x2000 0x200A c || (c =? 0x2028)
  || (c =? 0x2029) || (c =? 0x202F) || (c =? 0x205F) || (c =? 0x3000).

(** [_RE_DASH = [_-]]. *)
Definition is_dash (c : N) : bool := (c =? 0x5F) || (c =? 0x2D).

Definition is_lower_az (c : N) : bool := in_range 0x61 0x7A c.
Definition is_digit (c : N) : bool := in_range 0x30 0x39 c.
Definition is_cjk (c : N) : bool := in_range 0x4E00 0x9FA5 c.

(** The characters [_RE_KEEP = [^a-z0-9一-龥]] does not delete. *)
Definition is_keep (c : N) : bool := is_lower_az c || is_digit c || is_cjk c.

Definition is_upper_AZ (c : N) : bool := in_range 0x41 0x5A c.

(** ** [str.lower]

    The case data are those of Unicode 14.0, which CPython 3.11 carries.
    A row [(lo, hi, step)] stands for the code points [lo], [lo + step],
    ... up to [hi]. *)
Definition in_row (c lo hi step : N) : bool :=
  (lo <=? c) && (c <=? hi) && ((c - lo) mod step =? 0).

(** The lower-case mapping: a row [(lo, hi, step, to)] sends the code
    point [lo + k * step] to [to + k * step].  U+0130, the one code point
    whose lower-case form has two code points, is not in the table. *)
Definition LOWER_TABLE : list (N * N * N * N) :=
  [
    (0x41, 0x5A, 1, 0x61); (0xC0, 0xD6, 1, 0xE0); (0xD8, 0xDE, 1, 0xF8);
    (0x100, 0x12E, 2, 0x101); (0x132, 0x136, 2, 0x133); (0x139, 0x147, 2, 0x13A);
    (0x14A, 0x176, 2, 0x14B); (0x178, 0x178, 1, 0xFF); (0x179, 0x17D, 2, 0x17A);
    (0x181, 0x181, 1, 0x253); (0x182, 0x184, 2, 0x183); (0x186, 0x186, 1, 0x254);
    (0x187, 0x187, 1, 0x188); (0x189, 0x18A, 1, 0x256); (0x18B, 0x18B, 1, 0x18C);
    (0x18E, 0x18E, 1, 0x1DD); (0x18F, 0x18F, 1, 0x259); (0x190, 0x190, 1, 0x25B);
    (0x191, 0x191, 1, 0x192); (0x193, 0x193, 1, 0x260); (0x194, 0x194, 1, 0x263);
    (0x196, 0x196, 1, 0x269); (0x197, 0x197, 1, 0x268); (0x198, 0x198, 1, 0x199);
    (0x19C, 0x19C, 1, 0x26F); (0x19D, 0x19D, 1, 0x272); (0x19F, 0x19F, 1, 0x275);
    (0x1A0, 0x1A4, 2, 0x1A1); (0x1A6, 0x1A6, 1, 0x280); (0x1A7, 0x1A7, 1, 0x1A8);
    (0x1A9, 0x1A9, 1, 0x283); (0x1AC, 0x1AC, 1, 0x1AD); (0x1AE, 0x1AE, 1, 0x288);
    (0x1AF, 0x1AF, 1, 0x1B0); (0x1B1, 0x1B2, 1, 0x28A); (0x1B3, 0x1B5, 2, 0x1B4);
    (0x1B7, 0x1B7, 1, 0x292); (0x1B8, 0x1B8, 1, 0x1B9); (0x1BC, 0x1BC, 1, 0x1BD);
    (0x1C4, 0x1C4, 1, 0x1C6); (0x1C5, 0x1C5, 1, 0x1C6); (0x1C7, 0x1C7, 1, 0x1C9);
    (0x1C8, 0x1C8, 1, 0x1C9); (0x1CA, 0x1CA, 1, 0x1CC); (0x1CB, 0x1DB, 2, 0x1CC);
    (0x1DE, 0x1EE, 2, 0x1DF); (0x1F1, 0x1F1, 1, 0x1F3); (0x1F2, 0x1F4, 2, 0x1F3);
    (0x1F6, 0x1F6, 1, 0x195); (0x1F7, 0x1F7, 1, 0x1BF); (0x1F8, 0x21E, 2, 0x1F9);
    (0x220, 0x220, 1, 0x19E); (0x222, 0x232, 2, 0x223); (0x23A, 0x23A, 1, 0x2C65);
    (0x23B, 0x23B, 1, 0x23C); (0x23D, 0x23D, 1, 0x19A); (0x23E, 0x23E, 1, 0x2C66);
    (0x241, 0x241, 1, 0x242); (0x243, 0x243, 1, 0x180); (0x244, 0x244, 1, 0x289);
    (0x245, 0x245, 1, 0x28C); (0x246, 0x24E, 2, 0x247); (0x370, 0x372, 2, 0x371);
    (0x376, 0x376, 1, 0x377); (0x37F, 0x37F, 1, 0x3F3); (0x386, 0x386, 1, 0x3AC);
    (0x388, 0x38A, 1, 0x3AD); (0x38C, 0x38C, 1, 0x3CC); (0x38E, 0x38F, 1, 0x3CD);
    (0x391, 0x3A1, 1, 0x3B1); (0x3A3, 0x3AB, 1, 0x3C3); (0x3CF, 0x3CF, 1, 0x3D7);
    (0x3D8, 0x3EE, 2, 0x3D9); (0x3F4, 0x3F4, 1, 0x3B8); (0x3F7, 0x3F7, 1, 0x3F8);
    (0x3F9, 0x3F9, 1, 0x3F2); (0x3FA, 0x3FA, 1, 0x3FB); (0x3FD, 0x3FF, 1, 0x37B);
    (0x400, 0x40F, 1, 0x450); (0x410, 0x42F, 1, 0x430); (0x460, 0x480, 2, 0x461);
    (0x48A, 0x4BE, 2, 0x48B); (0x4C0, 0x4C0, 1, 0x4CF); (0x4C1, 0x4CD, 2, 0x4C2);
    (0x4D0, 0x52E, 2, 0x4D1); (0x531, 0x556, 1, 0x561); (0x10A0, 0x10C5, 1, 0x2D00);
    (0x10C7, 0x10C7, 1, 0x2D27); (0x10CD, 0x10CD, 1, 0x2D2D); (0x13A0, 0x13EF, 1, 0xAB70);
    (0x13F0, 0x13F5, 1, 0x13F8); (0x1C90, 0x1CBA, 1, 0x10D0); (0x1CBD, 0x1CBF, 1, 0x10FD);
    (0x1E00, 0x1E94, 2, 0x1E01); (0x1E9E, 0x1E9E, 1, 0xDF); (0x1EA0, 0x1EFE, 2, 0x1EA1);
    (0x1F08, 0x1F0F, 1, 0x1F00); (0x1F18, 0x1F1D, 1, 0x1F10); (0x1F28, 0x1F2F, 1, 0x1F20);
    (0x1F38, 0x1F3F, 1, 0x1F30); (0x1F48, 0x1F4D, 1, 0x1F40); (0x1F59, 0x1F5F, 2, 0x1F51);
    (0x1F68, 0x1F6F, 1, 0x1F60); (0x1F88, 0x1F8F, 1, 0x1F80); (0x1F98, 0x1F9F, 1, 0x1F90);
    (0x1FA8, 0x1FAF, 1, 0x1FA0); (0x1FB8, 0x1FB9, 1, 0x1FB0); (0x1FBA, 0x1FBB, 1, 0x1F70);
    (0x1FBC, 0x1FBC, 1, 0x1FB3); (0x1FC8, 0x1FCB, 1, 0x1F72); (0x1FCC, 0x1FCC, 1, 0x1FC3);
    (0x1FD8, 0x1FD9, 1, 0x1FD0); (0x1FDA, 0x1FDB, 1, 0x1F76); (0x1FE8, 0x1FE9, 1, 0x1FE0);
    (0x1FEA, 0x1FEB, 1, 0x1F7A); (0x1FEC, 0x1FEC, 1, 0x1FE5); (0x1FF8, 0x1FF9, 1, 0x1F78);
    (0x1FFA, 0x1FFB, 1, 0x1F7C); (0x1FFC, 0x1FFC, 1, 0x1FF3); (0x2126, 0x2126, 1, 0x3C9);
    (0x212A, 0x212A, 1, 0x6B); (0x212B, 0x212B, 1, 0xE5); (0x2132, 0x2132, 1, 0x214E);
    (0x2160, 0x216F, 1, 0x2170); (0x2183, 0x2183, 1, 0x2184); (0x24B6, 0x24CF, 1, 0x24D0);
    (0x2C00, 0x2C2F, 1, 0x2C30); (0x2C60, 0x2C60, 1, 0x2C61); (0x2C62, 0x2C62, 1, 0x26B);
    (0x2C63, 0x2C63, 1, 0x1D7D); (0x2C64, 0x2C64, 1, 0x27D); (0x2C67, 0x2C6B, 2, 0x2C68);
    (0x2C6D, 0x2C6D, 1, 0x251); (0x2C6E, 0x2C6E, 1, 0x271); (0x2C6F, 0x2C6F, 1, 0x250);
    (0x2C70, 0x2C70, 1, 0x252); (0x2C72, 0x2C72, 1, 0x2C73); (0x2C75, 0x2C75, 1, 0x2C76);
    (0x2C7E, 0x2C7F, 1, 0x23F); (0x2C80, 0x2CE2, 2, 0x2C81); (0x2CEB, 0x2CED, 2, 0x2CEC);
    (0x2CF2, 0x2CF2, 1, 0x2CF3); (0xA640, 0xA66C, 2, 0xA641); (0xA680, 0xA69A, 2, 0xA681);
    (0xA722, 0xA72E, 2, 0xA723); (0xA732, 0xA76E, 2, 0xA733); (0xA779, 0xA77B, 2, 0xA77A);
    (0xA77D, 0xA77D, 1, 0x1D79); (0xA77E, 0xA786, 2, 0xA77F); (0xA78B, 0xA78B, 1, 0xA78C);
    (0xA78D, 0xA78D, 1, 0x265); (0xA790, 0xA792, 2, 0xA791); (0xA796, 0xA7A8, 2, 0xA797);
    (0xA7AA, 0xA7AA, 1, 0x266); (0xA7AB, 0xA7AB, 1, 0x25C); (0xA7AC, 0xA7AC, 1, 0x261);
    (0xA7AD, 0xA7AD, 1, 0x26C); (0xA7AE, 0xA7AE, 1, 0x26A); (0xA7B0, 0xA7B0, 1, 0x29E);
    (0xA7B1, 0xA7B1, 1, 0x287); (0xA7B2, 0xA7B2, 1, 0x29D); (0xA7B3, 0xA7B3, 1, 0xAB53);
    (0xA7B4, 0xA7C2, 2, 0xA7B5); (0xA7C4, 0xA7C4, 1, 0xA794); (0xA7C5, 0xA7C5, 1, 0x282);
    (0xA7C6, 0xA7C6, 1, 0x1D8E); (0xA7C7, 0xA7C9, 2, 0xA7C8); (0xA7D0, 0xA7D0, 1, 0xA7D1);
    (0xA7D6, 0xA7D8, 2, 0xA7D7); (0xA7F5, 0xA7F5, 1, 0xA7F6); (0xFF21, 0xFF3A, 1, 0xFF41);
    (0x10400, 0x10427, 1, 0x10428); (0x104B0, 0x104D3, 1, 0x104D8); (0x10570, 0x10594, 2, 0x10597);
    (0x10571, 0x1057A, 1, 0x10598); (0x1057D, 0x1058A, 1, 0x105A4); (0x1058D, 0x10592, 1, 0x105B4);
    (0x10595, 0x10595, 1, 0x105BC); (0x10C80, 0x10CB2, 1, 0x10CC0); (0x118A0, 0x118BF, 1, 0x118C0);
    (0x16E40, 0x16E5F, 1, 0x16E60); (0x1E900, 0x1E921, 1, 0x1E922) ].

(** The code points with the property Cased, and those with the
    property Case_Ignorable. *)
Definition CASED : list (N * N * N) :=
  [
    (0x41, 0x5A, 1); (0x61, 0x7A, 1); (0xAA, 0xAA, 1); (0xB5, 0xB5, 1);
    (0xBA, 0xBA, 1); (0xC0, 0xD6, 1); (0xD8, 0xF6, 1); (0xF8, 0x1BA, 1);
    (0x1BC, 0x1BF, 1); (0x1C4, 0x293, 1); (0x295, 0x2B8, 1); (0x2C0, 0x2C1, 1);
    (0x2E0, 0x2E4, 1); (0x345, 0x345, 1); (0x370, 0x373, 1); (0x376, 0x377, 1);
    (0x37A, 0x37D, 1); (0x37F, 0x37F, 1); (0x386, 0x386, 1); (0x388, 0x38A, 1);
    (0x38C, 0x38C, 1); (0x38E, 0x3A1, 1); (0x3A3, 0x3F5, 1); (0x3F7, 0x481, 1);
    (0x48A, 0x52F, 1); (0x531, 0x556, 1); (0x560, 0x588, 1); (0x10A0, 0x10C5, 1);
    (0x10C7, 0x10C7, 1); (0x10CD, 0x10CD, 1); (0x10D0, 0x10FA, 1); (0x10FD, 0x10FF, 1);
    (0x13A0, 0x13F5, 1); (0x13F8, 0x13FD, 1); (0x1C80, 0x1C88, 1); (0x1C90, 0x1CBA, 1);
    (0x1CBD, 0x1CBF, 1); (0x1D00, 0x1DBF, 1); (0x1E00, 0x1F15, 1); (0x1F18, 0x1F1D, 1);
    (0x1F20, 0x1F45, 1); (0x1F48, 0x1F4D, 1); (0x1F50, 0x1F57, 1); (0x1F59, 0x1F5F, 2);
    (0x1F60, 0x1F7D, 1); (0x1F80, 0x1FB4, 1); (0x1FB6, 0x1FBC, 1); (0x1FBE, 0x1FBE, 1);
    (0x1FC2, 0x1FC4, 1); (0x1FC6, 0x1FCC, 1); (0x1FD0, 0x1FD3, 1); (0x1FD6, 0x1FDB, 1);
    (0x1FE0, 0x1FEC, 1); (0x1FF2, 0x1FF4, 1); (0x1FF6, 0x1FFC, 1); (0x2071, 0x2071, 1);
    (0x207F, 0x207F, 1); (0x2090, 0x209C, 1); (0x2102, 0x2102, 1); (0x2107, 0x2107, 1);
    (0x210A, 0x2113, 1); (0x2115, 0x2115, 1); (0x2119, 0x211D, 1); (0x2124, 0x212A, 2);
    (0x212B, 0x212D, 1); (0x212F, 0x2134, 1); (0x2139, 0x2139, 1); (0x213C, 0x213F, 1);
    (0x2145, 0x2149, 1); (0x214E, 0x214E, 1); (0x2160, 0x217F, 1); (0x2183, 0x2184, 1);
    (0x24B6, 0x24E9, 1); (0x2C00, 0x2CE4, 1); (0x2CEB, 0x2CEE, 1); (0x2CF2, 0x2CF3, 1);
    (0x2D00, 0x2D25, 1); (0x2D27, 0x2D27, 1); (0x2D2D, 0x2D2D, 1); (0xA640, 0xA66D, 1);
    (0xA680, 0xA69D, 1); (0xA722, 0xA787, 1); (0xA78B, 0xA78E, 1); (0xA790, 0xA7CA, 1);
    (0xA7D0, 0xA7D1, 1); (0xA7D3, 0xA7D3, 1); (0xA7D5, 0xA7D9, 1); (0xA7F5, 0xA7F6, 1);
    (0xA7F8, 0xA7FA, 1); (0xAB30, 0xAB5A, 1); (0xAB5C, 0xAB68, 1); (0xAB70, 0xABBF, 1);
    (0xFB00, 0xFB06, 1); (0xFB13, 0xFB17, 1); (0xFF21, 0xFF3A, 1); (0xFF41, 0xFF5A, 1);
    (0x10400, 0x1044F, 1); (0x104B0, 0x104D3, 1); (0x104D8, 0x104FB, 1); (0x10570, 0x1057A, 1);
    (0x1057C, 0x1058A, 1); (0x1058C, 0x10592, 1); (0x10594, 0x10595, 1); (0x10597, 0x105A1, 1);
    (0x105A3, 0x105B1, 1); (0x105B3, 0x105B9, 1); (0x105BB, 0x105BC, 1); (0x10780, 0x10780, 1);
    (0x10783, 0x10785, 1); (0x10787, 0x107B0, 1); (0x107B2, 0x107BA, 1); (0x10C80, 0x10CB2, 1);
    (0x10CC0, 0x10CF2, 1); (0x118A0, 0x118DF, 1); (0x16E40, 0x16E7F, 1); (0x1D400, 0x1D454, 1);
    (0x1D456, 0x1D49C, 1); (0x1D49E, 0x1D49F, 1); (0x1D4A2, 0x1D4A2, 1); (0x1D4A5, 0x1D4A6, 1);
    (0x1D4A9, 0x1D4AC, 1); (0x1D4AE, 0x1D4B9, 1); (0x1D4BB, 0x1D4BB, 1); (0x1D4BD, 0x1D4C3, 1);
    (0x1D4C5, 0x1D505, 1); (0x1D507, 0x1D50A, 1); (0x1D50D, 0x1D514, 1); (0x1D516, 0x1D51C, 1);
    (0x1D51E, 0x1D539, 1); (0x1D53B, 0x1D53E, 1); (0x1D540, 0x1D544, 1); (0x1D546, 0x1D546, 1);
    (0x1D54A, 0x1D550, 1); (0x1D552, 0x1D6A5, 1); (0x1D6A8, 0x1D6C0, 1); (0x1D6C2, 0x1D6DA, 1);
    (0x1D6DC, 0x1D6FA, 1); (0x1D6FC, 0x1D714, 1); (0x1D716, 0x1D734, 1); (0x1D736, 0x1D74E, 1);
    (0x1D750, 0x1D76E, 1); (0x1D770, 0x1D788, 1); (0x1D78A, 0x1D7A8, 1); (0x1D7AA, 0x1D7C2, 1);
    (0x1D7C4, 0x1D7CB, 1); (0x1DF00, 0x1DF09, 1); (0x1DF0B, 0x1DF1E, 1); (0x1E900, 0x1E943, 1);
    (0x1F130, 0x1F149, 1); (0x1F150, 0x1F169, 1); (0x1F170, 0x1F189, 1) ].

Definition CASE_IGNORABLE : list (N * N * N) :=
  [
    (0x27, 0x27, 1); (0x2E, 0x2E, 1); (0x3A, 0x3A, 1); (0x5E, 0x5E, 1);
    (0x60, 0x60, 1); (0xA8, 0xA8, 1); (0xAD, 0xAD, 1); (0xAF, 0xAF, 1);
    (0xB4, 0xB4, 1); (0xB7, 0xB8, 1); (0x2B0, 0x36F, 1); (0x374, 0x375, 1);
    (0x37A, 0x37A, 1); (0x384, 0x385, 1); (0x387, 0x387, 1); (0x483, 0x489, 1);
    (0x559, 0x559, 1); (0x55F, 0x55F, 1); (0x591, 0x5BD, 1); (0x5BF, 0x5BF, 1);
    (0x5C1, 0x5C2, 1); (0x5C4, 0x5C5, 1); (0x5C7, 0x5C7, 1); (0x5F4, 0x5F4, 1);
    (0x600, 0x605, 1); (0x610, 0x61A, 1); (0x61C, 0x61C, 1); (0x640, 0x640, 1);
    (0x64B, 0x65F, 1); (0x670, 0x670, 1); (0x6D6, 0x6DD, 1); (0x6DF, 0x6E8, 1);
    (0x6EA, 0x6ED, 1); (0x70F, 0x70F, 1); (0x711, 0x711, 1); (0x730, 0x74A, 1);
    (0x7A6, 0x7B0, 1); (0x7EB, 0x7F5, 1); (0x7FA, 0x7FA, 1); (0x7FD, 0x7FD, 1);
    (0x816, 0x82D, 1); (0x859, 0x85B, 1); (0x888, 0x888, 1); (0x890, 0x891, 1);
    (0x898, 0x89F, 1); (0x8C9, 0x902, 1); (0x93A, 0x93A, 1); (0x93C, 0x93C, 1);
    (0x941, 0x948, 1); (0x94D, 0x94D, 1); (0x951, 0x957, 1); (0x962, 0x963, 1);
    (0x971, 0x971, 1); (0x981, 0x981, 1); (0x9BC, 0x9BC, 1); (0x9C1, 0x9C4, 1);
    (0x9CD, 0x9CD, 1); (0x9E2, 0x9E3, 1); (0x9FE, 0x9FE, 1); (0xA01, 0xA02, 1);
    (0xA3C, 0xA3C, 1); (0xA41, 0xA42, 1); (0xA47, 0xA48, 1); (0xA4B, 0xA4D, 1);
    (0xA51, 0xA51, 1); (0xA70, 0xA71, 1); (0xA75, 0xA75, 1); (0xA81, 0xA82, 1);
    (0xABC, 0xABC, 1); (0xAC1, 0xAC5, 1); (0xAC7, 0xAC8, 1); (0xACD, 0xACD, 1);
    (0xAE2, 0xAE3, 1); (0xAFA, 0xAFF, 1); (0xB01, 0xB01, 1); (0xB3C, 0xB3C, 1);
    (0xB3F, 0xB3F, 1); (0xB41, 0xB44, 1); (0xB4D, 0xB4D, 1); (0xB55, 0xB56, 1);
    (0xB62, 0xB63, 1); (0xB82, 0xB82, 1); (0xBC0, 0xBC0, 1); (0xBCD, 0xBCD, 1);
    (0xC00, 0xC00, 1); (0xC04, 0xC04, 1); (0xC3C, 0xC3C, 1); (0xC3E, 0xC40, 1);
    (0xC46, 0xC48, 1); (0xC4A, 0xC4D, 1); (0xC55, 0xC56, 1); (0xC62, 0xC63, 1);
    (0xC81, 0xC81, 1); (0xCBC, 0xCBC, 1); (0xCBF, 0xCBF, 1); (0xCC6, 0xCC6, 1);
    (0xCCC, 0xCCD, 1); (0xCE2, 0xCE3, 1); (0xD00, 0xD01, 1); (0xD3B, 0xD3C, 1);
    (0xD41, 0xD44, 1); (0xD4D, 0xD4D, 1); (0xD62, 0xD63, 1); (0xD81, 0xD81, 1);
    (0xDCA, 0xDCA, 1); (0xDD2, 0xDD4, 1); (0xDD6, 0xDD6, 1); (0xE31, 0xE31, 1);
    (0xE34, 0xE3A, 1); (0xE46, 0xE4E, 1); (0xEB1, 0xEB1, 1); (0xEB4, 0xEBC, 1);
    (0xEC6, 0xEC6, 1); (0xEC8, 0xECD, 1); (0xF18, 0xF19, 1); (0xF35, 0xF39, 2);
    (0xF71, 0xF7E, 1); (0xF80, 0xF84, 1); (0xF86, 0xF87, 1); (0xF8D, 0xF97, 1);
    (0xF99, 0xFBC, 1); (0xFC6, 0xFC6, 1); (0x102D, 0x1030, 1); (0x1032, 0x1037, 1);
    (0x1039, 0x103A, 1); (0x103D, 0x103E, 1); (0x1058, 0x1059, 1); (0x105E, 0x1060, 1);
    (0x1071, 0x1074, 1); (0x1082, 0x1082, 1); (0x1085, 0x1086, 1); (0x108D, 0x108D, 1);
    (0x109D, 0x109D, 1); (0x10FC, 0x10FC, 1); (0x135D, 0x135F, 1); (0x1712, 0x1714, 1);
    (0x1732, 0x1733, 1); (0x1752, 0x1753, 1); (0x1772, 0x1773, 1); (0x17B4, 0x17B5, 1);
    (0x17B7, 0x17BD, 1); (0x17C6, 0x17C6, 1); (0x17C9, 0x17D3, 1); (0x17D7, 0x17D7, 1);
    (0x17DD, 0x17DD, 1); (0x180B, 0x180F, 1); (0x1843, 0x1843, 1); (0x1885, 0x1886, 1);
    (0x18A9, 0x18A9, 1); (0x1920, 0x1922, 1); (0x1927, 0x1928, 1); (0x1932, 0x1932, 1);
    (0x1939, 0x193B, 1); (0x1A17, 0x1A18, 1); (0x1A1B, 0x1A1B, 1); (0x1A56, 0x1A56, 1);
    (0x1A58, 0x1A5E, 1); (0x1A60, 0x1A60, 1); (0x1A62, 0x1A62, 1); (0x1A65, 0x1A6C, 1);
    (0x1A73, 0x1A7C, 1); (0x1A7F, 0x1A7F, 1); (0x1AA7, 0x1AA7, 1); (0x1AB0, 0x1ACE, 1);
    (0x1B00, 0x1B03, 1); (0x1B34, 0x1B34, 1); (0x1B36, 0x1B3A, 1); (0x1B3C, 0x1B3C, 1);
    (0x1B42, 0x1B42, 1); (0x1B6B, 0x1B73, 1); (0x1B80, 0x1B81, 1); (0x1BA2, 0x1BA5, 1);
    (0x1BA8, 0x1BA9, 1); (0x1BAB, 0x1BAD, 1); (0x1BE6, 0x1BE6, 1); (0x1BE8, 0x1BE9, 1);
    (0x1BED, 0x1BED, 1); (0x1BEF, 0x1BF1, 1); (0x1C2C, 0x1C33, 1); (0x1C36, 0x1C37, 1);
    (0x1C78, 0x1C7D, 1); (0x1CD0, 0x1CD2, 1); (0x1CD4, 0x1CE0, 1); (0x1CE2, 0x1CE8, 1);
    (0x1CED, 0x1CED, 1); (0x1CF4, 0x1CF4, 1); (0x1CF8, 0x1CF9, 1); (0x1D2C, 0x1D6A, 1);
    (0x1D78, 0x1D78, 1); (0x1D9B, 0x1DFF, 1); (0x1FBD, 0x1FBD, 1); (0x1FBF, 0x1FC1, 1);
    (0x1FCD, 0x1FCF, 1); (0x1FDD, 0x1FDF, 1); (0x1FED, 0x1FEF, 1); (0x1FFD, 0x1FFE, 1);
    (0x200B, 0x200F, 1); (0x2018, 0x2019, 1); (0x2024, 0x2024, 1); (0x2027, 0x2027, 1);
    (0x202A, 0x202E, 1); (0x2060, 0x2064, 1); (0x2066, 0x206F, 1); (0x2071, 0x2071, 1);
    (0x207F, 0x207F, 1); (0x2090, 0x209C, 1); (0x20D0, 0x20F0, 1); (0x2C7C, 0x2C7D, 1);
    (0x2CEF, 0x2CF1, 1); (0x2D6F, 0x2D6F, 1); (0x2D7F, 0x2D7F, 1); (0x2DE0, 0x2DFF, 1);
    (0x2E2F, 0x2E2F, 1); (0x3005, 0x3005, 1); (0x302A, 0x302D, 1); (0x3031, 0x3035, 1);
    (0x303B, 0x303B, 1); (0x3099, 0x309E, 1); (0x30FC, 0x30FE, 1); (0xA015, 0xA015, 1);
    (0xA4F8, 0xA4FD, 1); (0xA60C, 0xA60C, 1); (0xA66F, 0xA672, 1); (0xA674, 0xA67D, 1);
    (0xA67F, 0xA67F, 1); (0xA69C, 0xA69F, 1); (0xA6F0, 0xA6F1, 1); (0xA700, 0xA721, 1);
    (0xA770, 0xA770, 1); (0xA788, 0xA78A, 1); (0xA7F2, 0xA7F4, 1); (0xA7F8, 0xA7F9, 1);
    (0xA802, 0xA802, 1); (0xA806, 0xA806, 1); (0xA80B, 0xA80B, 1); (0xA825, 0xA826, 1);
    (0xA82C, 0xA82C, 1); (0xA8C4, 0xA8C5, 1); (0xA8E0, 0xA8F1, 1); (0xA8FF, 0xA8FF, 1);
    (0xA926, 0xA92D, 1); (0xA947, 0xA951, 1); (0xA980, 0xA982, 1); (0xA9B3, 0xA9B3, 1);
    (0xA9B6, 0xA9B9, 1); (0xA9BC, 0xA9BD, 1); (0xA9CF, 0xA9CF, 1); (0xA9E5, 0xA9E6, 1);
    (0xAA29, 0xAA2E, 1); (0xAA31, 0xAA32, 1); (0xAA35, 0xAA36, 1); (0xAA43, 0xAA43, 1);
    (0xAA4C, 0xAA4C, 1); (0xAA70, 0xAA70, 1); (0xAA7C, 0xAA7C, 1); (0xAAB0, 0xAAB0, 1);
    (0xAAB2, 0xAAB4, 1); (0xAAB7, 0xAAB8, 1); (0xAABE, 0xAABF, 1); (0xAAC1, 0xAAC1, 1);
    (0xAADD, 0xAADD, 1); (0xAAEC, 0xAAED, 1); (0xAAF3, 0xAAF4, 1); (0xAAF6, 0xAAF6, 1);
    (0xAB5B, 0xAB5F, 1); (0xAB69, 0xAB6B, 1); (0xABE5, 0xABE5, 1); (0xABE8, 0xABE8, 1);
    (0xABED, 0xABED, 1); (0xFB1E, 0xFB1E, 1); (0xFBB2, 0xFBC2, 1); (0xFE00, 0xFE0F, 1);
    (0xFE13, 0xFE13, 1); (0xFE20, 0xFE2F, 1); (0xFE52, 0xFE52, 1); (0xFE55, 0xFE55, 1);
    (0xFEFF, 0xFEFF, 1); (0xFF07, 0xFF07, 1); (0xFF0E, 0xFF0E, 1); (0xFF1A, 0xFF1A, 1);
    (0xFF3E, 0xFF3E, 1); (0xFF40, 0xFF40, 1); (0xFF70, 0xFF70, 1); (0xFF9E, 0xFF9F, 1);
    (0xFFE3, 0xFFE3, 1); (0xFFF9, 0xFFFB, 1); (0x101FD, 0x101FD, 1); (0x102E0, 0x102E0, 1);
    (0x10376, 0x1037A, 1); (0x10780, 0x10785, 1); (0x10787, 0x107B0, 1); (0x107B2, 0x107BA, 1);
    (0x10A01, 0x10A03, 1); (0x10A05, 0x10A06, 1); (0x10A0C, 0x10A0F, 1); (0x10A38, 0x10A3A, 1);
    (0x10A3F, 0x10A3F, 1); (0x10AE5, 0x10AE6, 1); (0x10D24, 0x10D27, 1); (0x10EAB, 0x10EAC, 1);
    (0x10F46, 0x10F50, 1); (0x10F82, 0x10F85, 1); (0x11001, 0x11001, 1); (0x11038, 0x11046, 1);
    (0x11070, 0x11070, 1); (0x11073, 0x11074, 1); (0x1107F, 0x11081, 1); (0x110B3, 0x110B6, 1);
    (0x110B9, 0x110BA, 1); (0x110BD, 0x110BD, 1); (0x110C2, 0x110C2, 1); (0x110CD, 0x110CD, 1);
    (0x11100, 0x11102, 1); (0x11127, 0x1112B, 1); (0x1112D, 0x11134, 1); (0x11173, 0x11173, 1);
    (0x11180, 0x11181, 1); (0x111B6, 0x111BE, 1); (0x111C9, 0x111CC, 1); (0x111CF, 0x111CF, 1);
    (0x1122F, 0x11231, 1); (0x11234, 0x11234, 1); (0x11236, 0x11237, 1); (0x1123E, 0x1123E, 1);
    (0x112DF, 0x112DF, 1); (0x112E3, 0x112EA, 1); (0x11300, 0x11301, 1); (0x1133B, 0x1133C, 1);
    (0x11340, 0x11340, 1); (0x11366, 0x1136C, 1); (0x11370, 0x11374, 1); (0x11438, 0x1143F, 1);
    (0x11442, 0x11444, 1); (0x11446, 0x11446, 1); (0x1145E, 0x1145E, 1); (0x114B3, 0x114B8, 1);
    (0x114BA, 0x114BA, 1); (0x114BF, 0x114C0, 1); (0x114C2, 0x114C3, 1); (0x115B2, 0x115B5, 1);
    (0x115BC, 0x115BD, 1); (0x115BF, 0x115C0, 1); (0x115DC, 0x115DD, 1); (0x11633, 0x1163A, 1);
    (0x1163D, 0x1163D, 1); (0x1163F, 0x11640, 1); (0x116AB, 0x116AB, 1); (0x116AD, 0x116AD, 1);
    (0x116B0, 0x116B5, 1); (0x116B7, 0x116B7, 1); (0x1171D, 0x1171F, 1); (0x11722, 0x11725, 1);
    (0x11727, 0x1172B, 1); (0x1182F, 0x11837, 1); (0x11839, 0x1183A, 1); (0x1193B, 0x1193C, 1);
    (0x1193E, 0x1193E, 1); (0x11943, 0x11943, 1); (0x119D4, 0x119D7, 1); (0x119DA, 0x119DB, 1);
    (0x119E0, 0x119E0, 1); (0x11A01, 0x11A0A, 1); (0x11A33, 0x11A38, 1); (0x11A3B, 0x11A3E, 1);
    (0x11A47, 0x11A47, 1); (0x11A51, 0x11A56, 1); (0x11A59, 0x11A5B, 1); (0x11A8A, 0x11A96, 1);
    (0x11A98, 0x11A99, 1); (0x11C30, 0x11C36, 1); (0x11C38, 0x11C3D, 1); (0x11C3F, 0x11C3F, 1);
    (0x11C92, 0x11CA7, 1); (0x11CAA, 0x11CB0, 1); (0x11CB2, 0x11CB3, 1); (0x11CB5, 0x11CB6, 1);
    (0x11D31, 0x11D36, 1); (0x11D3A, 0x11D3A, 1); (0x11D3C, 0x11D3D, 1); (0x11D3F, 0x11D45, 1);
    (0x11D47, 0x11D47, 1); (0x11D90, 0x11D91, 1); (0x11D95, 0x11D95, 1); (0x11D97, 0x11D97, 1);
    (0x11EF3, 0x11EF4, 1); (0x13430, 0x13438, 1); (0x16AF0, 0x16AF4, 1); (0x16B30, 0x16B36, 1);
    (0x16B40, 0x16B43, 1); (0x16F4F, 0x16F4F, 1); (0x16F8F, 0x16F9F, 1); (0x16FE0, 0x16FE1, 1);
    (0x16FE3, 0x16FE4, 1); (0x1AFF0, 0x1AFF3, 1); (0x1AFF5, 0x1AFFB, 1); (0x1AFFD, 0x1AFFE, 1);
    (0x1BC9D, 0x1BC9E, 1); (0x1BCA0, 0x1BCA3, 1); (0x1CF00, 0x1CF2D, 1); (0x1CF30, 0x1CF46, 1);
    (0x1D167, 0x1D169, 1); (0x1D173, 0x1D182, 1); (0x1D185, 0x1D18B, 1); (0x1D1AA, 0x1D1AD, 1);
    (0x1D242, 0x1D244, 1); (0x1DA00, 0x1DA36, 1); (0x1DA3B, 0x1DA6C, 1); (0x1DA75, 0x1DA75, 1);
    (0x1DA84, 0x1DA84, 1); (0x1DA9B, 0x1DA9F, 1); (0x1DAA1, 0x1DAAF, 1); (0x1E000, 0x1E006, 1);
    (0x1E008, 0x1E018, 1); (0x1E01B, 0x1E021, 1); (0x1E023, 0x1E024, 1); (0x1E026, 0x1E02A, 1);
    (0x1E130, 0x1E13D, 1); (0x1E2AE, 0x1E2AE, 1); (0x1E2EC, 0x1E2EF, 1); (0x1E8D0, 0x1E8D6, 1);
    (0x1E944, 0x1E94B, 1); (0x1F3FB, 0x1F3FF, 1); (0xE0001, 0xE0001, 1); (0xE0020, 0xE007F, 1);
    (0xE0100, 0xE01EF, 1) ].

Definition is_cased (c : N) : bool :=
  existsb (fun '(lo, hi, step) => in_row c lo hi step) CASED.

Definition is_case_ignorable (c : N) : bool :=
  existsb (fun '(lo, hi, step) => in_row c lo hi step) CASE_IGNORABLE.

(** [str.lower] on one code point other than the capital sigma. *)
Definition lower_cp (c : N) : str :=
  if c =? 0x130 then [0x69; 0x307]
  else
    match List.find (fun '(lo, hi, step, _) => in_row c lo hi step) LOWER_TABLE with
    | Some (lo, _, _, to) => [to + (c - lo)]
    | None => [c]
    end.

(** The first code point of [s] that is not case-ignorable is cased. *)
Fixpoint cased_ahead (s : str) : bool :=
  match s with
  | [] => false
  | c :: r => if is_case_ignorable c then cased_ahead r else is_cased c
  end.

(** [str.lower].  The capital sigma U+03A3 becomes the final sigma
    U+03C2 when the nearest code point before it that is not
    case-ignorable is cased ([before]) and the nearest one after it is
    not; otherwise it becomes U+03C3. *)
Fixpoint lower_from (before : bool) (s : str) : str :=
  match s with
  | [] => []
  | c :: r =>
      (if c =? 0x3A3
       then [if before && negb (cased_ahead r) then 0x3C2 else 0x3C3]
       else lower_cp c)
      ++ lower_from (if is_case_ignorable c then before else is_cased c) r
  end.

Definition lower (s : str) : str := lower_from false s.

(** [re.sub] with an empty replacement deletes every matching character. *)
Definition re_sub_space (s : str) : str := List.filter (fun c => negb (is_space c)) s.
Definition re_sub_dash (s : str) : str := List.filter (fun c => negb (is_dash c)) s.
Definition re_sub_keep (s : str) : str := List.filter is_keep s.

Fixpoint lstrip (s : str) : str :=
  match s with
  | [] => []
  | c :: r => if is_space c then lstrip r else s
  end.

Definition rstrip (s : str) : str := rev (lstrip (rev s)).
Definition strip (s : str) : str := rstrip (lstrip s).

(** [str.replace(old, '')] for a one-character [old]. *)
Definition replace_char (old : N) (s : str) : str :=
  List.filter (fun c => negb (c =? old)) s.

(** [' '.join(parts)]. *)
Fixpoint join_space (parts : list str) : str :=
  match parts with
  | [] => []
  | [p] => p
  | p :: rest => p ++ 0x20 :: join_space rest
  end.

(** [s.split('.')[0]]. *)
Fixpoint split_dot_head (s : str) : str :=
  match s with
  | [] => []
  | c :: r => if c =? 0x2E then [] else c :: split_dot_head r
  end.

(* ================================================================== *)
(** * matcher_engine.py: the normalizer *)
(* ================================================================== *)

(** [normalize], the computation behind the cache. *)
Definition normalize (text : str) : str :=
  if negb (truthy text) then []
  else
    let s := lower text in
    let s := re_sub_space s in
    let s := re_sub_dash s in
    let s := re_sub_keep s in
    strip s.

(** ** The LRU cache ([LRUCache] over an [OrderedDict], oldest entry first) *)

Section LRU.
Context {K V : Type} `{EqDecision K}.

Record LRUCache := { cache : list (K * V); maxsize : nat }.

Fixpoint od_find (key : K) (l : list (K * V)) : option V :=
  match l with
  | [] => None
  | (k, v) :: r => if decide (k = key) then Some v else od_find key r
  end.

Fixpoint od_remove (key : K) (l : list (K * V)) : list (K * V) :=
  match l with
  | [] => []
  | (k, v) :: r => if decide (k = key) then r else (k, v) :: od_remove key r
  end.

(** [OrderedDict.move_to_end(key)] for a key that is present. *)
Definition od_move_to_end (key : K) (l : list (K * V)) : list (K * V) :=
  match od_find key l with
  | Some v => od_remove key l ++ [(key, v)]
  | None => l
  end.

(** [d[key] = value]: in place when the key exists, else appended. *)
Fixpoint od_assign (key : K) (value : V) (l : list (K * V)) : list (K * V) :=
  match l with
  | [] => [(key, value)]
  | (k, v) :: r =>
      if decide (k = key) then (k, value) :: r else (k, v) :: od_assign key value r
  end.

Definition lru_get (key : K) (c : LRUCache) : option V * LRUCache :=
  match od_find key (cache c) with
  | Some v => (Some v, {| cache := od_move_to_end key (cache c); maxsize := maxsize c |})
  | None => (None, c)
  end.

Definition lru_set (key : K) (value : V) (c : LRUCache) : LRUCache :=
  let l := match od_find key (cache c) with
           | Some _ => od_move_to_end key (cache c)
           | None => cache c
           end in
  let l := od_assign key value l in
  let l := if (maxsize c <? length l)%nat then tl l else l in
  {| cache := l; maxsize := maxsize c |}.

(** Every stored value is the value the memoised function gives. *)
Definition cache_sound (f : K -> V) (c : LRUCache) : Prop :=
  forall k v, In (k, v) (cache c) -> v = f k.
End LRU.

Arguments LRUCache : clear implicits.

(** [LRUCache(maxsize=size)]. *)
Definition empty_cache {K V} (size : nat) : LRUCache K V :=
  {| cache := []; maxsize := size |}.

(** [normalize] as the source has it, with [_normalize_cache] threaded. *)
Definition normalize_cached (text : str) (c : LRUCache str str) : str * LRUCache str str :=
  if negb (truthy text) then ([], c)
  else
    match lru_get text c with
    | (Some cached, c') => (cached, c')
    | (None, c') =>
        let result := strip (re_sub_keep (re_sub_dash (re_sub_space (lower text)))) in
        (result, lru_set text result c')
    end.

(** ** Raw strings that differ only by case and separators *)

Definition is_separator (c : N) : bool := is_space c || is_dash c.

(** Two characters are the same letter up to case when lower-casing
    identifies them. *)
Definition same_letter (c d : N) : Prop := lower_cp c = lower_cp d.

(** [s] and [t] differ only by letter case and by whitespace,
    underscores and hyphens inserted anywhere. *)
Inductive differ_by_case_sep : str -> str -> Prop :=
| dcs_nil : differ_by_case_sep [] []
| dcs_sep_l c s t :
    is_separator c = true -> differ_by_case_sep s t -> differ_by_case_sep (c :: s) t
| dcs_sep_r c s t :
    is_separator c = true -> differ_by_case_sep s t -> differ_by_case_sep s (c :: t)
| dcs_letter c d s t :
    same_letter c d -> differ_by_case_sep s t -> differ_by_case_sep (c :: s) (d :: t).

(** [GENERIC_NAMES_RAW] and its pre-normalised set. *)
Definition GENERIC_NAMES_RAW : list str := List.map py
  [ "light";"lights";"lamp";"lamps";"deng";"灯";"灯光";"灯具";"照明";
    "switch";"switches";"kaiguan";"开关";
    "socket";"sockets";"chazuo";"插座";"outlet";"plug";
    "ac";"aircon";"kongtiao";"空调";"冷气";"climate";
    "fan";"fans";"fengshan";"风扇";
    "cover";"covers";"chuanglian";"窗帘";"curtain";"blind";
    "lock";"locks";"suo";"锁";"门锁";
    "camera";"cameras";"cam";"shexiangtou";"摄像头";"监控";
    "sensor";"sensors";"chuanganqi";"传感器";
    "temperature";"temp";"wendu";"温度";"temperaturesensor";"温度传感器";
    "humidity";"shidu";"湿度";"湿度传感器";
    "motion";"renti";"人体";"motionsensor";"运动传感器";"yundongchuanganqi";
    "occupancy";"zhanyong";"占用";"occupancysensor";"占用传感器";"zhanyongchuanganqi";
    "door";"menchuang";"门窗";"doorsensor";"门窗传感器";"menci";"门磁" ]%string.

Definition GENERIC_NAMES : list str := List.map normalize GENERIC_NAMES_RAW.

(* ================================================================== *)
(** * matcher_engine.py: records *)
(* ================================================================== *)

(** A device request and an entity are both JSON objects read through
    the same accessors, so they share one record.  [attr_friendly_name]
    is [attributes.friendly_name]; [level] is the level already turned
    into text.  The opaque [service_data] and [automation] payloads are
    only echoed by the engine and are left out. *)
Record Obj := {
  entity_id : str;
  device_type : str;
  floor_name_en : str;
  floor_type : str;
  floor_name : str;
  level : str;
  room_name_en : str;
  room_type : str;
  room_name : str;
  device_name : str;
  device_name_en : str;
  attr_friendly_name : str;
  friendly_name : str;
  service : str
}.

#[global] Instance Obj_eq_dec : EqDecision Obj.
Proof. solve_decision. Defined.

Definition empty_obj : Obj :=
  {| entity_id := []; device_type := []; floor_name_en := []; floor_type := [];
     floor_name := []; level := []; room_name_en := []; room_type := [];
     room_name := []; device_name := []; device_name_en := [];
     attr_friendly_name := []; friendly_name := []; service := [] |}.

Inductive Field := Floor | Room | Name | Type_.

(** [extract_field_candidates]. *)
Definition extract_field_candidates (obj : Obj) (field : Field) : list str :=
  match field with
  | Floor => [floor_name_en obj; floor_type obj; floor_name obj; level obj]
  | Room => [room_name_en obj; room_type obj; room_name obj]
  | Name => [device_name obj; attr_friendly_name obj]
  | Type_ => [lower (device_type obj);
              if truthy (entity_id obj) then split_dot_head (entity_id obj) else []]
  end.

(** [get_primary_field]: the first non-empty candidate. *)
Fixpoint first_truthy (cs : list str) : str :=
  match cs with
  | [] => []
  | c :: r => if truthy c then c else first_truthy r
  end.

Definition get_primary_field (obj : Obj) (field : Field) : str :=
  first_truthy (extract_field_candidates obj field).

(** ** Alias tables and the reverse index *)

(** One alias class: canonical identifier to its aliases, in insertion
    order. *)
Abbreviation AliasMap := (list (str * list str)).

Record Aliases := {
  rooms : AliasMap;
  floors : AliasMap;
  device_types : AliasMap
}.

Definition no_aliases : Aliases := {| rooms := []; floors := []; device_types := [] |}.

(** [build_alias_reverse_index]. *)
Definition index_aliases (canonical_norm : str) (aliases : list str)
    (index : gmap str str) : gmap str str :=
  fold_left
    (fun idx alias =>
       let alias_norm := normalize alias in
       if truthy alias_norm then <[alias_norm := canonical_norm]> idx else idx)
    aliases index.

Definition build_alias_reverse_index (alias_map : AliasMap) : gmap str str :=
  fold_left
    (fun index '(canonical, aliases) =>
       let canonical_norm := normalize canonical in
       if truthy canonical_norm
       then index_aliases canonical_norm aliases (<[canonical_norm := canonical_norm]> index)
       else index)
    alias_map ∅.

(** The module-level [_alias_indices]: alias class name to reverse index. *)
Abbreviation AliasIndices := (gmap string (gmap str str)).

(** [expand_alias_fast], reading the global [_alias_indices]. *)
Definition expand_alias_fast (indices : AliasIndices) (value : str) (alias_type : string)
    : list str :=
  match truthy value, indices !! alias_type with
  | true, Some index =>
      let v_norm := normalize value in
      match index !! v_norm with
      | Some canonical => if truthy canonical then [canonical] else [v_norm]
      | None => [v_norm]
      end
  | _, _ => if truthy value then [normalize value] else []
  end.

(* ================================================================== *)
(** * matcher_engine.py: field similarity *)
(* ================================================================== *)

Local Open Scope Q_scope.

(** scikit-learn's vectorizer.  [tfidf_best] is the slow path of
    [field_similarity]: for the corpus [cands ++ [q]] under
    [TfidfVectorizer(analyzer='char', ngram_range=(2, 4))], the largest
    cosine between the query row and a candidate row, and [0] when
    [fit_transform] raises [ValueError]. *)
Class Vectorizer := {
  tfidf_best : str -> list str -> Q;
  (** The [try] block of [calculate_tfidf_similarity] in matcher.py: the
      cosines of the query against each candidate under
      [TfidfVectorizer(analyzer='char', ngram_range=(1, 3), max_features=1000)],
      and zeros when the vectorizer raises. *)
  tfidf_cosines : str -> list str -> list Q
}.

Definition is_nil {A} (l : list A) : bool :=
  match l with [] => true | _ => false end.

(** [field_similarity], the computation behind [_tfidf_cache]. *)
Definition field_similarity `{Vectorizer} (query : str) (candidates : list str) : Q :=
  let q := normalize query in
  let cands := List.map normalize (List.filter truthy candidates) in
  let cands := List.filter truthy cands in
  if negb (truthy q) || is_nil cands then 0
  else if mem_str q cands then 1
  else if existsb (fun c => str_in q c || str_in c q) cands then 0.95
  else tfidf_best q cands.

(** [sorted(valid_candidates)]: strings in code-point order. *)
Fixpoint str_leb (a b : str) : bool :=
  match a, b with
  | [], _ => true
  | _ :: _, [] => false
  | x :: a', y :: b' => (x <? y)%N || ((x =? y)%N && str_leb a' b')
  end.

Fixpoint insert_str (x : str) (l : list str) : list str :=
  match l with
  | [] => [x]
  | y :: r => if str_leb x y then x :: y :: r else y :: insert_str x r
  end.

Definition sorted_strs (l : list str) : list str := fold_right insert_str [] l.

(** [field_similarity] as the source has it, with [_tfidf_cache]
    threaded.  Every candidate of the model is a string, so the filter
    on [None] keeps them all. *)
Definition field_similarity_cached `{Vectorizer} (query : str) (candidates : list str)
    (c : LRUCache (str * list str) Q) : Q * LRUCache (str * list str) Q :=
  let valid_candidates := candidates in
  let cache_key := (query, sorted_strs valid_candidates) in
  match lru_get cache_key c with
  | (Some cached, c') => (cached, c')
  | (None, c') =>
      let result := field_similarity query valid_candidates in
      (result, lru_set cache_key result c')
  end.

(** A vectorizer under which no two strings share an n-gram; it stands
    in for scikit-learn where a concrete run is evaluated. *)
Definition no_overlap : Vectorizer :=
  {| tfidf_best := fun _ _ => 0;
     tfidf_cosines := fun _ cands => List.map (fun _ => 0) cands |}.

(** [detect_location_from_name]. *)
Fixpoint detect_location_in (n : str) (room_aliases : AliasMap) : str :=
  match room_aliases with
  | [] => []
  | (room_code, aliases) :: rest =>
      if truthy (normalize room_code) && str_in (normalize room_code) n then room_code
      else if existsb (fun a => truthy (normalize a) && str_in (normalize a) n) aliases
           then room_code
           else detect_location_in n rest
  end.

Definition detect_location_from_name (name_q : str) (room_aliases : AliasMap) : str :=
  let n := normalize name_q in
  if negb (truthy n) then [] else detect_location_in n room_aliases.

(* ================================================================== *)
(** * matcher_engine.py: the multi-field scorer *)
(* ================================================================== *)

(** Results of code that can raise. *)
Inductive result (A : Type) : Type :=
| Ok (a : A)
| Raise (exc : string).
Arguments Ok {A} a.
Arguments Raise {A} exc.

Definition bind {A B} (m : result A) (k : A -> result B) : result B :=
  match m with
  | Ok a => k a
  | Raise e => Raise e
  end.

Notation "'let*' x ':=' m 'in' k" := (bind m (fun x => k))
  (at level 10, x name, m at level 100, k at level 200).

(** [cfg['thresholds']]: each threshold is read with [TH.get(key, default)]. *)
Record Thresholds := {
  th_floor : option Q;
  th_room : option Q;
  th_type : option Q;
  th_name : option Q
}.

(** [cfg['weights']]: each weight is read with [W[key]], which raises
    [KeyError] when the key is missing. *)
Record Weights := {
  w_F : option Q;
  w_R : option Q;
  w_N : option Q;
  w_T : option Q
}.

Record Config := {
  thresholds : option Thresholds;
  weights : option Weights;
  topK : option Z;
  disambiguationGap : option Q
}.

Definition default_config : Config :=
  {| thresholds := None; weights := None; topK := None; disambiguationGap := None |}.

Definition default_thresholds : Thresholds :=
  {| th_floor := Some 0.7; th_room := Some 0.7; th_type := Some 0.65; th_name := Some 0.8 |}.

Definition default_weights : Weights :=
  {| w_F := Some 0.15; w_R := Some 0.40; w_N := Some 0.30; w_T := Some 0.15 |}.

(** [d.get(key, default)] and [d[key]] on the optional fields. *)
Definition get_or {A} (o : option A) (default : A) : A :=
  match o with Some a => a | None => default end.

Definition subscript {A} (o : option A) (key : string) : result A :=
  match o with Some a => Ok a | None => Raise ("KeyError: " ++ key)%string end.

(** [x >= y] on scores. *)
Definition Qge_bool (x y : Q) : bool := Qle_bool y x.

Record FieldEv := { text : str; score : Q }.

Record Evidence := {
  ev_floor : FieldEv;
  ev_room : FieldEv;
  ev_device_name : FieldEv;
  ev_device_type : FieldEv
}.

(** The four field scores and the intermediate values of
    [compute_scores_for_device], up to the threshold check. *)
Record Scored := {
  floor_q : str;
  room_q : str;
  name_q : str;
  type_q : str;
  floor_score : Q;
  room_score : Q;
  name_score : Q;
  type_score : Q;
  location_bonus : Q;
  is_generic : bool
}.

Definition field_scores `{Vectorizer} (indices : AliasIndices)
    (dev e : Obj) (aliases : Aliases) : Scored :=
  (* query fields *)
  let floor_q := get_primary_field dev Floor in
  let room_q := get_primary_field dev Room in
  let name_q := get_primary_field dev Name in
  let type_q := get_primary_field dev Type_ in
  let type_q :=
    if negb (truthy type_q) && truthy (service dev)
    then split_dot_head (service dev) else type_q in
  (* entity fields *)
  let e_floor_cands := extract_field_candidates e Floor in
  let e_room_cands := extract_field_candidates e Room in
  let e_name_cands := extract_field_candidates e Name in
  let e_type_cands := extract_field_candidates e Type_ in
  (* similarities *)
  let floor_score := if truthy floor_q then field_similarity floor_q e_floor_cands else 0 in
  let room_score := if truthy room_q then field_similarity room_q e_room_cands else 0 in
  let name_score := if truthy name_q then field_similarity name_q e_name_cands else 0 in
  (* a type implied by the name *)
  let type_q :=
    if truthy name_q && negb (truthy type_q) then
      let name_norm := normalize name_q in
      if str_in (py "temperature") name_norm || str_in (py "wendu") name_norm
         || str_in (py "温度") name_q
      then py "temperature"
      else if str_in (py "humidity") name_norm || str_in (py "shidu") name_norm
              || str_in (py "湿度") name_q
      then py "humidity"
      else type_q
    else type_q in
  (* type similarity through the alias index *)
  let type_cands :=
    if truthy type_q then expand_alias_fast indices type_q "device_types" else [] in
  let e_types_norm :=
    flat_map (fun c => expand_alias_fast indices c "device_types") e_type_cands in
  let type_score :=
    field_similarity
      (if is_nil type_cands then type_q else join_space type_cands)
      (if is_nil e_types_norm then e_type_cands else [join_space e_types_norm]) in
  (* bonus for a room named inside the device name *)
  let location_bonus :=
    if truthy name_q then
      let extracted_room := detect_location_from_name name_q (rooms aliases) in
      if truthy extracted_room then
        let entity_room_norm := normalize (get_primary_field e Room) in
        if truthy (normalize extracted_room)
           && str_eqb (normalize extracted_room) entity_room_norm
        then 0.4 else 0
      else 0
    else 0 in
  let is_generic :=
    if truthy name_q then mem_str (normalize name_q) GENERIC_NAMES else false in
  {| floor_q := floor_q; room_q := room_q; name_q := name_q; type_q := type_q;
     floor_score := floor_score; room_score := room_score;
     name_score := name_score; type_score := type_score;
     location_bonus := location_bonus; is_generic := is_generic |}.

Definition evidence_of (s : Scored) : Evidence :=
  {| ev_floor := {| text := floor_q s; score := floor_score s |};
     ev_room := {| text := room_q s; score := room_score s |};
     ev_device_name := {| text := name_q s; score := name_score s |};
     ev_device_type := {| text := type_q s; score := type_score s |} |}.

(** The four gates of the threshold check. *)
Definition floor_pass (cfg : Config) (s : Scored) : bool :=
  let TH := get_or (thresholds cfg) default_thresholds in
  if negb (truthy (floor_q s)) then true
  else Qge_bool (floor_score s) (get_or (th_floor TH) 0.7).

Definition room_pass (cfg : Config) (s : Scored) : bool :=
  if truthy (room_q s) then Qge_bool (room_score s) 0.98 else true.

Definition type_pass (cfg : Config) (s : Scored) : bool :=
  let TH := get_or (thresholds cfg) default_thresholds in
  if negb (truthy (type_q s)) then true
  else Qge_bool (type_score s) (get_or (th_type TH) 0.65).

Definition name_pass (cfg : Config) (s : Scored) : bool :=
  let TH := get_or (thresholds cfg) default_thresholds in
  if negb (truthy (name_q s)) || is_generic s then true
  else Qge_bool (name_score s) (get_or (th_name TH) 0.8).

Definition all_pass (cfg : Config) (s : Scored) : bool :=
  floor_pass cfg s && room_pass cfg s && type_pass cfg s && name_pass cfg s.

(** [compute_scores_for_device]. *)
Definition compute_scores_for_device `{Vectorizer} (indices : AliasIndices)
    (dev e : Obj) (aliases : Aliases) (cfg : Config) : result (Q * Evidence) :=
  let s := field_scores indices dev e aliases in
  if negb (all_pass cfg s) then Ok (-1, evidence_of s)
  else
    let W := get_or (weights cfg) default_weights in
    let name_score_final := if is_generic s then 0.85 else name_score s in
    let floor_score_weight := if truthy (floor_q s) then floor_score s else 0.90 in
    let* wF := subscript (w_F W) "F" in
    let* wR := subscript (w_R W) "R" in
    let* wN := subscript (w_N W) "N" in
    let* wT := subscript (w_T W) "T" in
    let base := wF * floor_score_weight + wR * room_score s
                + wN * name_score_final + wT * type_score s in
    let base := base + location_bonus s in
    Ok (base, evidence_of s).

(* ================================================================== *)
(** * matcher_engine.py: suggestions, indexes, filtering, ranking *)
(* ================================================================== *)

(** [list.sort(key=..., reverse=True)]: the stable sort into
    non-increasing key order.  An element is inserted behind the elements
    with a strictly larger key and in front of the later elements with an
    equal key. *)
Section Sorting.
Context {A : Type} (key : A -> Q).

Fixpoint insert_desc (x : A) (l : list A) : list A :=
  match l with
  | [] => [x]
  | y :: r => if Qle_bool (key y) (key x) then x :: y :: r else y :: insert_desc x r
  end.

Fixpoint sort_desc (l : list A) : list A :=
  match l with
  | [] => []
  | x :: r => insert_desc x (sort_desc r)
  end.
End Sorting.

(** [l[:k]] for an integer [k] of either sign. *)
Definition slice_to {A} (l : list A) (k : Z) : list A :=
  if (0 <=? k)%Z then firstn (Z.to_nat k) l
  else firstn (Z.to_nat (Z.of_nat (length l) + k)) l.

(** [round(x, 3)]: to the nearest multiple of 1/1000, ties to even. *)
Definition round_half_even (y : Q) : Z :=
  let n := Qfloor y in
  match Qcompare (y - inject_Z n) (1 # 2) with
  | Lt => n
  | Gt => (n + 1)%Z
  | Eq => if Z.even n then n else (n + 1)%Z
  end.

Definition round3 (x : Q) : Q := inject_Z (round_half_even (x * 1000)) / 1000.

Record Suggestion := {
  s_entity_id : str;
  s_device_name : str;
  s_room : str;
  s_floor : str;
  reason_score : Q
}.

(** The local [norm] of [loose_suggestions]. *)
Definition loose_norm (text : str) : str :=
  if negb (truthy text) then []
  else strip (replace_char 0x20 (replace_char 0x2D (replace_char 0x5F (lower text)))).

(** One entity of the pool stays in the scope of the request's floor and
    room (the body of the filtering loop of [loose_suggestions]). *)
Definition in_scope (request_floor_norm request_room_norm : str) (e : Obj) : bool :=
  let e_floor_norm := loose_norm (get_primary_field e Floor) in
  let e_room_norm := loose_norm (get_primary_field e Room) in
  let floor_match :=
    str_in request_floor_norm e_floor_norm || str_in e_floor_norm request_floor_norm in
  if truthy request_floor_norm && (negb (truthy e_floor_norm) || negb floor_match)
  then false
  else if truthy request_room_norm then
    if negb (truthy e_room_norm)
    then negb (truthy request_floor_norm && negb floor_match)
    else str_in request_room_norm e_room_norm || str_in e_room_norm request_room_norm
  else true.

(** The ungated score of [loose_suggestions]. *)
Definition loose_score `{Vectorizer} (dev e : Obj) : Q :=
  0.15 * field_similarity (get_primary_field dev Floor) (extract_field_candidates e Floor)
  + 0.40 * field_similarity (get_primary_field dev Room) (extract_field_candidates e Room)
  + 0.30 * field_similarity (get_primary_field dev Name) (extract_field_candidates e Name)
  + 0.15 * field_similarity (get_primary_field dev Type_) (extract_field_candidates e Type_).

Definition suggestion_of (it : Obj * Q) : Suggestion :=
  {| s_entity_id := entity_id (fst it);
     s_device_name := get_primary_field (fst it) Name;
     s_room := get_primary_field (fst it) Room;
     s_floor := get_primary_field (fst it) Floor;
     reason_score := round3 (snd it) |}.

(** [loose_suggestions]. *)
Definition loose_suggestions `{Vectorizer} (dev : Obj) (pool : list Obj) (cfg : Config)
    : list Suggestion :=
  let request_floor_norm := loose_norm (get_primary_field dev Floor) in
  let request_room_norm := loose_norm (get_primary_field dev Room) in
  let filtered_pool := List.filter (in_scope request_floor_norm request_room_norm) pool in
  if truthy request_floor_norm && is_nil filtered_pool then []
  else
    let items := List.map (fun e => (e, loose_score dev e)) filtered_pool in
    let items := sort_desc snd items in
    List.map suggestion_of (firstn 3 items).

(** [build_type_index]. *)
Abbreviation TypeIndex := (gmap str (list Obj)).

Definition index_entity (index : TypeIndex) (e : Obj) : TypeIndex :=
  let domain := if truthy (entity_id e) then split_dot_head (entity_id e) else [] in
  let index :=
    if truthy domain then
      let domain_normalized := normalize domain in
      if truthy domain_normalized
      then <[domain_normalized := get_or (index !! domain_normalized) [] ++ [e]]> index
      else index
    else index in
  let device_type := device_type e in
  if truthy device_type then
    let type_normalized := normalize device_type in
    if truthy type_normalized && negb (str_eqb type_normalized (normalize domain)) then
      let l := get_or (index !! type_normalized) [] in
      if bool_decide (e ∈ l) then <[type_normalized := l]> index
      else <[type_normalized := l ++ [e]]> index
    else index
  else index.

Definition build_type_index (entities : list Obj) : TypeIndex :=
  fold_left index_entity entities ∅.

(** [filter_candidates]. *)
Definition type_pool (dev : Obj) (entities : list Obj) (type_index : TypeIndex)
    : list Obj :=
  let type_q := get_primary_field dev Type_ in
  let service_domain :=
    if truthy (service dev) then split_dot_head (service dev) else [] in
  if truthy type_q then
    let pool := get_or (type_index !! normalize type_q) [] in
    let pool :=
      if is_nil pool && truthy service_domain
      then get_or (type_index !! normalize service_domain) [] else pool in
    if is_nil pool then entities else pool
  else if truthy service_domain then
    let pool := get_or (type_index !! normalize service_domain) [] in
    if is_nil pool then entities else pool
  else entities.

(** One narrowing stage: keep the entities whose normalised primary
    [field] contains the normalised request value, unless none does. *)
Definition narrow (limit : nat) (field : Field) (dev : Obj) (pool : list Obj)
    : list Obj :=
  if (limit <? length pool)%nat then
    let q := get_primary_field dev field in
    if truthy q then
      let q_norm := normalize q in
      let filtered :=
        List.filter (fun e => str_in q_norm (normalize (get_primary_field e field))) pool in
      if is_nil filtered then pool else filtered
    else pool
  else pool.

Definition filter_candidates (dev : Obj) (entities : list Obj) (type_index : TypeIndex)
    : list Obj :=
  let pool := type_pool dev entities type_index in
  let pool := narrow 50 Room dev pool in
  let pool := narrow 30 Floor dev pool in
  pool.

(* ================================================================== *)
(** * matcher_engine.py: the request orchestrator *)
(* ================================================================== *)

(** The canonical content of a request batch, after [process] has
    recognised the envelope of the payload. *)
Record Payload := {
  intent_devices : list Obj;
  entities : list Obj;
  user_query : str;
  intent_name : str;
  aliases : Aliases;
  cfg : Config
}.

Record ScoredItem := { si_e : Obj; si_score : Q; si_ev : Evidence }.

Record Target := {
  t_entity_id : str;
  t_device_type : str;
  t_device_name : str;
  t_floor : str;
  t_room : str;
  t_score : Q;
  t_matched : Evidence
}.

Record Request := {
  rq_floor : str;
  rq_room : str;
  rq_device_name : str;
  rq_device_type : str;
  rq_service : str
}.

Record Action := {
  request : Request;
  targets : list Target;
  disambiguation_required : bool;
  warnings : list str;
  suggestions_if_empty : list Suggestion
}.

Record MatchedDevice := { md_entity_id : str; md_service : str }.

Record Output := {
  intent : str;
  user_input : str;
  actions : list Action;
  matched_devices : list MatchedDevice
}.

(** The scoring loop: candidates scored with the sentinel are dropped. *)
Fixpoint score_pool `{Vectorizer} (indices : AliasIndices) (dev : Obj)
    (pool : list Obj) (aliases : Aliases) (cfg : Config) : result (list ScoredItem) :=
  match pool with
  | [] => Ok []
  | e :: rest =>
      let* sev := compute_scores_for_device indices dev e aliases cfg in
      let* scored := score_pool indices dev rest aliases cfg in
      Ok (if Qge_bool (fst sev) 0
          then {| si_e := e; si_score := fst sev; si_ev := snd sev |} :: scored
          else scored)
  end.

Definition target_of (it : ScoredItem) : Target :=
  {| t_entity_id := entity_id (si_e it);
     t_device_type := lower (device_type (si_e it));
     t_device_name := get_primary_field (si_e it) Name;
     t_floor := get_primary_field (si_e it) Floor;
     t_room := get_primary_field (si_e it) Room;
     t_score := round3 (si_score it);
     t_matched := si_ev it |}.

(** [len(top) >= 2 and (top[0]['score'] - top[1]['score']) < gap]. *)
Definition needs_disambiguation (top : list ScoredItem) (gap : Q) : bool :=
  match top with
  | a :: b :: _ => negb (Qle_bool gap (si_score a - si_score b))
  | _ => false
  end.

(** The ranked candidates of one request: [top] in the body of the loop
    of [process]. *)
Definition rank `{Vectorizer} (indices : AliasIndices) (dev : Obj) (pool : list Obj)
    (aliases : Aliases) (cfg : Config) : result (list ScoredItem) :=
  let* scored := score_pool indices dev pool aliases cfg in
  Ok (slice_to (sort_desc si_score scored) (get_or (topK cfg) 100%Z)).

(** The body of the loop of [process] for one device request. *)
Definition process_device `{Vectorizer} (indices : AliasIndices) (p : Payload)
    (type_index : TypeIndex) (dev : Obj) : result (Action * list MatchedDevice) :=
  let pool := filter_candidates dev (entities p) type_index in
  let* top := rank indices dev pool (aliases p) (cfg p) in
  let suggestions := if is_nil top then loose_suggestions dev pool (cfg p) else [] in
  let matched :=
    List.map (fun it => {| md_entity_id := entity_id (si_e it);
                           md_service := service dev |}) top in
  Ok ({| request := {| rq_floor := get_primary_field dev Floor;
                       rq_room := get_primary_field dev Room;
                       rq_device_name := get_primary_field dev Name;
                       rq_device_type := get_primary_field dev Type_;
                       rq_service := service dev |};
         targets := List.map target_of top;
         disambiguation_required :=
           needs_disambiguation top (get_or (disambiguationGap (cfg p)) 0.08);
         warnings := [];
         suggestions_if_empty := suggestions |},
      matched).

Fixpoint process_devices `{Vectorizer} (indices : AliasIndices) (p : Payload)
    (type_index : TypeIndex) (devs : list Obj) (out : Output) : result Output :=
  match devs with
  | [] => Ok out
  | dev :: rest =>
      let* am := process_device indices p type_index dev in
      process_devices indices p type_index rest
        {| intent := intent out; user_input := user_input out;
           actions := actions out ++ [fst am];
           matched_devices := matched_devices out ++ snd am |}
  end.

(** The index [process] stores in the global [_alias_indices]. *)
Definition fresh_alias_indices (a : Aliases) : AliasIndices :=
  <["rooms"%string := build_alias_reverse_index (rooms a)]>
    (<["floors"%string := build_alias_reverse_index (floors a)]>
       (<["device_types"%string := build_alias_reverse_index (device_types a)]> ∅)).

(** [process]: the state is the global [_alias_indices] found on entry
    and left on exit. *)
Definition process `{Vectorizer} (p : Payload) (alias_indices : AliasIndices)
    : result Output * AliasIndices :=
  let alias_indices := fresh_alias_indices (aliases p) in
  let type_index := build_type_index (entities p) in
  let out := {| intent := intent_name p; user_input := user_query p;
                actions := []; matched_devices := [] |} in
  (process_devices alias_indices p type_index (intent_devices p) out, alias_indices).

(** A long-lived service: the state after a history of batches. *)
Definition run_batches `{Vectorizer} (history : list Payload) (init : AliasIndices)
    : AliasIndices :=
  fold_left (fun st p => snd (process p st)) history init.

(* ================================================================== *)
(** * matcher_engine.py: input validation and the entry point *)
(* ================================================================== *)

(** Parsed JSON.  An object is the list of its members. *)
#[warnings="-register-all"]
Inductive json : Type :=
| JNull
| JBool (b : bool)
| JNum (q : Q)
| JStr (s : str)
| JList (items : list json)
| JObj (members : list (string * json)).

Definition is_dict (v : json) : bool := match v with JObj _ => true | _ => false end.
Definition is_list (v : json) : bool := match v with JList _ => true | _ => false end.

Fixpoint assoc (key : string) (members : list (string * json)) : option json :=
  match members with
  | [] => None
  | (k, v) :: rest => if String.eqb k key then Some v else assoc key rest
  end.

(** [key in d] and [d.get(key, default)] for a dictionary [d]. *)
Definition has_key (key : string) (d : json) : bool :=
  match d with
  | JObj members => match assoc key members with Some _ => true | None => false end
  | _ => false
  end.

Definition dict_get (d : json) (key : string) (default : json) : json :=
  match d with
  | JObj members => get_or (assoc key members) default
  | _ => default
  end.

Local Open Scope string_scope.

(** [validate_input]. *)
Definition validate_input (payload : json) : bool * string :=
  if negb (is_dict payload) then (false, "Payload must be a dictionary")
  else if has_key "intention_data" payload || has_key "entities_data" payload then
    let intention_obj := dict_get payload "intention_data" (JObj []) in
    if negb (is_dict intention_obj) then (false, "'intention_data' must be a dictionary")
    else
      let intention_data := dict_get intention_obj "data" (JObj []) in
      if negb (is_dict intention_data)
      then (false, "'intention_data.data' must be a dictionary")
      else if negb (has_key "devices" intention_data)
      then (false, "Missing 'intention_data.data.devices' field")
      else if negb (is_list (dict_get intention_data "devices" JNull))
      then (false, "'intention_data.data.devices' must be a list")
      else
        let entities_obj := dict_get payload "entities_data" (JObj []) in
        if negb (is_dict entities_obj) then (false, "'entities_data' must be a dictionary")
        else
          let entities_data := dict_get entities_obj "data" (JObj []) in
          if negb (is_dict entities_data)
          then (false, "'entities_data.data' must be a dictionary")
          else if negb (has_key "entities" entities_data)
          then (false, "Missing 'entities_data.data.entities' field")
          else if negb (is_list (dict_get entities_data "entities" JNull))
          then (false, "'entities_data.data.entities' must be a list")
          else (true, "")
  else if negb (has_key "entities" payload) then (false, "Missing 'entities' field")
  else if negb (is_list (dict_get payload "entities" JNull))
  then (false, "'entities' must be a list")
  else if negb (has_key "intent_devices" payload)
  then (false, "Missing 'intent_devices' field")
  else if negb (is_list (dict_get payload "intent_devices" JNull))
  then (false, "'intent_devices' must be a list")
  else (true, "").

(** What [json.loads] makes of a text: a value; the [JSONDecodeError]
    that [main] catches; or another exception ([RecursionError] on deep
    nesting, [ValueError] on an oversized number), which [main] does not
    catch. *)
Inductive Loaded : Type :=
| Value (payload : json)
| DecodeError
| OtherError (exc : string).

(** What [main] prints: one JSON object per [print]. *)
Inductive Printed (R : Type) : Type :=
| PrintInvalidJSON
| PrintError (error : string)
| PrintException (error : string)
| PrintResult (r : R).
Arguments PrintInvalidJSON {R}.
Arguments PrintError {R} error.
Arguments PrintException {R} error.
Arguments PrintResult {R} r.

Section Main.
(** [process] applied to the parsed payload, with whatever it prints
    as its result type and the exceptions it raises. *)
Context {R : Type} (run_process : json -> result R).

(** The handling of one request text: the one-shot mode of [main] and
    one line of the daemon loop.  On [OtherError] nothing is printed:
    the exception leaves [main]. *)
Definition handle (parsed : Loaded) : list (Printed R) :=
  match parsed with
  | DecodeError => [PrintInvalidJSON]
  | OtherError _ => []
  | Value payload =>
      let '(valid, error_msg) := validate_input payload in
      if negb valid then [PrintError error_msg]
      else
        match run_process payload with
        | Ok r => [PrintResult r]
        | Raise e => [PrintException e]
        end
  end.

Definition main_one_shot (parsed : Loaded) : list (Printed R) := handle parsed.

(** The daemon loop over the non-blank lines of the input: it ends at
    the first line on which [json.loads] raises an exception that is not
    caught, and at the end of the input. *)
Fixpoint main_daemon (lines : list Loaded) : list (Printed R) :=
  match lines with
  | [] => []
  | OtherError _ :: _ => []
  | line :: rest => handle line ++ main_daemon rest
  end.
End Main.

(** A line on which [json.loads] returns, or raises [JSONDecodeError]. *)
Definition loads (line : Loaded) : bool :=
  match line with OtherError _ => false | _ => true end.

(** ** Where the validated sequences live in a payload *)

Fixpoint path_get (v : json) (path : list string) : option json :=
  match path with
  | [] => Some v
  | key :: rest =>
      match v with
      | JObj members =>
          match assoc key members with
          | Some w => path_get w rest
          | None => None
          end
      | _ => None
      end
  end.

(** The wrapped envelope is recognised by either of its two keys. *)
Definition is_wrapped (payload : json) : bool :=
  has_key "intention_data" payload || has_key "entities_data" payload.

(** The required device sequence and entity sequence of a payload;
    [None] when it is missing. *)
Definition device_sequence (payload : json) : option json :=
  if is_wrapped payload then path_get payload ["intention_data"; "data"; "devices"]
  else path_get payload ["intent_devices"].

Definition entity_sequence (payload : json) : option json :=
  if is_wrapped payload then path_get payload ["entities_data"; "data"; "entities"]
  else path_get payload ["entities"].

Definition missing_or_not_list (seq : option json) : Prop :=
  match seq with
  | None => True
  | Some v => is_list v = false
  end.

Local Close Scope string_scope.

(* ================================================================== *)
(** * matcher.py: the first-generation scorer *)
(* ================================================================== *)

Module Matcher.

(** Configuration constants. *)
Definition WEIGHTS_F : Q := 0.15.
Definition WEIGHTS_R : Q := 0.40.
Definition WEIGHTS_N : Q := 0.30.
Definition WEIGHTS_T : Q := 0.15.

Definition THRESHOLDS_floor : Q := 0.70.
Definition THRESHOLDS_room : Q := 0.70.
Definition THRESHOLDS_type : Q := 0.65.
Definition THRESHOLDS_name : Q := 0.45.

Definition BEST_K : nat := 100.
Definition DISAMBIG_GAP : Q := 0.08.
Definition LOCATION_BONUS : Q := 0.4.

Definition GENERIC_DEVICE_NAMES : list str := List.map py
  [ "light"; "lights"; "lamp"; "lamps"; "deng"; "灯"; "灯光"; "灯具"; "照明";
    "switch"; "switches"; "kaiguan"; "开关";
    "socket"; "sockets"; "chazuo"; "插座"; "outlet"; "plug";
    "ac"; "aircon"; "kongtiao"; "空调"; "冷气"; "climate";
    "fan"; "fans"; "fengshan"; "风扇";
    "cover"; "covers"; "chuanglian"; "窗帘"; "curtain"; "blind";
    "lock"; "locks"; "suo"; "锁"; "门锁";
    "camera"; "cameras"; "cam"; "shexiangtou"; "摄像头"; "监控";
    "sensor"; "sensors"; "chuanganqi"; "传感器";
    "temperature"; "temp"; "wendu"; "温度"; "temperaturesensor"; "温度传感器";
    "humidity"; "shidu"; "湿度"; "湿度传感器";
    "motion"; "renti"; "人体" ]%string.

Definition table (rows : list (string * list string)) : AliasMap :=
  List.map (fun '(k, l) => (py k, List.map py l)) rows.

Definition FLOOR_ALIASES : AliasMap := table
  [ ("1", ["一楼"; "1楼"; "yilou"; "first"; "firstfloor"; "first_floor"; "ground"]);
    ("2", ["二楼"; "2楼"; "erlou"; "second"; "secondfloor"; "second_floor"]);
    ("3", ["三楼"; "3楼"; "sanlou"; "third"; "thirdfloor"; "third_floor"]) ]%string.

(** The table as the module defines it (the LLM fallback may append
    aliases to it at run time). *)
Definition ROOM_ALIASES : AliasMap := table
  [ ("living_room", ["客厅"; "keting"; "living"; "livingroom"; "living_room"; "lounge"]);
    ("bedroom", ["卧室"; "woshi"; "bedroom"; "bed_room"]);
    ("master_bedroom", ["主卧"; "zhuwo"; "master"; "masterbedroom"; "master_bedroom"]);
    ("kitchen", ["厨房"; "chufang"; "kitchen"]);
    ("bathroom", ["浴室"; "卫生间"; "yushi"; "weishengjian"; "bathroom"; "washroom"]);
    ("study", ["书房"; "shufang"; "study"; "office"]);
    ("dining_room", ["餐厅"; "canting"; "dining"; "diningroom"; "dining_room"]);
    ("garage", ["车库"; "cheku"; "garage"]);
    ("garden", ["花园"; "后院"; "huayuan"; "houyuan"; "garden"; "backyard"; "yard"]);
    ("balcony", ["阳台"; "yangtai"; "balcony"]);
    ("entertainment", ["娱乐室"; "影音室"; "yuleshi"; "entertainment"; "tvroom"; "tv_room"]) ]%string.

Definition HA_DOMAIN_ALIASES : AliasMap := table
  [ ("light", ["light"; "lights"; "lamp"; "deng"; "灯"]);
    ("switch", ["switch"; "kaiguan"; "开关"; "socket"; "chazuo"; "插座"]);
    ("climate", ["climate"; "ac"; "aircon"; "kongtiao"; "空调"]);
    ("fan", ["fan"; "fengshan"; "风扇"]);
    ("cover", ["cover"; "chuanglian"; "窗帘"]);
    ("camera", ["camera"; "cam"; "shexiangtou"; "摄像头"]);
    ("sensor", ["sensor"; "chuanganqi"; "传感器"]);
    ("binary_sensor", ["binary_sensor"; "binarysensor"; "presence"; "存在"; "在家"]);
    ("occupancy", ["occupancy"; "occupied"; "占用"; "占用传感器"]);
    ("motion", ["motion"; "运动"; "运动传感器"; "人体传感器"]) ]%string.

(** [normalize_text]. *)
Definition normalize_text (text : str) : str :=
  if negb (truthy text) then []
  else
    let text := lower text in
    let text := re_sub_space text in
    let text := re_sub_dash text in
    let text := re_sub_keep text in
    strip text.

(** [fuzzy_match]. *)
Definition fuzzy_match (a b : str) : bool :=
  if negb (truthy a) || negb (truthy b) then false
  else str_eqb (normalize_text a) (normalize_text b).

(** The lookup loop shared by the three alias normalisers: the first
    key whose own form [key_form key], or one of whose normalised
    aliases, equals [normalized]. *)
Fixpoint find_alias (key_form : str -> str) (normalized : str) (tbl : AliasMap)
    : option str :=
  match tbl with
  | [] => None
  | (key, aliases) :: rest =>
      if str_eqb normalized (key_form key) then Some key
      else if existsb (fun alias => str_eqb normalized (normalize_text alias)) aliases
           then Some key
           else find_alias key_form normalized rest
  end.

(** [str.isdigit] on a normalised string. *)
Definition isdigit (s : str) : bool := truthy s && forallb is_digit s.

(** [normalize_floor]. *)
Definition normalize_floor (input_text : str) : str :=
  if negb (truthy input_text) then []
  else
    let normalized := normalize_text input_text in
    if isdigit normalized then normalized
    else get_or (find_alias (fun level => level) normalized FLOOR_ALIASES) normalized.

(** [normalize_room]. *)
Definition normalize_room (input_text : str) : str :=
  if negb (truthy input_text) then []
  else
    let normalized := normalize_text input_text in
    get_or (find_alias normalize_text normalized ROOM_ALIASES) normalized.

(** [normalize_domain]. *)
Definition normalize_domain (input_text : str) : str :=
  if negb (truthy input_text) then []
  else
    let normalized := normalize_text input_text in
    get_or (find_alias normalize_text normalized HA_DOMAIN_ALIASES) (lower input_text).

(** [is_generic_device_name]. *)
Definition is_generic_device_name (name : str) : bool :=
  if negb (truthy name) then false
  else mem_str (normalize_text name) GENERIC_DEVICE_NAMES.

(** [calculate_tfidf_similarity]. *)
Definition calculate_tfidf_similarity `{Vectorizer} (query : str) (candidates : list str)
    : list Q :=
  if negb (truthy query) || is_nil candidates then List.map (fun _ => 0) candidates
  else if forallb (fun c => negb (truthy c)) candidates
  then List.map (fun _ => 0) candidates
  else tfidf_cosines query candidates.

(** [np.argmax]: the first position of the largest value. *)
Fixpoint argmax_from (best_i : nat) (best : Q) (i : nat) (l : list Q) : nat :=
  match l with
  | [] => best_i
  | x :: r =>
      if Qle_bool x best then argmax_from best_i best (S i) r
      else argmax_from i x (S i) r
  end.

Definition argmax (l : list Q) : nat :=
  match l with
  | [] => O
  | x :: r => argmax_from O x 1%nat r
  end.

Record Sim := { sim_score : Q; sim_hit : str }.

(** [slot_similarity]. *)
Definition slot_similarity `{Vectorizer} (query : str) (candidates : list str) : Sim :=
  let q := normalize_text query in
  if negb (truthy q) then {| sim_score := 0; sim_hit := [] |}
  else
    let valid_candidates := List.filter truthy candidates in
    if is_nil valid_candidates then {| sim_score := 0; sim_hit := [] |}
    else
      match List.find (fun cand => truthy (normalize_text cand)
                                     && str_eqb q (normalize_text cand))
                      valid_candidates with
      | Some cand => {| sim_score := 1; sim_hit := cand |}
      | None =>
          let candidate_texts := List.map normalize_text valid_candidates in
          let similarities := calculate_tfidf_similarity q candidate_texts in
          let best_idx := argmax similarities in
          {| sim_score := nth best_idx similarities 0;
             sim_hit := nth best_idx valid_candidates [] |}
      end.

(** [extract_location_from_name]. *)
Fixpoint find_room_in (normalized_name : str) (tbl : AliasMap) : bool * str :=
  match tbl with
  | [] => (false, [])
  | (room_type, aliases) :: rest =>
      if str_in (normalize_text room_type) normalized_name then (true, room_type)
      else if existsb (fun alias => str_in (normalize_text alias) normalized_name) aliases
           then (true, room_type)
           else find_room_in normalized_name rest
  end.

Definition extract_location_from_name (device_name : str) : bool * str :=
  if negb (truthy device_name) then (false, [])
  else find_room_in (normalize_text device_name) ROOM_ALIASES.

(** [a or b or ...] on strings. *)
Definition or_else (a b : str) : str := if truthy a then a else b.

Record FieldEv := { text : str; hit : str; score : Q }.

Record Evidence := {
  ev_floor : FieldEv;
  ev_room : FieldEv;
  ev_device_name : FieldEv;
  ev_device_type : FieldEv
}.

Record ScoreResult := { sr_score : Q; sr_ev : Evidence; sr_warnings : list str }.

(** The values [score_entity] computes before the scenario check. *)
Record Slots := {
  floor_q : str;
  room_q : str;
  name_q : str;
  type_q : str;
  floor_score : Q;
  room_score : Q;
  name_sim : Sim;
  type_score : Q;
  location_match_bonus : Q;
  norm_e_domain : str;
  norm_e_type : str;
  e_type : str
}.

Definition slots `{Vectorizer} (device entity : Obj) : Slots :=
  (* floor *)
  let floor_q :=
    or_else (floor_name_en device) (or_else (floor_type device) (floor_name device)) in
  let e_floor_name := floor_name entity in
  let e_floor_name_en := floor_name_en entity in
  let e_floor_type := floor_type entity in
  let e_level := level entity in
  let floor_score :=
    if truthy floor_q then
      if fuzzy_match floor_q e_floor_name || fuzzy_match floor_q e_floor_name_en
         || fuzzy_match floor_q e_floor_type || fuzzy_match floor_q e_level
      then 1
      else
        let norm_floor_q := normalize_floor floor_q in
        if str_eqb norm_floor_q (normalize_floor e_floor_name)
           || str_eqb norm_floor_q (normalize_floor e_floor_name_en)
           || str_eqb norm_floor_q (normalize_floor e_floor_type)
           || str_eqb norm_floor_q e_level
        then 1
        else sim_score (slot_similarity floor_q
                          [e_floor_name; e_floor_name_en; e_floor_type; e_level])
    else 0 in
  (* room *)
  let room_q :=
    or_else (room_name_en device) (or_else (room_type device) (room_name device)) in
  let e_room_name := room_name entity in
  let e_room_name_en := room_name_en entity in
  let e_room_type := room_type entity in
  let room_score :=
    if truthy room_q then
      if fuzzy_match room_q e_room_name || fuzzy_match room_q e_room_name_en
         || fuzzy_match room_q e_room_type
      then 1
      else
        let norm_room_q := normalize_room room_q in
        if str_eqb norm_room_q (normalize_room e_room_name)
           || str_eqb norm_room_q (normalize_room e_room_name_en)
           || str_eqb norm_room_q (normalize_room e_room_type)
        then 1
        else sim_score (slot_similarity room_q [e_room_name; e_room_name_en; e_room_type])
    else 0 in
  (* device name *)
  let name_q := or_else (device_name_en device) (device_name device) in
  let e_device_name := device_name entity in
  let e_friendly_name := or_else (attr_friendly_name entity) (friendly_name entity) in
  let name_sim := slot_similarity name_q [e_device_name; e_friendly_name] in
  (* a room named inside the device name *)
  let location_match_bonus :=
    if truthy name_q then
      let '(name_contains_location, extracted_location) :=
        extract_location_from_name name_q in
      if name_contains_location && truthy extracted_location then
        if str_eqb extracted_location (normalize_room e_room_name)
           || str_eqb extracted_location (normalize_room e_room_name_en)
           || str_eqb extracted_location (normalize_room e_room_type)
        then LOCATION_BONUS else 0
      else 0
    else 0 in
  (* device type *)
  let type_q := lower (device_type device) in
  let type_q :=
    if negb (truthy type_q) && truthy (service device)
    then lower (split_dot_head (service device)) else type_q in
  let e_type := lower (device_type entity) in
  let e_domain :=
    if truthy (entity_id entity) then split_dot_head (entity_id entity) else [] in
  let norm_type_q := normalize_domain type_q in
  let norm_e_domain := normalize_domain e_domain in
  let norm_e_type := normalize_domain e_type in
  let type_score :=
    if truthy norm_type_q then
      if str_eqb norm_type_q norm_e_type
         || str_eqb (normalize_text type_q) (normalize_text e_type)
      then 1
      else if mem_str norm_type_q [py "occupancy"; py "motion"] then 0
      else if str_eqb norm_type_q norm_e_domain || fuzzy_match type_q e_domain
              || fuzzy_match type_q e_type
      then 1
      else sim_score (slot_similarity norm_type_q [norm_e_domain; e_type])
    else 0 in
  {| floor_q := floor_q; room_q := room_q; name_q := name_q; type_q := type_q;
     floor_score := floor_score; room_score := room_score; name_sim := name_sim;
     type_score := type_score; location_match_bonus := location_match_bonus;
     norm_e_domain := norm_e_domain; norm_e_type := norm_e_type; e_type := e_type |}.

Definition evidence_of (entity : Obj) (s : Slots) : Evidence :=
  {| ev_floor :=
       {| text := floor_q s;
          hit := if Qge_bool (floor_score s) 0.9
                 then or_else (floor_name_en entity)
                        (or_else (floor_name entity) (floor_type entity))
                 else [];
          score := floor_score s |};
     ev_room :=
       {| text := room_q s;
          hit := if Qge_bool (room_score s) 0.9
                 then or_else (room_name_en entity)
                        (or_else (room_name entity) (room_type entity))
                 else [];
          score := room_score s |};
     ev_device_name :=
       {| text := name_q s; hit := sim_hit (name_sim s); score := sim_score (name_sim s) |};
     ev_device_type :=
       {| text := type_q s;
          hit := if Qge_bool (type_score s) 0.9
                 then or_else (norm_e_type s) (or_else (norm_e_domain s) (e_type s))
                 else [];
          score := type_score s |} |}.

(** The scenario check and the threshold check. *)
Definition is_all_devices (s : Slots) : bool :=
  negb (truthy (floor_q s)) && negb (truthy (room_q s)) && negb (truthy (name_q s))
  && truthy (type_q s).

Definition floor_pass (s : Slots) : bool :=
  if truthy (floor_q s) then Qge_bool (floor_score s) THRESHOLDS_floor else true.
Definition room_pass (s : Slots) : bool :=
  if truthy (room_q s) then Qge_bool (room_score s) THRESHOLDS_room else true.
Definition name_pass (s : Slots) : bool :=
  if truthy (name_q s) then Qge_bool (sim_score (name_sim s)) THRESHOLDS_name else true.
Definition type_pass (s : Slots) : bool :=
  if truthy (type_q s) then Qge_bool (type_score s) 0.90 else true.

Definition floor_only_mode (s : Slots) : bool :=
  truthy (floor_q s) && negb (truthy (room_q s)) && negb (truthy (name_q s))
  && truthy (type_q s).

(** The three gated modes: [true] when the pair is rejected. *)
Definition rejected (s : Slots) : bool :=
  let is_generic_name := is_generic_device_name (name_q s) in
  if floor_only_mode s then
    negb (floor_pass s) || negb (type_pass s) || negb (Qle_bool 0.95 (type_score s))
  else if truthy (name_q s) && negb is_generic_name then
    negb (room_pass s) || negb (name_pass s) || negb (type_pass s)
    || (truthy (floor_q s) && negb (floor_pass s))
  else
    negb (room_pass s) || negb (type_pass s)
    || (truthy (floor_q s) && negb (floor_pass s)).

(** The weighted sum, before any bonus. *)
Definition base_score (s : Slots) : Q :=
  let is_generic_name := is_generic_device_name (name_q s) in
  let floor_score_weight := if truthy (floor_q s) then floor_score s else 0.90 in
  let name_score_val :=
    if truthy (name_q s) && negb is_generic_name then sim_score (name_sim s) else 0.85 in
  WEIGHTS_F * floor_score_weight + WEIGHTS_R * room_score s
  + WEIGHTS_N * name_score_val + WEIGHTS_T * type_score s.

(** The exact-match bonuses. *)
Definition exact_bonus (s : Slots) : Q :=
  let is_generic_name := is_generic_device_name (name_q s) in
  (if truthy (room_q s) && Qge_bool (room_score s) 0.98 then 0.10 else 0)
  + (if truthy (name_q s) && negb is_generic_name
        && Qge_bool (sim_score (name_sim s)) 0.98 then 0.05 else 0)
  + (if truthy (floor_q s) && Qge_bool (floor_score s) 0.98 then 0.03 else 0).

(** The domain consistency check: the bonus and the warnings. *)
Definition domain_check (device entity : Obj) (s : Slots) : Q * list str :=
  if truthy (service device) then
    let svc_domain := lower (split_dot_head (service device)) in
    let norm_svc_domain := normalize_domain svc_domain in
    if truthy norm_svc_domain && truthy (norm_e_domain s) then
      if str_eqb norm_svc_domain (norm_e_domain s) then (0.03, [])
      else (0, [py "Service domain mismatch for " ++ entity_id entity])
    else (0, [])
  else (0, []).

(** [score_entity]. *)
Definition score_entity `{Vectorizer} (device entity : Obj) : ScoreResult :=
  let s := slots device entity in
  let ev := evidence_of entity s in
  if is_all_devices s then
    if truthy (type_q s) && Qge_bool (type_score s) 0.90
    then {| sr_score := 0.80; sr_ev := ev; sr_warnings := [] |}
    else {| sr_score := -1; sr_ev := ev; sr_warnings := [] |}
  else if rejected s then {| sr_score := -1; sr_ev := ev; sr_warnings := [] |}
  else
    let base_score := base_score s in
    let base_score := base_score + location_match_bonus s in
    let base_score := base_score + exact_bonus s in
    let '(bonus, warnings) := domain_check device entity s in
    {| sr_score := base_score + bonus; sr_ev := ev; sr_warnings := warnings |}.

(** The pool filter of [match_entities]. *)
Definition entity_filter (device e : Obj) : bool :=
  let svc_domain :=
    if truthy (service device) then lower (split_dot_head (service device))
    else if truthy (device_type device) then lower (device_type device)
    else [] in
  let norm_svc_domain := normalize_domain svc_domain in
  if negb (truthy norm_svc_domain) then true
  else
    let e_domain := if truthy (entity_id e) then split_dot_head (entity_id e) else [] in
    let e_type := lower (device_type e) in
    let norm_e_domain := normalize_domain e_domain in
    let norm_e_type := normalize_domain e_type in
    if str_eqb norm_svc_domain norm_e_type
       || str_eqb (normalize_text svc_domain) (normalize_text e_type)
    then true
    else if str_eqb norm_svc_domain norm_e_domain then
      if mem_str norm_svc_domain [py "occupancy"; py "motion"]
      then str_eqb norm_svc_domain norm_e_type
           || str_eqb (normalize_text svc_domain) (normalize_text e_type)
      else true
    else truthy (device_name device) || truthy (device_name_en device).

Record Ranked := { rk_entity : Obj; rk_score : Q; rk_ev : Evidence; rk_warnings : list str }.

(** The ranking of one device request in [match_entities]: the filtered
    pool, scored, without the rejected pairs, sorted, cut to [BEST_K]. *)
Definition top_k `{Vectorizer} (device : Obj) (entities : list Obj) : list Ranked :=
  let entity_pool := List.filter (entity_filter device) entities in
  let scored_entities :=
    flat_map (fun entity =>
                let r := score_entity device entity in
                if Qge_bool (sr_score r) 0
                then [{| rk_entity := entity; rk_score := sr_score r;
                         rk_ev := sr_ev r; rk_warnings := sr_warnings r |}]
                else [])
             entity_pool in
  firstn BEST_K (sort_desc rk_score scored_entities).

(** The warnings attached to the action of one request. *)
Definition all_warnings (top : list Ranked) : list str := flat_map rk_warnings top.

End Matcher.

(* ================================================================== *)
(** * Vocabulary of the statements *)
(* ================================================================== *)

Local Open Scope Q_scope.

(** The candidates that survive the two filters of [field_similarity]. *)
Definition live_candidates (candidates : list str) : list str :=
  List.filter truthy (List.map normalize (List.filter truthy candidates)).

(** The similarity cache is sound when every entry holds the value the
    computation gives on its key. *)
Definition tfidf_cache_sound `{Vectorizer} (c : LRUCache (str * list str) Q) : Prop :=
  cache_sound (fun k => field_similarity (fst k) (snd k)) c.

(** The normalised primary [field] of the entity contains the normalised
    request value ... *)
Definition field_contains (field : Field) (dev e : Obj) : bool :=
  str_in (normalize (get_primary_field dev field)) (normalize (get_primary_field e field)).

(** ... or is contained by it. *)
Definition field_contained_by (field : Field) (dev e : Obj) : bool :=
  str_in (normalize (get_primary_field e field)) (normalize (get_primary_field dev field)).

(** A request with only the given room, floor, name and type. *)
Definition request_of (floor room name type_ : string) : Obj :=
  {| entity_id := []; device_type := py type_; floor_name_en := []; floor_type := [];
     floor_name := py floor; level := []; room_name_en := []; room_type := [];
     room_name := py room; device_name := py name; device_name_en := [];
     attr_friendly_name := []; friendly_name := []; service := [] |}.

(** An entity with an identifier, a room and a floor. *)
Definition entity_of (id : str) (room floor : string) : Obj :=
  {| entity_id := id; device_type := []; floor_name_en := []; floor_type := [];
     floor_name := py floor; level := []; room_name_en := []; room_type := [];
     room_name := py room; device_name := []; device_name_en := [];
     attr_friendly_name := []; friendly_name := []; service := [] |}.

(** Fifty lamps of the living room, [light.laa] to [light.lbx]. *)
Definition fifty_living_lamps : list Obj :=
  List.map (fun i => entity_of (py "light.l" ++ [N.of_nat (97 + i / 26);
                                                  N.of_nat (97 + i mod 26)])
                       "living_room" "1")
           (seq 0 50).

(** A lamp whose room field is the shorter ["living"]. *)
Definition short_room_lamp : Obj := entity_of (py "light.short") "living" "1".

(** Non-increasing order of a list under a key. *)
Definition desc {A} (key : A -> Q) (x y : A) : Prop := key y <= key x.

(** A request whose only field is the floor ["-"], a lamp without any
    floor field, and the batch made of the two. *)
Definition dash_floor_request : Obj := request_of "-" "" "" "".
Definition no_floor_lamp : Obj := entity_of (py "light.hall") "hall" "".

Definition batch (devs ents : list Obj) (c : Config) : Payload :=
  {| intent_devices := devs; entities := ents; user_query := [];
     intent_name := py "Best Match"; aliases := no_aliases; cfg := c |}.

(** The type index only holds entities of the pool it was built from. *)
Definition index_within (index : TypeIndex) (ents : list Obj) : Prop :=
  forall k l e, index !! k = Some l -> In e l -> In e ents.

(** The two-lamp pool and the request of the end-to-end scenario:
    a living-room lamp and a bedroom lamp on floor 1; the request names
    the room [living_room] and the type [light]. *)
Definition living_lamp : Obj := entity_of (py "light.living_lamp") "living_room" "1".
Definition bedroom_lamp : Obj := entity_of (py "light.bedroom_lamp") "bedroom" "1".
Definition scenario_request : Obj := request_of "" "living_room" "" "light".
Definition scenario_batch : Payload :=
  batch [scenario_request] [living_lamp; bedroom_lamp] default_config.

(** A second lamp of the living room, and a configuration whose [topK]
    is -1. *)
Definition living_spot : Obj := entity_of (py "light.living_spot") "living_room" "1".
Definition topK_minus_one : Config :=
  {| thresholds := None; weights := None; topK := Some (-1)%Z; disambiguationGap := None |}.

(** The output of a run that did not raise, and its first action. *)
Definition no_output : Output :=
  {| intent := []; user_input := []; actions := []; matched_devices := [] |}.

Definition output_of (r : result Output) : Output :=
  match r with Ok out => out | Raise _ => no_output end.

Definition no_action : Action :=
  {| request := {| rq_floor := []; rq_room := []; rq_device_name := [];
                   rq_device_type := []; rq_service := [] |};
     targets := []; disambiguation_required := false; warnings := [];
     suggestions_if_empty := [] |}.

Definition first_action (out : Output) : Action := hd no_action (actions out).

(** A request for the generic name [light] in the living room, and a
    living-room lamp whose device name is [light]. *)
Definition generic_name_request : Obj := request_of "" "living_room" "light" "light".
Definition lamp_named_light : Obj :=
  {| entity_id := py "light.living_lamp"; device_type := []; floor_name_en := [];
     floor_type := []; floor_name := py "1"; level := []; room_name_en := [];
     room_type := []; room_name := py "living_room"; device_name := py "light";
     device_name_en := []; attr_friendly_name := []; friendly_name := [];
     service := [] |}.

(** The weighted sum of the four field scores with the neutral
    substitutes, and the composite the additive bonuses would give. *)
Definition weighted_sum (wF wR wN wT floor_part room_part name_part type_part : Q) : Q :=
  wF * floor_part + wR * room_part + wN * name_part + wT * type_part.

Definition with_exact_bonuses (base floor_part room_part name_part : Q) : Q :=
  base + (if Qge_bool room_part 0.98 then 0.10 else 0)
       + (if Qge_bool name_part 0.98 then 0.05 else 0)
       + (if Qge_bool floor_part 0.98 then 0.03 else 0).

(** The cosine does not depend on the order of the candidate rows. *)
Definition order_insensitive `{Vectorizer} : Prop :=
  forall q cs cs', Permutation cs cs' -> tfidf_best q cs = tfidf_best q cs'.

(* ================================================================== *)
(** * matcher_engine.py: further functions *)
(* ================================================================== *)

(** [list(dict.fromkeys(l))]: the first occurrence of each string, in
    order. *)
Fixpoint dict_fromkeys (l : list str) : list str :=
  match l with
  | [] => []
  | x :: r => x :: List.filter (fun y => negb (str_eqb x y)) (dict_fromkeys r)
  end.

(** The loop of [expand_alias]: the first entry whose key or one of whose
    aliases has the normal form [v] contributes its key and its aliases. *)
Fixpoint expand_alias_entry (v : str) (alias_map : AliasMap) : list str :=
  match alias_map with
  | [] => []
  | (key, aliases) :: rest =>
      let key_n := normalize key in
      if str_eqb v key_n || mem_str v (List.map normalize aliases)
      then key_n :: List.map normalize aliases
      else expand_alias_entry v rest
  end.

(** [expand_alias], the alias expansion of the older interface. *)
Definition expand_alias (value : str) (alias_map : AliasMap) : list str :=
  if negb (truthy value) then []
  else
    let v := normalize value in
    let out := v :: expand_alias_entry v alias_map in
    dict_fromkeys (List.filter truthy out).

(** [join_fields]. *)
Definition join_fields (parts : list str) : str :=
  let vals := List.map normalize (List.filter truthy parts) in
  let vals := List.filter truthy vals in
  join_space vals.

(** ** The envelope of a payload *)

(** Truthiness of a JSON value, as [x or default] tests it. *)
Definition json_truthy (v : json) : bool :=
  match v with
  | JNull => false
  | JBool b => b
  | JNum q => negb (Qeq_bool q 0)
  | JStr s => truthy s
  | JList items => negb (is_nil items)
  | JObj members => negb (is_nil members)
  end.

(** [x or default]. *)
Definition json_or (v default : json) : json := if json_truthy v then v else default.

(** ['devices' in v] for whatever [v] the payload holds under [data]. *)
Definition devices_in (v : json) : result bool :=
  match v with
  | JObj members =>
      Ok (match assoc "devices" members with Some _ => true | None => false end)
  | JList items =>
      Ok (existsb (fun x => match x with
                            | JStr s => str_eqb s (py "devices")
                            | _ => false
                            end) items)
  | JStr s => Ok (str_in (py "devices") s)
  | _ => Raise "TypeError"
  end.

(** [v.get(key, default)], which only a dictionary has. *)
Definition method_get (v : json) (key : string) (default : json) : result json :=
  match v with
  | JObj members => Ok (get_or (assoc key members) default)
  | _ => Raise "AttributeError"
  end.

(** What [process] reads from the payload before it scores anything. *)
Record Extracted := {
  x_intent_devices : json;
  x_entities : json;
  x_user_query : json;
  x_intent_name : json;
  x_aliases : json;
  x_cfg : json
}.

(** The envelope detection of [process], for a payload that is a
    dictionary with the given members. *)
Definition extract_envelope (members : list (string * json)) : result Extracted :=
  let payload := JObj members in
  let* direct :=
    (if has_key "success" payload && has_key "data" payload
     then devices_in (dict_get payload "data" (JObj []))
     else Ok false) in
  if direct then
    let intention_data := dict_get payload "data" (JObj []) in
    let* intent_devices := method_get intention_data "devices" (JList []) in
    let* user_query := method_get intention_data "user_input" (JStr []) in
    let* intent_name := method_get intention_data "intent" (JStr (py "Best Match")) in
    Ok {| x_intent_devices := intent_devices; x_entities := JList [];
          x_user_query := user_query; x_intent_name := intent_name;
          x_aliases := dict_get payload "aliases" (JObj []);
          x_cfg := dict_get payload "config" (JObj []) |}
  else if has_key "intention_data" payload || has_key "entities_data" payload then
    let intention_obj := dict_get payload "intention_data" (JObj []) in
    let entities_obj := dict_get payload "entities_data" (JObj []) in
    let intention_data :=
      if is_dict intention_obj then dict_get intention_obj "data" (JObj []) else JObj [] in
    let* intent_devices := method_get intention_data "devices" (JList []) in
    let* user_query := method_get intention_data "user_input" (JStr []) in
    let* intent_name := method_get intention_data "intent" (JStr (py "Best Match")) in
    let entities_data :=
      if is_dict entities_obj then dict_get entities_obj "data" (JObj []) else JObj [] in
    let* entities := method_get entities_data "entities" (JList []) in
    Ok {| x_intent_devices := intent_devices; x_entities := entities;
          x_user_query := user_query; x_intent_name := intent_name;
          x_aliases := dict_get payload "aliases" (JObj []);
          x_cfg := dict_get payload "config" (JObj []) |}
  else
    Ok {| x_intent_devices := json_or (dict_get payload "intent_devices" JNull) (JList []);
          x_entities := json_or (dict_get payload "entities" JNull) (JList []);
          x_user_query := json_or (dict_get payload "user_query" JNull) (JStr []);
          x_intent_name := dict_get payload "intent" (JStr (py "Best Match"));
          x_aliases := json_or (dict_get payload "aliases" JNull) (JObj []);
          x_cfg := json_or (dict_get payload "config" JNull) (JObj []) |}.

(** ** Vocabulary of the further statements *)

(** A cache as [LRUCache] keeps it: one entry per key, no more entries
    than [maxsize]. *)
Definition lru_wf {K V} (c : LRUCache K V) : Prop :=
  NoDup (List.map fst (cache c)) /\ (length (cache c) <= maxsize c)%nat.

(** The domain of an entity: the part of its identifier before the dot. *)
Definition domain_of (e : Obj) : str :=
  if truthy (entity_id e) then split_dot_head (entity_id e) else [].

(** The echo of a device request in its action. *)
Definition request_echo (dev : Obj) : Request :=
  {| rq_floor := get_primary_field dev Floor;
     rq_room := get_primary_field dev Room;
     rq_device_name := get_primary_field dev Name;
     rq_device_type := get_primary_field dev Type_;
     rq_service := service dev |}.

(** The vectorizer returns cosines of non-negative vectors. *)
Definition cosine_range `{Vectorizer} : Prop :=
  forall q cs, 0 <= tfidf_best q cs <= 1.

(** A row of an alias table mentions the token [k] when [k] is the normal
    form of its canonical identifier or of one of its aliases. *)
Definition row_mentions (k : str) (row : str * list str) : Prop :=
  normalize (fst row) = k \/ exists a, In a (snd row) /\ normalize a = k.

(** [a] occurs in [b] as a contiguous run. *)
Definition occurs_in (a b : str) : Prop := exists pre post, b = pre ++ a ++ post.

(** An entry of a reverse index that the alias table accounts for. *)
Definition alias_entry_ok (alias_map : AliasMap) (k v : str) : Prop :=
  k <> [] /\ v <> [] /\
  exists canonical aliases,
    In (canonical, aliases) alias_map /\ v = normalize canonical /\
    row_mentions k (canonical, aliases).

(** One step of [build_alias_reverse_index]. *)
Definition index_row (index : gmap str str) (row : str * list str) : gmap str str :=
  let canonical_norm := normalize (fst row) in
  if truthy canonical_norm
  then index_aliases canonical_norm (snd row) (<[canonical_norm := canonical_norm]> index)
  else index.

(** A configuration whose weights table lacks the key [F]. *)
Definition weights_without_F : Config :=
  {| thresholds := None;
     weights := Some {| w_F := None; w_R := Some 0.40; w_N := Some 0.30; w_T := Some 0.15 |};
     topK := None; disambiguationGap := None |}.

(** An entity belongs under the key [k] of the type index: [k] is the
    non-empty normal form of its domain or of its device type. *)
Definition listed_under (k : str) (e : Obj) : Prop :=
  k <> [] /\ (normalize (domain_of e) = k \/ normalize (device_type e) = k).

(** The state of the index of [build_type_index] after the entities
    [seen]. *)
Definition type_index_inv (index : TypeIndex) (seen : list Obj) : Prop :=
  forall k,
    sublist (get_or (index !! k) []) seen /\
    (forall e, In e (get_or (index !! k) []) <-> In e seen /\ listed_under k e) /\
    index !! k <> Some [].

(** The domain of the service of a request, as [filter_candidates] reads it. *)
Definition service_domain_of (dev : Obj) : str :=
  if truthy (service dev) then split_dot_head (service dev) else [].

(** What scikit-learn guarantees of the cosines of matcher.py: one per
    candidate, each between 0 and 1 (TF-IDF rows have no negative entry). *)
Definition cosines_wf `{Vectorizer} : Prop :=
  forall q cs,
    length (tfidf_cosines q cs) = length cs /\
    List.Forall (fun x => 0 <= x <= 1) (tfidf_cosines q cs).

(** A lamp that carries both a device type and an identifier. *)
Definition typed_lamp : Obj :=
  {| entity_id := py "light.desk"; device_type := py "light"; floor_name_en := [];
     floor_type := []; floor_name := py "1"; level := []; room_name_en := [];
     room_type := []; room_name := py "living_room"; device_name := [];
     device_name_en := []; attr_friendly_name := []; friendly_name := [];
     service := [] |}.




(* ================================================================== *)
(** * Properties *)
(* ================================================================== *)

Local Open Scope N_scope.

(** ** Character classes *)

Ltac N_bool :=
  unfold is_keep, is_lower_az, is_digit, is_cjk, is_space, is_dash,
    is_upper_AZ, in_range in *;
  repeat match goal with
    | H : _ = false |- _ => apply Bool.not_true_iff_false in H
    | |- _ = false => apply Bool.not_true_iff_false; intro
    end;
  rewrite ?Bool.orb_true_iff, ?Bool.andb_true_iff, ?Bool.negb_true_iff,
    ?N.leb_le, ?N.eqb_eq in *;
  try lia.

Lemma keep_not_space c : is_keep c = true -> is_space c = false.
Proof. intros H. N_bool. Qed.

Lemma keep_not_dash c : is_keep c = true -> is_dash c = false.
Proof. intros H. N_bool. Qed.

Lemma keep_not_upper c : is_keep c = true -> is_upper_AZ c = false.
Proof. intros H. N_bool. Qed.

(** No row of the lower-case table touches the code points from [lo]
    to [hi]. *)
Lemma lower_cp_fixed (lo hi c : N) :
  forallb (fun '(l, h, _, _) => (h <? lo) || (hi <? l)) LOWER_TABLE = true ->
  (0x130 <? lo) || (hi <? 0x130) = true ->
  lo <= c <= hi -> lower_cp c = [c].
Proof.
  intros Hrows H130 Hc. unfold lower_cp.
  destruct (N.eqb_spec c 0x130) as [->|_].
  { apply Bool.orb_true_iff in H130. rewrite !N.ltb_lt in H130. lia. }
  destruct (List.find _ LOWER_TABLE) as [[[[l h] st] to]|] eqn:F; [|reflexivity].
  apply find_some in F as (Hin & Hrow).
  rewrite forallb_forall in Hrows. specialize (Hrows _ Hin). cbv beta iota in Hrows.
  unfold in_row in Hrow.
  rewrite !Bool.andb_true_iff, !N.leb_le in Hrow.
  apply Bool.orb_true_iff in Hrows. rewrite !N.ltb_lt in Hrows. lia.
Qed.

Ltac fixed_range lo hi :=
  apply (lower_cp_fixed lo hi); [vm_compute; reflexivity|reflexivity|lia].

Lemma lower_cp_keep c : is_keep c = true -> lower_cp c = [c].
Proof.
  intros H. unfold is_keep, is_lower_az, is_digit, is_cjk, in_range in H.
  rewrite !Bool.orb_true_iff, !Bool.andb_true_iff, !N.leb_le in H.
  destruct H as [[H|H]|H];
    [fixed_range 0x61 0x7A|fixed_range 0x30 0x39|fixed_range 0x4E00 0x9FA5].
Qed.

Lemma lower_cp_space c : is_space c = true -> lower_cp c = [c].
Proof.
  intros H. unfold is_space, in_range in H.
  rewrite !Bool.orb_true_iff, !Bool.andb_true_iff, !N.leb_le, !N.eqb_eq in H.
  destruct H as [[[[[[[[[[H|H]|H]|H]|H]|H]|H]|H]|H]|H]|H];
    [fixed_range 0x09 0x0D|fixed_range 0x1C 0x20|fixed_range 0x85 0x85
    |fixed_range 0xA0 0xA0|fixed_range 0x1680 0x1680|fixed_range 0x2000 0x200A
    |fixed_range 0x2028 0x2028|fixed_range 0x2029 0x2029|fixed_range 0x202F 0x202F
    |fixed_range 0x205F 0x205F|fixed_range 0x3000 0x3000].
Qed.

Lemma lower_cp_dash c : is_dash c = true -> lower_cp c = [c].
Proof.
  intros H. unfold is_dash in H.
  rewrite !Bool.orb_true_iff, !N.eqb_eq in H.
  destruct H as [H|H]; [fixed_range 0x5F 0x5F|fixed_range 0x2D 0x2D].
Qed.

(** Under the keep filter, [str.lower] works one code point at a time:
    both lower-case forms of the capital sigma are deleted. *)
Lemma keep_of_lower_from (before : bool) (s : str) :
  List.filter is_keep (lower_from before s)
  = flat_map (fun c => List.filter is_keep (lower_cp c)) s.
Proof.
  revert before. induction s as [|c s IH]; intros before; [reflexivity|].
  cbn [lower_from flat_map]. rewrite List.filter_app, IH. f_equal.
  destruct (N.eqb_spec c 0x3A3) as [->|_]; [|reflexivity].
  destruct (before && _); vm_compute; reflexivity.
Qed.

Lemma lower_from_keep (before : bool) (s : str) :
  Forall (fun c => is_keep c = true) s -> lower_from before s = s.
Proof.
  intros H. revert before. induction H as [|c s Hc _ IH]; intros before; [reflexivity|].
  cbn [lower_from]. rewrite IH, (lower_cp_keep c Hc).
  destruct (N.eqb_spec c 0x3A3) as [->|_]; [discriminate Hc|reflexivity].
Qed.

(** ** The normalizer *)

Lemma filter_all_true {A} (f : A -> bool) (l : list A) :
  Forall (fun x => f x = true) l -> List.filter f l = l.
Proof.
  induction 1 as [|x l Hx _ IH]; simpl; [reflexivity|].
  rewrite Hx, IH. reflexivity.
Qed.

Lemma filter_keep_forall (s : str) :
  Forall (fun c => is_keep c = true) (List.filter is_keep s).
Proof.
  apply List.Forall_forall. intros c Hc. apply List.filter_In in Hc. tauto.
Qed.

Lemma re_sub_chain (s : str) :
  re_sub_keep (re_sub_dash (re_sub_space s)) = List.filter is_keep s.
Proof.
  unfold re_sub_keep, re_sub_dash, re_sub_space.
  induction s as [|c s IH]; simpl; [reflexivity|].
  destruct (is_keep c) eqn:K.
  - rewrite (keep_not_space c K). simpl.
    rewrite (keep_not_dash c K). simpl. rewrite K, IH. reflexivity.
  - destruct (is_space c); simpl; [exact IH|].
    destruct (is_dash c); simpl; [exact IH|].
    rewrite K. exact IH.
Qed.

Lemma lstrip_keep (s : str) :
  Forall (fun c => is_keep c = true) s -> lstrip s = s.
Proof.
  destruct 1 as [|c s Hc _]; simpl; [reflexivity|].
  rewrite (keep_not_space c Hc). reflexivity.
Qed.

Lemma strip_keep (s : str) :
  Forall (fun c => is_keep c = true) s -> strip s = s.
Proof.
  intros H. unfold strip, rstrip.
  rewrite (lstrip_keep s H).
  rewrite lstrip_keep by (apply Forall_rev; exact H).
  apply rev_involutive.
Qed.

(** The three substitutions and the final [strip] amount to one filter. *)
Lemma normalize_filter (s : str) : normalize s = List.filter is_keep (lower s).
Proof.
  unfold normalize. destruct s as [|c s]; [reflexivity|].
  cbv [truthy negb]. cbv zeta.
  rewrite re_sub_chain. apply strip_keep, filter_keep_forall.
Qed.

Lemma normalize_keep (s : str) : Forall (fun c => is_keep c = true) (normalize s).
Proof. rewrite normalize_filter. apply filter_keep_forall. Qed.

Lemma lower_keep (s : str) :
  Forall (fun c => is_keep c = true) s -> lower s = s.
Proof. apply lower_from_keep. Qed.

Lemma normalize_fixed (s : str) :
  Forall (fun c => is_keep c = true) s -> normalize s = s.
Proof.
  intros H. rewrite normalize_filter, (lower_keep s H).
  apply filter_all_true, H.
Qed.

Lemma normalize_idem (s : str) : normalize (normalize s) = normalize s.
Proof. apply normalize_fixed, normalize_keep. Qed.

Lemma normalize_cons (c : N) (s : str) :
  normalize (c :: s) = List.filter is_keep (lower_cp c) ++ normalize s.
Proof.
  rewrite !normalize_filter. unfold lower. rewrite !keep_of_lower_from. reflexivity.
Qed.

(** ** The normalisation cache returns what [normalize] computes *)

Section LRUFacts.
Context {K V : Type} `{EqDecision K}.
Implicit Types (l : list (K * V)) (c : LRUCache K V).

Lemma od_find_In key l v : od_find key l = Some v -> In (key, v) l.
Proof.
  induction l as [|[k w] r IH]; simpl; [discriminate|].
  destruct (decide (k = key)) as [->|_].
  - intros [= ->]. now left.
  - intros Hf. right. auto.
Qed.

Lemma od_remove_In key l x : In x (od_remove key l) -> In x l.
Proof.
  induction l as [|[k w] r IH]; simpl; [tauto|].
  destruct (decide (k = key)); simpl; intuition.
Qed.

Lemma od_move_to_end_In key l x : In x (od_move_to_end key l) -> In x l.
Proof.
  unfold od_move_to_end. destruct (od_find key l) as [v|] eqn:F; [|tauto].
  intros Hx. apply in_app_or in Hx as [Hx|[<-|[]]].
  - eapply od_remove_In, Hx.
  - apply od_find_In, F.
Qed.

Lemma od_assign_In key value l x :
  In x (od_assign key value l) -> x = (key, value) \/ In x l.
Proof.
  induction l as [|[k w] r IH]; simpl.
  - intros [<-|[]]. now left.
  - destruct (decide (k = key)) as [->|_]; simpl; intuition.
Qed.

Lemma tl_In {A} (l : list A) x : In x (tl l) -> In x l.
Proof. destruct l; simpl; tauto. Qed.

Lemma lru_get_sound f key c :
  cache_sound f c ->
  cache_sound f (snd (lru_get key c)) /\
  forall v, fst (lru_get key c) = Some v -> v = f key.
Proof.
  intros S. unfold lru_get.
  destruct (od_find key (cache c)) as [v|] eqn:F; simpl.
  - split.
    + intros k w Hin. apply S. eapply od_move_to_end_In, Hin.
    + intros w [= <-]. apply S, od_find_In, F.
  - split; [exact S|discriminate].
Qed.

Lemma lru_set_sound f key c :
  cache_sound f c -> cache_sound f (lru_set key (f key) c).
Proof.
  intros S k w. unfold lru_set. simpl. intros Hin.
  assert (Hin' : In (k, w)
            (od_assign key (f key)
               (match od_find key (cache c) with
                | Some _ => od_move_to_end key (cache c)
                | None => cache c
                end))).
  { destruct (_ <? _)%nat; [apply tl_In|]; exact Hin. }
  apply od_assign_In in Hin' as [[= -> ->]|Hin']; [reflexivity|].
  apply S. destruct (od_find key (cache c)); [eapply od_move_to_end_In|]; exact Hin'.
Qed.

(** The capacity bound is enforced by every [set]. *)
Lemma od_assign_length key value l :
  (length (od_assign key value l) <= S (length l))%nat.
Proof.
  induction l as [|[k w] r IH]; simpl; [lia|].
  destruct (decide (k = key)); simpl; lia.
Qed.

Lemma od_remove_length key l v :
  od_find key l = Some v -> S (length (od_remove key l)) = length l.
Proof.
  induction l as [|[k w] r IH]; simpl; [discriminate|].
  destruct (decide (k = key)); simpl; [reflexivity|].
  intros F. rewrite (IH F). reflexivity.
Qed.

Lemma od_move_to_end_length key l :
  length (od_move_to_end key l) = length l.
Proof.
  unfold od_move_to_end. destruct (od_find key l) as [v|] eqn:F; [|reflexivity].
  rewrite length_app. simpl. rewrite <- (od_remove_length key l v F). lia.
Qed.

Lemma lru_set_bounded key value c :
  (length (cache c) <= maxsize c)%nat ->
  (length (cache (lru_set key value c)) <= maxsize (lru_set key value c))%nat.
Proof.
  intros B. unfold lru_set. simpl.
  set (l := match od_find key (cache c) with
            | Some _ => od_move_to_end key (cache c)
            | None => cache c
            end).
  assert (L : length l = length (cache c)).
  { subst l. destruct (od_find key (cache c)); [apply od_move_to_end_length|reflexivity]. }
  pose proof (od_assign_length key value l) as A.
  destruct (Nat.ltb_spec (maxsize c) (length (od_assign key value l))) as [G|G].
  - destruct (od_assign key value l); simpl in *; lia.
  - exact G.
Qed.
End LRUFacts.

Lemma normalize_cached_correct (text : str) (c : LRUCache str str) :
  cache_sound normalize c ->
  fst (normalize_cached text c) = normalize text /\
  cache_sound normalize (snd (normalize_cached text c)).
Proof.
  intros S. unfold normalize_cached, normalize.
  destruct (negb (truthy text)) eqn:E; [split; [reflexivity|exact S]|].
  destruct (lru_get_sound normalize text c S) as [S' Hv].
  destruct (lru_get text c) as [[v|] c'] eqn:G; simpl in *.
  - split; [|exact S'].
    rewrite (Hv v eq_refl). unfold normalize. rewrite E. reflexivity.
  - split; [reflexivity|].
    pose proof (lru_set_sound normalize text c' S') as S''.
    unfold normalize in S'' at 2. rewrite E in S''. exact S''.
Qed.

(** ** C10: the normalizer is canonical *)

Lemma separator_dropped c :
  is_separator c = true -> List.filter is_keep (lower_cp c) = [].
Proof.
  unfold is_separator. intros H.
  apply Bool.orb_true_iff in H as [H|H].
  - rewrite (lower_cp_space c H). simpl.
    destruct (is_keep c) eqn:K; [|reflexivity].
    rewrite (keep_not_space c K) in H. discriminate.
  - rewrite (lower_cp_dash c H). simpl.
    destruct (is_keep c) eqn:K; [|reflexivity].
    rewrite (keep_not_dash c K) in H. discriminate.
Qed.

Lemma normalize_differ_by_case_sep s t :
  differ_by_case_sep s t -> normalize s = normalize t.
Proof.
  induction 1 as [|c s t Hc _ IH|c s t Hc _ IH|c d s t Hcd _ IH].
  - reflexivity.
  - rewrite normalize_cons, (separator_dropped c Hc). exact IH.
  - rewrite (normalize_cons c t), (separator_dropped c Hc). exact IH.
  - rewrite !normalize_cons, Hcd, IH. reflexivity.
Qed.

Lemma empty_cache_sound {K V} (f : K -> V) n : cache_sound f (empty_cache n).
Proof. intros k v []. Qed.

(** C10.  Whatever sound state the normalisation cache is in, [normalize]
    is idempotent, identifies raw strings that differ only by letter
    case, whitespace, underscores or hyphens, maps the empty string to
    the empty token, and returns only lower-case ASCII letters, digits
    and CJK ideographs. *)
Theorem C10_normalize_canonical (c : LRUCache str str) :
  cache_sound normalize c ->
  (forall s,
      let r := normalize_cached s c in
      fst (normalize_cached (fst r) (snd r)) = fst r) /\
  (forall s t,
      differ_by_case_sep s t ->
      let r := normalize_cached s c in
      fst (normalize_cached t (snd r)) = fst r) /\
  fst (normalize_cached [] c) = [] /\
  (forall s,
      Forall (fun ch => is_lower_az ch || is_digit ch || is_cjk ch = true)
             (fst (normalize_cached s c))).
Proof.
  intros S.
  assert (E : forall s, fst (normalize_cached s c) = normalize s
                        /\ cache_sound normalize (snd (normalize_cached s c))).
  { intros s. apply normalize_cached_correct, S. }
  repeat split.
  - intros s r. subst r. destruct (E s) as [E1 E2].
    destruct (normalize_cached_correct (fst (normalize_cached s c)) _ E2) as [-> _].
    rewrite E1. apply normalize_idem.
  - intros s t D r. subst r. destruct (E s) as [E1 E2].
    destruct (normalize_cached_correct t _ E2) as [-> _].
    rewrite E1. symmetry. apply normalize_differ_by_case_sep, D.
  - intros s. destruct (E s) as [-> _]. apply normalize_keep.
Qed.

Lemma C10_normalize_canonical_witness :
  fst (normalize_cached (py "living_room")
         (snd (normalize_cached (py "Living Room") (empty_cache 1000))))
  = fst (normalize_cached (py "Living Room") (empty_cache 1000)).
Proof.
  refine (proj1 (proj2 (C10_normalize_canonical (empty_cache 1000) _))
            (py "Living Room") (py "living_room") _).
  - apply empty_cache_sound.
  - vm_compute.
    apply dcs_letter; [reflexivity|].
    do 5 (apply dcs_letter; [reflexivity|]).
    apply dcs_sep_l; [reflexivity|]. apply dcs_sep_r; [reflexivity|].
    do 4 (apply dcs_letter; [reflexivity|]).
    apply dcs_nil.
Defined.

(** ** Field similarity *)

Local Open Scope Q_scope.

Lemma truthy_true (s : str) : truthy s = true <-> s <> [].
Proof. destruct s; simpl; split; congruence. Qed.

Lemma truthy_false (s : str) : truthy s = false <-> s = [].
Proof. destruct s; simpl; split; congruence. Qed.

Lemma str_eqb_refl (s : str) : str_eqb s s = true.
Proof. unfold str_eqb. apply bool_decide_eq_true. reflexivity. Qed.

Lemma str_eqb_eq (a b : str) : str_eqb a b = true <-> a = b.
Proof. unfold str_eqb. apply bool_decide_eq_true. Qed.

Lemma live_candidates_none (candidates : list str) :
  Forall (fun x => normalize x = []) candidates -> live_candidates candidates = [].
Proof.
  unfold live_candidates.
  induction 1 as [|x l Hx _ IH]; simpl; [reflexivity|].
  destruct (truthy x); simpl; [|exact IH].
  rewrite Hx. simpl. exact IH.
Qed.

Lemma field_similarity_exact `{Vectorizer} (q : str) :
  truthy (normalize q) = true -> field_similarity q [q] = 1.
Proof.
  intros Hq. unfold field_similarity.
  assert (Tq : truthy q = true).
  { destruct q; [discriminate Hq|reflexivity]. }
  simpl. rewrite Tq. simpl. rewrite Hq. simpl.
  rewrite str_eqb_refl. reflexivity.
Qed.

Lemma field_similarity_no_query `{Vectorizer} (q : str) (candidates : list str) :
  normalize q = [] -> field_similarity q candidates = 0.
Proof. intros Hq. unfold field_similarity. rewrite Hq. reflexivity. Qed.

Lemma field_similarity_no_candidate `{Vectorizer} (q : str) (candidates : list str) :
  Forall (fun x => normalize x = []) candidates -> field_similarity q candidates = 0.
Proof.
  intros Hc. unfold field_similarity.
  fold (live_candidates candidates). rewrite (live_candidates_none _ Hc).
  simpl. rewrite Bool.orb_true_r. reflexivity.
Qed.

Lemma insert_str_perm x l : Permutation (x :: l) (insert_str x l).
Proof.
  induction l as [|y r IH]; simpl; [reflexivity|].
  destruct (str_leb x y); [reflexivity|].
  rewrite perm_swap. apply perm_skip, IH.
Qed.

Lemma sorted_strs_perm l : Permutation l (sorted_strs l).
Proof.
  induction l as [|x l IH]; simpl; [reflexivity|].
  rewrite <- insert_str_perm. apply perm_skip, IH.
Qed.

Lemma sorted_strs_singleton x : sorted_strs [x] = [x].
Proof. reflexivity. Qed.

Lemma field_similarity_cached_value `{Vectorizer} query candidates c :
  tfidf_cache_sound c ->
  fst (field_similarity_cached query candidates c) = field_similarity query candidates
  \/ fst (field_similarity_cached query candidates c)
     = field_similarity query (sorted_strs candidates).
Proof.
  intros S. unfold field_similarity_cached.
  destruct (lru_get_sound _ (query, sorted_strs candidates) c S) as [_ Hv].
  destruct (lru_get (query, sorted_strs candidates) c) as [[v|] c']; simpl in *.
  - right. apply (Hv v eq_refl).
  - left. reflexivity.
Qed.

Lemma field_similarity_cached_sound `{Vectorizer} query candidates c :
  tfidf_cache_sound c ->
  (field_similarity query candidates = field_similarity query (sorted_strs candidates)) ->
  fst (field_similarity_cached query candidates c) = field_similarity query candidates
  /\ tfidf_cache_sound (snd (field_similarity_cached query candidates c)).
Proof.
  intros S E. unfold field_similarity_cached.
  destruct (lru_get_sound _ (query, sorted_strs candidates) c S) as [S' Hv].
  destruct (lru_get (query, sorted_strs candidates) c) as [[v|] c']; simpl in *.
  - split; [|exact S']. rewrite E. apply (Hv v eq_refl).
  - split; [reflexivity|].
    rewrite E.
    apply (lru_set_sound (fun k => field_similarity (fst k) (snd k))
             (query, sorted_strs candidates) c' S').
Qed.

(** Under a vectorizer that does not look at the order of its corpus,
    the cache key, which sorts the candidates, determines the score: the
    cached function is the computation. *)
Lemma existsb_perm {A} (f : A -> bool) l l' :
  Permutation l l' -> existsb f l = existsb f l'.
Proof.
  induction 1 as [|x l l' _ IH|x y l|l l' l'' _ IH1 _ IH2]; simpl.
  - reflexivity.
  - rewrite IH. reflexivity.
  - destruct (f x), (f y); reflexivity.
  - congruence.
Qed.

Lemma filter_perm {A} (f : A -> bool) l l' :
  Permutation l l' -> Permutation (List.filter f l) (List.filter f l').
Proof.
  induction 1 as [|x l l' _ IH|x y l|l l' l'' _ IH1 _ IH2]; simpl.
  - reflexivity.
  - destruct (f x); [apply perm_skip|]; exact IH.
  - destruct (f x), (f y); try reflexivity. apply perm_swap.
  - etransitivity; eassumption.
Qed.

Lemma live_candidates_perm l l' :
  Permutation l l' -> Permutation (live_candidates l) (live_candidates l').
Proof.
  intros P. unfold live_candidates.
  apply filter_perm, Permutation_map, filter_perm, P.
Qed.

Lemma is_nil_perm {A} (l l' : list A) : Permutation l l' -> is_nil l = is_nil l'.
Proof.
  intros P. destruct l, l'; try reflexivity.
  - apply Permutation_nil in P. discriminate.
  - symmetry in P. apply Permutation_nil in P. discriminate.
Qed.

Lemma field_similarity_perm `{Vectorizer} q l l' :
  order_insensitive -> Permutation l l' ->
  field_similarity q l = field_similarity q l'.
Proof.
  intros O P. unfold field_similarity.
  fold (live_candidates l). fold (live_candidates l').
  pose proof (live_candidates_perm l l' P) as LP.
  rewrite (is_nil_perm _ _ LP). unfold mem_str.
  rewrite (existsb_perm _ _ _ LP).
  rewrite (existsb_perm (fun c => str_in (normalize q) c || str_in c (normalize q)) _ _ LP).
  rewrite (O _ _ _ LP). reflexivity.
Qed.

Lemma field_similarity_cached_correct `{Vectorizer} query candidates c :
  order_insensitive -> tfidf_cache_sound c ->
  fst (field_similarity_cached query candidates c) = field_similarity query candidates
  /\ tfidf_cache_sound (snd (field_similarity_cached query candidates c)).
Proof.
  intros O S. apply field_similarity_cached_sound; [exact S|].
  apply field_similarity_perm; [exact O|apply sorted_strs_perm].
Qed.

(** C5, as amended.  Whatever sound state the similarity cache is in:
    a query whose normalised form is not empty scores exactly 1 against
    itself; and the score is 0 when the query is empty, when it has no
    normalised form, and when no candidate has a normalised form (in
    particular for an empty candidate list). *)
Theorem C5_field_similarity_exact_and_zero `{Vectorizer}
    (c : LRUCache (str * list str) Q) :
  tfidf_cache_sound c ->
  (forall q, normalize q <> [] -> fst (field_similarity_cached q [q] c) = 1) /\
  (forall q candidates,
      q = [] \/ normalize q = [] \/ Forall (fun x => normalize x = []) candidates ->
      fst (field_similarity_cached q candidates c) = 0).
Proof.
  intros S. split.
  - intros q Hq.
    destruct (field_similarity_cached_value q [q] c S) as [->| ->];
      rewrite ?sorted_strs_singleton; apply field_similarity_exact, truthy_true, Hq.
  - intros q candidates Hz.
    assert (Z : forall cs, Permutation candidates cs -> field_similarity q cs = 0).
    { intros cs P. destruct Hz as [->|[Hq|Hc]].
      - apply field_similarity_no_query. reflexivity.
      - apply field_similarity_no_query, Hq.
      - apply field_similarity_no_candidate.
        eapply Permutation_Forall; [exact P|exact Hc]. }
    destruct (field_similarity_cached_value q candidates c S) as [->| ->].
    + apply Z. reflexivity.
    + apply Z, sorted_strs_perm.
Qed.

Lemma C5_field_similarity_exact_and_zero_witness :
  fst (@field_similarity_cached no_overlap (py "Living Room") [py "Living Room"]
         (empty_cache 500)) = 1 /\
  fst (@field_similarity_cached no_overlap (py "Living Room") [py "--"; []]
         (empty_cache 500)) = 0.
Proof.
  destruct (@C5_field_similarity_exact_and_zero no_overlap (empty_cache 500)
              (empty_cache_sound _ 500)) as [Hexact Hzero].
  split.
  - apply Hexact. vm_compute. discriminate.
  - apply Hzero. right. right. repeat constructor.
Defined.

(** A query made of separators only is not empty and still scores 0
    against itself, under any vectorizer. *)
Lemma field_similarity_separator_query `{Vectorizer} c :
  tfidf_cache_sound c ->
  fst (field_similarity_cached (py "-") [py "-"] c) = 0.
Proof.
  intros S.
  destruct (field_similarity_cached_value (py "-") [py "-"] c S) as [->| ->];
    reflexivity.
Qed.

(** C5, as stated, fails: the query ["-"] is a non-empty string, and
    [field_similarity("-", ["-"])] returns 0.0, not 1.0. *)
Lemma C5_nonempty_query_scores_zero :
  py "-" <> [] /\
  fst (@field_similarity_cached no_overlap (py "-") [py "-"] (empty_cache 500)) = 0 /\
  ~ fst (@field_similarity_cached no_overlap (py "-") [py "-"] (empty_cache 500)) == 1.
Proof.
  split; [discriminate|].
  rewrite (@field_similarity_separator_query no_overlap _ (empty_cache_sound _ 500)).
  split; [reflexivity|]. intros E. discriminate E.
Qed.

(** ** C6: the candidate filter *)

Lemma is_nil_true {A} (l : list A) : is_nil l = true <-> l = [].
Proof. destruct l; simpl; split; congruence. Qed.

Lemma is_nil_false {A} (l : list A) : is_nil l = false <-> l <> [].
Proof. destruct l; simpl; split; congruence. Qed.

Lemma type_pool_nonempty dev entities type_index :
  entities <> [] -> type_pool dev entities type_index <> [].
Proof.
  intros Hne. unfold type_pool.
  repeat match goal with
         | |- context [if is_nil ?l then entities else ?l] =>
             destruct (is_nil l) eqn:?; [exact Hne|apply is_nil_false; assumption]
         | |- context [if ?b then _ else _] => destruct b
         end; try exact Hne.
Qed.

Lemma narrow_cases limit field dev pool :
  let kept := List.filter (field_contains field dev) pool in
  narrow limit field dev pool =
    if (limit <? length pool)%nat && truthy (get_primary_field dev field)
       && negb (is_nil kept)
    then kept else pool.
Proof.
  unfold narrow, field_contains. simpl.
  destruct (limit <? length pool)%nat; simpl; [|reflexivity].
  destruct (truthy (get_primary_field dev field)); simpl; [|reflexivity].
  destruct (is_nil _); reflexivity.
Qed.

Lemma narrow_nonempty limit field dev pool :
  pool <> [] -> narrow limit field dev pool <> [].
Proof.
  intros Hne. rewrite narrow_cases. cbv zeta.
  destruct (is_nil (List.filter (field_contains field dev) pool)) eqn:E.
  - rewrite Bool.andb_false_r. exact Hne.
  - destruct (_ && _ && _); [apply is_nil_false, E|exact Hne].
Qed.

Lemma narrow_incl limit field dev pool e :
  In e (narrow limit field dev pool) -> In e pool.
Proof.
  rewrite narrow_cases. cbv zeta.
  destruct (_ && _ && _); [|tauto].
  intros Hin. apply List.filter_In in Hin. tauto.
Qed.

(** C6, as amended.  [filter_candidates] never returns an empty pool for
    a non-empty entity list.  When the pool after type filtering has
    more than 50 entities and the request names a room, it keeps exactly
    the entities whose normalised primary room field contains the
    normalised requested room, provided there is one; when the pool is
    then over 30 entities and the request names a floor, it narrows by
    floor in the same way; otherwise a stage leaves the pool as it is. *)
Theorem C6_filter_candidates_narrowing dev entities type_index :
  let pool0 := type_pool dev entities type_index in
  let by_room := List.filter (field_contains Room dev) pool0 in
  let pool1 :=
    if (50 <? length pool0)%nat && truthy (get_primary_field dev Room)
       && negb (is_nil by_room)
    then by_room else pool0 in
  let by_floor := List.filter (field_contains Floor dev) pool1 in
  let pool2 :=
    if (30 <? length pool1)%nat && truthy (get_primary_field dev Floor)
       && negb (is_nil by_floor)
    then by_floor else pool1 in
  filter_candidates dev entities type_index = pool2 /\
  (entities <> [] -> filter_candidates dev entities type_index <> []) /\
  (forall e, In e (filter_candidates dev entities type_index) -> In e pool0).
Proof.
  cbv zeta. unfold filter_candidates. repeat split.
  - rewrite (narrow_cases 30 Floor), (narrow_cases 50 Room). reflexivity.
  - intros Hne. apply narrow_nonempty, narrow_nonempty, type_pool_nonempty, Hne.
  - intros e Hin. eapply narrow_incl, narrow_incl, Hin.
Qed.

Lemma C6_filter_candidates_narrowing_witness :
  let entities := fifty_living_lamps ++ [short_room_lamp] in
  filter_candidates (request_of "" "living_room" "" "light") entities
    (build_type_index entities) <> [].
Proof.
  refine (proj1 (proj2 (C6_filter_candidates_narrowing _ _ _)) _).
  discriminate.
Defined.

(** C6, as stated, fails.  Of 51 lamps, fifty are in ["living_room"] and
    one has the room field ["living"], which is contained by the
    requested ["living_room"]; the narrowing by room drops it. *)
Lemma C6_contained_room_is_dropped :
  let dev := request_of "" "living_room" "" "light" in
  let entities := fifty_living_lamps ++ [short_room_lamp] in
  let type_index := build_type_index entities in
  (50 < length (type_pool dev entities type_index))%nat /\
  In short_room_lamp (type_pool dev entities type_index) /\
  field_contained_by Room dev short_room_lamp = true /\
  ~ In short_room_lamp (filter_candidates dev entities type_index) /\
  filter_candidates dev entities type_index <>
    List.filter (fun e => field_contains Room dev e || field_contained_by Room dev e)
                (type_pool dev entities type_index).
Proof.
  cbv zeta.
  assert (F : filter_candidates (request_of "" "living_room" "" "light")
                (fifty_living_lamps ++ [short_room_lamp])
                (build_type_index (fifty_living_lamps ++ [short_room_lamp]))
              = fifty_living_lamps)
    by (vm_compute; reflexivity).
  assert (P : type_pool (request_of "" "living_room" "" "light")
                (fifty_living_lamps ++ [short_room_lamp])
                (build_type_index (fifty_living_lamps ++ [short_room_lamp]))
              = fifty_living_lamps ++ [short_room_lamp])
    by (vm_compute; reflexivity).
  rewrite F, P. split; [|split; [|split; [|split]]].
  - vm_compute. lia.
  - apply in_or_app. right. now left.
  - vm_compute. reflexivity.
  - intros Hin. apply in_map_iff in Hin as (i & Hi & _).
    apply (f_equal entity_id) in Hi. vm_compute in Hi.
    discriminate Hi.
  - intros E. apply (f_equal (@length Obj)) in E. vm_compute in E. discriminate E.
Qed.

(** ** The stable descending sort *)

Section SortingFacts.
Context {A : Type} (key : A -> Q).

Lemma insert_desc_perm x l : Permutation (x :: l) (insert_desc key x l).
Proof.
  induction l as [|y r IH]; simpl; [reflexivity|].
  destruct (Qle_bool (key y) (key x)); [reflexivity|].
  rewrite perm_swap. apply perm_skip, IH.
Qed.

Lemma sort_desc_perm l : Permutation l (sort_desc key l).
Proof.
  induction l as [|x l IH]; simpl; [reflexivity|].
  rewrite <- insert_desc_perm. apply perm_skip, IH.
Qed.

Lemma insert_desc_sorted x l :
  StronglySorted (desc key) l -> StronglySorted (desc key) (insert_desc key x l).
Proof.
  induction 1 as [|y r Hr IH Hy]; simpl.
  - constructor; constructor.
  - destruct (Qle_bool (key y) (key x)) eqn:E.
    + apply Qle_bool_iff in E.
      constructor; [constructor; assumption|].
      constructor; [exact E|].
      eapply List.Forall_impl; [|exact Hy].
      intros z Hz. unfold desc in *. lra.
    + assert (L : key x < key y).
      { apply Qnot_le_lt. intros C. apply Qle_bool_iff in C. congruence. }
      constructor; [exact IH|].
      eapply Permutation_Forall; [apply insert_desc_perm|].
      constructor; [unfold desc; lra|exact Hy].
Qed.

Lemma sort_desc_sorted l : StronglySorted (desc key) (sort_desc key l).
Proof.
  induction l as [|x l IH]; simpl; [constructor|].
  apply insert_desc_sorted, IH.
Qed.



Lemma sort_desc_In x l : In x (sort_desc key l) <-> In x l.
Proof.
  split; apply Permutation_in; [symmetry|]; apply sort_desc_perm.
Qed.

End SortingFacts.

Lemma firstn_In {A} (x : A) n l : In x (firstn n l) -> In x l.
Proof.
  intros Hin. rewrite <- (firstn_skipn n l). apply in_or_app. now left.
Qed.

Lemma StronglySorted_firstn {A} (R : A -> A -> Prop) n l :
  StronglySorted R l -> StronglySorted R (firstn n l).
Proof.
  intros S. revert n. induction S as [|x l _ IH Hx]; intros [|n]; simpl;
    try constructor.
  - apply IH.
  - apply List.Forall_forall. intros y Hy.
    rewrite List.Forall_forall in Hx. apply Hx.
    eapply firstn_In, Hy.
Qed.

(** ** C7: suggestions *)

Lemma loose_suggestions_ranked `{Vectorizer} dev pool cfg :
  let scope := in_scope (loose_norm (get_primary_field dev Floor))
                        (loose_norm (get_primary_field dev Room)) in
  loose_suggestions dev pool cfg =
    List.map suggestion_of
      (firstn 3 (sort_desc snd (List.map (fun e => (e, loose_score dev e))
                                         (List.filter scope pool)))).
Proof.
  cbv zeta. unfold loose_suggestions.
  destruct (truthy _ && is_nil _) eqn:E; [|reflexivity].
  apply Bool.andb_true_iff in E as [_ E]. apply is_nil_true in E.
  rewrite E. reflexivity.
Qed.

Lemma in_scope_floor rf rr e :
  rf <> [] -> in_scope rf rr e = true ->
  let ef := loose_norm (get_primary_field e Floor) in
  ef <> [] /\ (str_in rf ef = true \/ str_in ef rf = true).
Proof.
  intros Hrf. unfold in_scope. cbv zeta.
  apply truthy_true in Hrf. rewrite Hrf. simpl.
  destruct (truthy (loose_norm (get_primary_field e Floor))) eqn:Ef; simpl;
    [|discriminate].
  destruct (str_in rf _ || str_in _ rf) eqn:M; simpl; [|discriminate].
  intros _. split; [apply truthy_true, Ef|].
  apply Bool.orb_true_iff, M.
Qed.

Lemma in_scope_room rf rr e :
  rr <> [] -> in_scope rf rr e = true ->
  let er := loose_norm (get_primary_field e Room) in
  er <> [] -> str_in rr er = true \/ str_in er rr = true.
Proof.
  intros Hrr. unfold in_scope. cbv zeta.
  apply truthy_true in Hrr. rewrite Hrr.
  destruct (truthy rf && _); [discriminate|].
  intros Hs Her. apply truthy_true in Her. rewrite Her in Hs. simpl in Hs.
  apply Bool.orb_true_iff, Hs.
Qed.

(** C7, as amended.  When the request names a floor whose normal form
    (lower case, underscores, hyphens and spaces removed, trimmed) is not
    empty and no entity of the pool has any floor field, there is no
    suggestion.  In every case the suggestions are the first three, at
    most, of the pool restricted to the requested floor and room, in
    non-increasing order of the ungated score
    0.15 floor + 0.40 room + 0.30 name + 0.15 type, whatever weights the
    configuration carries; and [process] attaches exactly these to a
    request without ranked target. *)
Theorem C7_suggestions_scoped `{Vectorizer} (dev : Obj) (pool : list Obj) (config : Config) :
  let rf := loose_norm (get_primary_field dev Floor) in
  let rr := loose_norm (get_primary_field dev Room) in
  let weighted e :=
    0.15 * field_similarity (get_primary_field dev Floor) (extract_field_candidates e Floor)
    + 0.40 * field_similarity (get_primary_field dev Room) (extract_field_candidates e Room)
    + 0.30 * field_similarity (get_primary_field dev Name) (extract_field_candidates e Name)
    + 0.15 * field_similarity (get_primary_field dev Type_) (extract_field_candidates e Type_) in
  (rf <> [] -> (forall e, In e pool -> get_primary_field e Floor = []) ->
   loose_suggestions dev pool config = []) /\
  (exists items : list (Obj * Q),
      Permutation items
        (List.map (fun e => (e, weighted e)) (List.filter (in_scope rf rr) pool)) /\
      StronglySorted (desc snd) items /\
      loose_suggestions dev pool config = List.map suggestion_of (firstn 3 items)) /\
  (length (loose_suggestions dev pool config) <= 3)%nat /\
  (forall e, in_scope rf rr e = true ->
     (rf <> [] ->
      loose_norm (get_primary_field e Floor) <> [] /\
      (str_in rf (loose_norm (get_primary_field e Floor)) = true
       \/ str_in (loose_norm (get_primary_field e Floor)) rf = true)) /\
     (rr <> [] -> loose_norm (get_primary_field e Room) <> [] ->
      str_in rr (loose_norm (get_primary_field e Room)) = true
      \/ str_in (loose_norm (get_primary_field e Room)) rr = true)) /\
  (forall indices p type_index a m,
      config = cfg p ->
      pool = filter_candidates dev (entities p) type_index ->
      process_device indices p type_index dev = Ok (a, m) ->
      targets a = [] -> suggestions_if_empty a = loose_suggestions dev pool config).
Proof.
  cbv zeta. split; [|split; [|split; [|split]]].
  - intros Hrf Hnone. rewrite loose_suggestions_ranked. cbv zeta.
    replace (List.filter _ pool) with (@nil Obj); [reflexivity|].
    symmetry. induction pool as [|e r IH]; [reflexivity|]. simpl.
    assert (Hs : in_scope (loose_norm (get_primary_field dev Floor))
                          (loose_norm (get_primary_field dev Room)) e = false).
    { unfold in_scope. rewrite (Hnone e (or_introl eq_refl)).
      apply truthy_true in Hrf. rewrite Hrf. reflexivity. }
    rewrite Hs. apply IH. intros e' He'. apply Hnone. now right.
  - eexists. split; [symmetry; apply sort_desc_perm|].
    split; [apply sort_desc_sorted|]. apply loose_suggestions_ranked.
  - rewrite loose_suggestions_ranked. cbv zeta.
    rewrite length_map. apply firstn_le_length.
  - intros e Hs. split.
    + intros Hrf. apply (in_scope_floor _ _ _ Hrf Hs).
    + intros Hrr. apply (in_scope_room _ _ _ Hrr Hs).
  - intros indices p type_index a m -> -> Hp Ht.
    unfold process_device in Hp.
    destruct (rank indices dev _ (aliases p) (cfg p)) as [top|exc]; [|discriminate].
    simpl in Hp. injection Hp as <- _. simpl in *.
    destruct top; [reflexivity|discriminate].
Qed.

Lemma C7_suggestions_scoped_witness :
  @loose_suggestions no_overlap (request_of "2" "" "" "light")
     [no_floor_lamp; entity_of (py "light.porch") "porch" ""] default_config = [].
Proof.
  refine (proj1 (@C7_suggestions_scoped no_overlap _ _ _) _ _).
  - vm_compute. discriminate.
  - intros e [<-|[<-|[]]]; reflexivity.
Defined.

(** C7, as stated, fails.  The request names the floor ["-"], no entity
    has any floor field, nothing is ranked, and [process] still returns
    a suggestion: the floor has an empty normal form, so the pool is not
    scoped by floor. *)
Lemma C7_separator_floor_gets_suggestion :
  let p := batch [dash_floor_request] [no_floor_lamp] default_config in
  get_primary_field dash_floor_request Floor = py "-" /\
  (forall e, In e (entities p) -> get_primary_field e Floor = []) /\
  exists out a,
    fst (@process no_overlap p ∅) = Ok out /\
    actions out = [a] /\
    rq_floor (request a) = py "-" /\
    targets a = [] /\
    List.map s_entity_id (suggestions_if_empty a) = [py "light.hall"].
Proof.
  cbv zeta. split; [reflexivity|]. split.
  - intros e [<-|[]]. reflexivity.
  - eexists. eexists. split; [vm_compute; reflexivity|].
    split; [reflexivity|]. repeat split.
Qed.

(** ** Rounding to three decimals *)

Lemma round_half_even_bounds y :
  (Qfloor y <= round_half_even y <= Qfloor y + 1)%Z.
Proof.
  unfold round_half_even.
  destruct (Qcompare _ _); [destruct (Z.even _)| |]; lia.
Qed.

Lemma round_half_even_mono y y' :
  y <= y' -> (round_half_even y <= round_half_even y')%Z.
Proof.
  intros L.
  pose proof (Qfloor_resp_le _ _ L) as F.
  pose proof (round_half_even_bounds y) as B.
  pose proof (round_half_even_bounds y') as B'.
  destruct (Z.eq_dec (Qfloor y) (Qfloor y')) as [E|NE]; [|lia].
  unfold round_half_even. rewrite <- E.
  destruct (Qcompare (y - inject_Z (Qfloor y)) (1 # 2)) eqn:C;
    destruct (Qcompare (y' - inject_Z (Qfloor y)) (1 # 2)) eqn:C';
    try (destruct (Z.even (Qfloor y))); try lia; exfalso;
    repeat match goal with
      | H : Qcompare _ _ = Eq |- _ => apply Qeq_alt in H
      | H : Qcompare _ _ = Lt |- _ => apply Qlt_alt in H
      | H : Qcompare _ _ = Gt |- _ => apply Qgt_alt in H
      end; lra.
Qed.

Lemma round3_mono x x' : x <= x' -> round3 x <= round3 x'.
Proof.
  intros L. unfold round3.
  assert (M : x * 1000 <= x' * 1000) by lra.
  apply round_half_even_mono in M.
  rewrite Zle_Qle in M. unfold Qdiv.
  apply Qmult_le_compat_r; [exact M|]. discriminate.
Qed.

Lemma round3_nonneg x : 0 <= x -> 0 <= round3 x.
Proof.
  intros L. apply Qle_trans with (round3 0); [|apply round3_mono, L].
  vm_compute. discriminate.
Qed.

(** ** C2: the ranked list of a request *)

Lemma Qge_bool_iff x y : Qge_bool x y = true <-> y <= x.
Proof. unfold Qge_bool. apply Qle_bool_iff. Qed.

Lemma slice_to_In {A} (x : A) l k : In x (slice_to l k) -> In x l.
Proof. unfold slice_to. destruct (0 <=? k)%Z; apply firstn_In. Qed.

Lemma slice_to_sorted {A} (R : A -> A -> Prop) l k :
  StronglySorted R l -> StronglySorted R (slice_to l k).
Proof. unfold slice_to. destruct (0 <=? k)%Z; apply StronglySorted_firstn. Qed.

Lemma slice_to_length {A} (l : list A) k :
  (0 <= k)%Z -> (Z.of_nat (length (slice_to l k)) <= k)%Z.
Proof.
  intros Hk. unfold slice_to.
  destruct (Z.leb_spec 0 k) as [_|C]; [|lia].
  pose proof (firstn_le_length (Z.to_nat k) l).
  rewrite length_firstn. lia.
Qed.

(** A negative bound counts from the end of the list. *)
Lemma slice_to_negative {A} (l : list A) k :
  (k < 0)%Z -> length (slice_to l k) = (length l - Z.to_nat (- k))%nat.
Proof.
  intros Hk. unfold slice_to.
  destruct (Z.leb_spec 0 k) as [C|_]; [lia|].
  rewrite length_firstn. lia.
Qed.

Lemma score_pool_spec `{Vectorizer} indices dev pool al config scored :
  score_pool indices dev pool al config = Ok scored ->
  forall it, In it scored ->
    In (si_e it) pool /\
    compute_scores_for_device indices dev (si_e it) al config
      = Ok (si_score it, si_ev it) /\
    0 <= si_score it.
Proof.
  revert scored. induction pool as [|e rest IH]; simpl; intros scored Hs it Hin.
  - injection Hs as <-. destruct Hin.
  - destruct (compute_scores_for_device indices dev e al config) as [[s ev]|exc] eqn:C;
      [|discriminate]. simpl in Hs.
    destruct (score_pool indices dev rest al config) as [scored'|exc]; [|discriminate].
    simpl in Hs. injection Hs as <-.
    destruct (Qge_bool s 0) eqn:G.
    + destruct Hin as [<-|Hin]; simpl.
      * split; [now left|]. split; [exact C|]. apply Qge_bool_iff, G.
      * destruct (IH scored' eq_refl it Hin) as (? & ? & ?). auto.
    + destruct (IH scored' eq_refl it Hin) as (? & ? & ?). auto.
Qed.

Lemma rank_spec `{Vectorizer} indices dev pool al config top :
  rank indices dev pool al config = Ok top ->
  (forall it, In it top ->
     In (si_e it) pool /\
     compute_scores_for_device indices dev (si_e it) al config
       = Ok (si_score it, si_ev it) /\
     0 <= si_score it) /\
  StronglySorted (desc si_score) top /\
  ((0 <= get_or (topK config) 100)%Z ->
   (Z.of_nat (length top) <= get_or (topK config) 100)%Z).
Proof.
  unfold rank. intros Hr.
  destruct (score_pool indices dev pool al config) as [scored|exc] eqn:S; [|discriminate].
  simpl in Hr. injection Hr as <-. split; [|split].
  - intros it Hit. apply (score_pool_spec _ _ _ _ _ _ S).
    apply (sort_desc_In si_score). eapply slice_to_In, Hit.
  - apply slice_to_sorted, sort_desc_sorted.
  - apply slice_to_length.
Qed.

Lemma map_sorted {A B} (f : A -> B) (R : A -> A -> Prop) (R' : B -> B -> Prop) l :
  (forall x y, R x y -> R' (f x) (f y)) ->
  StronglySorted R l -> StronglySorted R' (List.map f l).
Proof.
  intros HR. induction 1 as [|x l _ IH Hx]; simpl; constructor; [exact IH|].
  apply List.Forall_map. eapply List.Forall_impl; [|exact Hx]. intros y. apply HR.
Qed.

Lemma process_devices_actions `{Vectorizer} indices p type_index devs out0 out a :
  process_devices indices p type_index devs out0 = Ok out ->
  In a (actions out) ->
  In a (actions out0) \/
  exists dev m, In dev devs /\ process_device indices p type_index dev = Ok (a, m).
Proof.
  revert out0. induction devs as [|dev rest IH]; simpl; intros out0 Hp Hin.
  - injection Hp as <-. now left.
  - destruct (process_device indices p type_index dev) as [[a' m']|exc] eqn:D;
      [|discriminate]. simpl in Hp.
    destruct (IH _ Hp Hin) as [Hold|(dev' & m & Hd & Hpd)].
    + simpl in Hold. apply in_app_or in Hold as [Hold|[<-|[]]]; [now left|].
      right. exists dev, m'. split; [now left|exact D].
    + right. exists dev', m. split; [now right|exact Hpd].
Qed.

(** One action per device request, in the order of the requests. *)
Lemma process_devices_length `{Vectorizer} indices p type_index devs out0 out :
  process_devices indices p type_index devs out0 = Ok out ->
  length (actions out) = (length (actions out0) + length devs)%nat.
Proof.
  revert out0. induction devs as [|dev rest IH]; simpl; intros out0 Hp.
  - injection Hp as <-. lia.
  - destruct (process_device indices p type_index dev) as [[a' m']|exc]; [|discriminate].
    simpl in Hp. rewrite (IH _ Hp). simpl. rewrite length_app. simpl. lia.
Qed.

Lemma index_within_insert (index : TypeIndex) ents k l :
  index_within index ents -> (forall e, In e l -> In e ents) ->
  index_within (<[k := l]> index) ents.
Proof.
  intros W Hl k' l' e Hk He.
  rewrite lookup_insert in Hk. destruct (decide (k = k')) as [_|_].
  - injection Hk as <-. auto.
  - eapply W; eauto.
Qed.

Lemma index_within_get (index : TypeIndex) ents k e :
  index_within index ents -> In e (get_or (index !! k) []) -> In e ents.
Proof.
  intros W. destruct (index !! k) as [l|] eqn:E; simpl; [|tauto].
  intros He. eapply W; eauto.
Qed.

Lemma index_entity_within index ents e :
  index_within index ents -> In e ents -> index_within (index_entity index e) ents.
Proof.
  intros W He. unfold index_entity.
  set (index1 := if truthy _ then _ else index).
  assert (W1 : index_within index1 ents).
  { subst index1. destruct (truthy _); [|exact W].
    destruct (truthy _); [|exact W].
    apply index_within_insert; [exact W|].
    intros e' He'. apply in_app_or in He' as [He'|[<-|[]]]; [|exact He].
    eapply index_within_get; eauto. }
  destruct (truthy (device_type e)); [|exact W1].
  destruct (_ && _); [|exact W1].
  destruct (bool_decide _); apply index_within_insert; try exact W1.
  - intros e' He'. eapply index_within_get; eauto.
  - intros e' He'. apply in_app_or in He' as [He'|[<-|[]]]; [|exact He].
    eapply index_within_get; eauto.
Qed.

Lemma fold_index_within ents all index :
  index_within index all -> (forall e, In e ents -> In e all) ->
  index_within (fold_left index_entity ents index) all.
Proof.
  revert index. induction ents as [|e r IH]; simpl; intros index W Hsub; [exact W|].
  apply IH; [|auto]. apply index_entity_within; auto.
Qed.

Lemma build_type_index_within ents : index_within (build_type_index ents) ents.
Proof.
  apply fold_index_within; [|auto].
  intros k l e Hk. rewrite lookup_empty in Hk. discriminate.
Qed.

Lemma type_pool_incl dev ents type_index e :
  index_within type_index ents -> In e (type_pool dev ents type_index) -> In e ents.
Proof.
  intros W. unfold type_pool.
  repeat match goal with
         | |- context [if ?b then _ else _] => destruct b
         end; try tauto; apply index_within_get, W.
Qed.

Lemma filter_candidates_incl dev ents e :
  In e (filter_candidates dev ents (build_type_index ents)) -> In e ents.
Proof.
  intros Hin. unfold filter_candidates in Hin.
  apply narrow_incl, narrow_incl in Hin.
  eapply type_pool_incl; [apply build_type_index_within|exact Hin].
Qed.

(** C2, as amended.  In every action of a processed batch the targets
    are accepted candidates only: each has a composite score of at least
    0, hence never the sentinel -1, and was returned by the scorer for
    an entity of the batch; the targets are in non-increasing order of
    score; there are at most [topK] of them (100 by default) whenever
    [topK] is not negative; and suggestions are present only when there
    is no target. *)
Theorem C2_ranked_targets `{Vectorizer} (p : Payload) (st : AliasIndices)
    (out : Output) (a : Action) :
  fst (process p st) = Ok out ->
  In a (actions out) ->
  exists (dev : Obj) (top : list ScoredItem),
    In dev (intent_devices p) /\
    targets a = List.map target_of top /\
    (forall it, In it top ->
       0 <= si_score it /\ ~ si_score it == -1 /\
       In (si_e it) (entities p) /\
       compute_scores_for_device (fresh_alias_indices (aliases p)) dev (si_e it)
         (aliases p) (cfg p) = Ok (si_score it, si_ev it)) /\
    (forall t, In t (targets a) -> 0 <= t_score t) /\
    StronglySorted (desc si_score) top /\
    StronglySorted (desc t_score) (targets a) /\
    ((0 <= get_or (topK (cfg p)) 100)%Z ->
     (Z.of_nat (length (targets a)) <= get_or (topK (cfg p)) 100)%Z) /\
    (suggestions_if_empty a <> [] -> targets a = []).
Proof.
  unfold process. simpl. intros Hp Hin.
  destruct (process_devices_actions _ _ _ _ _ _ _ Hp Hin) as [[]|(dev & m & Hd & Hpd)].
  unfold process_device in Hpd.
  destruct (rank _ dev _ (aliases p) (cfg p)) as [top|exc] eqn:R; [|discriminate].
  simpl in Hpd. injection Hpd as <- _.
  destruct (rank_spec _ _ _ _ _ _ R) as (Hitems & Hsorted & Hlen).
  exists dev, top. simpl.
  split; [exact Hd|]. split; [reflexivity|]. split; [|split; [|split; [|split; [|split]]]].
  - intros it Hit. destruct (Hitems it Hit) as (Hpool & Hc & Hnn).
    split; [exact Hnn|]. split; [|split; [|exact Hc]].
    + intros E. rewrite E in Hnn. revert Hnn. apply Qlt_not_le. reflexivity.
    + apply (filter_candidates_incl dev), Hpool.
  - intros t Ht. apply in_map_iff in Ht as (it & <- & Hit). simpl.
    apply round3_nonneg, Hitems, Hit.
  - exact Hsorted.
  - eapply map_sorted; [|exact Hsorted].
    intros x y. unfold desc. simpl. apply round3_mono.
  - rewrite length_map. exact Hlen.
  - intros Hs. destruct top; [reflexivity|]. simpl in Hs. congruence.
Qed.

Lemma C2_ranked_targets_witness :
  let a := first_action (output_of (fst (@process no_overlap scenario_batch ∅))) in
  List.map t_entity_id (targets a) = [py "light.living_lamp"] /\
  exists (dev : Obj) (top : list ScoredItem),
    In dev (intent_devices scenario_batch) /\
    targets a = List.map target_of top /\
    (forall it, In it top ->
       0 <= si_score it /\ ~ si_score it == -1 /\
       In (si_e it) (entities scenario_batch) /\
       @compute_scores_for_device no_overlap
         (fresh_alias_indices (aliases scenario_batch)) dev (si_e it)
         (aliases scenario_batch) (cfg scenario_batch) = Ok (si_score it, si_ev it)) /\
    (forall t, In t (targets a) -> 0 <= t_score t) /\
    StronglySorted (desc si_score) top /\
    StronglySorted (desc t_score) (targets a) /\
    ((0 <= get_or (topK (cfg scenario_batch)) 100)%Z ->
     (Z.of_nat (length (targets a)) <= get_or (topK (cfg scenario_batch)) 100)%Z) /\
    (suggestions_if_empty a <> [] -> targets a = []).
Proof.
  cbv zeta. split; [vm_compute; reflexivity|].
  apply (@C2_ranked_targets no_overlap scenario_batch ∅
           (output_of (fst (@process no_overlap scenario_batch ∅)))).
  - vm_compute. reflexivity.
  - vm_compute. left. reflexivity.
Defined.

(** C2, as stated, fails on the bound: with [topK = -1] the slice
    [scored[:-1]] drops the last of two accepted lamps and returns one
    target, which is more than [topK]. *)
Lemma C2_negative_topK_exceeds_bound :
  let p := batch [scenario_request] [living_lamp; living_spot] topK_minus_one in
  let a := first_action (output_of (fst (@process no_overlap p ∅))) in
  (exists out, fst (@process no_overlap p ∅) = Ok out /\ actions out = [a]) /\
  get_or (topK (cfg p)) 100%Z = (-1)%Z /\
  List.map t_entity_id (targets a) = [py "light.living_lamp"] /\
  ~ (Z.of_nat (length (targets a)) <= get_or (topK (cfg p)) 100)%Z.
Proof.
  cbv zeta. split; [|split; [|split]].
  - eexists. split; vm_compute; reflexivity.
  - reflexivity.
  - vm_compute. reflexivity.
  - vm_compute. intros C. apply C. reflexivity.
Qed.

(** ** C9: no alias index survives from one batch to the next *)

(** The alias lookups of a batch do depend on the index they read: under
    an index left by a batch that declared [lamp] an alias of [light],
    [expand_alias_fast] canonicalises [lamp]; under the index of a batch
    without aliases it does not. *)
Lemma expand_alias_fast_reads_index :
  let stale :=
    fresh_alias_indices {| rooms := []; floors := [];
                           device_types := [(py "light", [py "lamp"])] |} in
  expand_alias_fast stale (py "lamp") "device_types" = [py "light"] /\
  expand_alias_fast (fresh_alias_indices no_aliases) (py "lamp") "device_types"
    = [py "lamp"].
Proof. split; vm_compute; reflexivity. Qed.

Lemma process_state `{Vectorizer} p st :
  snd (process p st) = fresh_alias_indices (aliases p).
Proof. reflexivity. Qed.

Lemma fresh_alias_indices_lookup (a : Aliases) :
  fresh_alias_indices a !! "rooms"%string = Some (build_alias_reverse_index (rooms a)) /\
  fresh_alias_indices a !! "floors"%string = Some (build_alias_reverse_index (floors a)) /\
  fresh_alias_indices a !! "device_types"%string
    = Some (build_alias_reverse_index (device_types a)).
Proof.
  unfold fresh_alias_indices. split; [|split]; reflexivity.
Qed.

(** C9.  The result of [process] on a payload is the same after any two
    histories of earlier batches, started from any two states of the
    global alias index: the three reverse indices the batch reads are
    those built from the alias table of its own payload, and these are
    also what the batch leaves behind. *)
Theorem C9_no_stale_alias_index `{Vectorizer} (p : Payload)
    (history1 history2 : list Payload) (init1 init2 : AliasIndices) :
  let st1 := run_batches history1 init1 in
  let st2 := run_batches history2 init2 in
  fst (process p st1) = fst (process p st2) /\
  fst (process p st1)
    = process_devices (fresh_alias_indices (aliases p)) p
        (build_type_index (entities p)) (intent_devices p)
        {| intent := intent_name p; user_input := user_query p;
           actions := []; matched_devices := [] |} /\
  fresh_alias_indices (aliases p) !! "rooms"%string
    = Some (build_alias_reverse_index (rooms (aliases p))) /\
  fresh_alias_indices (aliases p) !! "floors"%string
    = Some (build_alias_reverse_index (floors (aliases p))) /\
  fresh_alias_indices (aliases p) !! "device_types"%string
    = Some (build_alias_reverse_index (device_types (aliases p))) /\
  snd (process p st1) = fresh_alias_indices (aliases p).
Proof.
  cbv zeta. split; [reflexivity|]. split; [reflexivity|].
  destruct (fresh_alias_indices_lookup (aliases p)) as (R & F & D).
  repeat split; assumption.
Qed.

(** ** C3: the room gate *)

Lemma engine_rejects_on_room `{Vectorizer} indices dev e al config :
  room_pass config (field_scores indices dev e al) = false ->
  compute_scores_for_device indices dev e al config
    = Ok (-1, evidence_of (field_scores indices dev e al)).
Proof.
  intros Hr. unfold compute_scores_for_device, all_pass.
  rewrite Hr, Bool.andb_false_r. reflexivity.
Qed.

Lemma matcher_rejects_on_room `{Vectorizer} device entity :
  let s := Matcher.slots device entity in
  Matcher.room_q s <> [] -> Matcher.room_pass s = false ->
  Matcher.sr_score (Matcher.score_entity device entity) = -1.
Proof.
  cbv zeta. intros Hq Hr. apply truthy_true in Hq.
  unfold Matcher.score_entity.
  assert (A : Matcher.is_all_devices (Matcher.slots device entity) = false).
  { unfold Matcher.is_all_devices. rewrite Hq. simpl.
    rewrite Bool.andb_false_r. reflexivity. }
  assert (R : Matcher.rejected (Matcher.slots device entity) = true).
  { unfold Matcher.rejected, Matcher.floor_only_mode. rewrite Hq, Hr. simpl.
    rewrite Bool.andb_false_r. simpl.
    destruct (_ && _); reflexivity. }
  rewrite A, R. reflexivity.
Qed.

Lemma engine_accepts_on_gates `{Vectorizer} indices dev e al config wF wR wN wT :
  let s := field_scores indices dev e al in
  let W := get_or (weights config) default_weights in
  room_q s = [] \/ 0.98 <= room_score s ->
  floor_pass config s = true -> type_pass config s = true -> name_pass config s = true ->
  w_F W = Some wF -> w_R W = Some wR -> w_N W = Some wN -> w_T W = Some wT ->
  compute_scores_for_device indices dev e al config
  = Ok (weighted_sum wF wR wN wT
          (if truthy (floor_q s) then floor_score s else 0.90)
          (room_score s)
          (if is_generic s then 0.85 else name_score s)
          (type_score s)
        + location_bonus s,
        evidence_of s).
Proof.
  cbv zeta. intros Hroom Hf Ht Hn HF HR HN HT.
  assert (Hr : room_pass config (field_scores indices dev e al) = true).
  { unfold room_pass. destruct Hroom as [E|L]; [rewrite E; reflexivity|].
    destruct (truthy _); [apply Qge_bool_iff, L|reflexivity]. }
  unfold compute_scores_for_device, all_pass.
  rewrite Hf, Hr, Ht, Hn, HF, HR, HN, HT. reflexivity.
Qed.

Lemma matcher_accepts_on_gates `{Vectorizer} device entity :
  let s := Matcher.slots device entity in
  Matcher.room_q s = [] \/ Matcher.THRESHOLDS_room <= Matcher.room_score s ->
  Matcher.floor_pass s = true -> Matcher.type_pass s = true ->
  Matcher.name_pass s = true ->
  (Matcher.floor_only_mode s = true -> 0.95 <= Matcher.type_score s) ->
  Matcher.sr_score (Matcher.score_entity device entity)
  = if Matcher.is_all_devices s then 0.80
    else Matcher.base_score s + Matcher.location_match_bonus s + Matcher.exact_bonus s
         + fst (Matcher.domain_check device entity s).
Proof.
  cbv zeta. intros Hroom Hf Ht Hn Hfo.
  assert (Hr : Matcher.room_pass (Matcher.slots device entity) = true).
  { unfold Matcher.room_pass. destruct Hroom as [E|L]; [rewrite E; reflexivity|].
    destruct (truthy _); [apply Qge_bool_iff, L|reflexivity]. }
  unfold Matcher.score_entity.
  destruct (Matcher.is_all_devices _) eqn:A.
  - unfold Matcher.is_all_devices in A.
    apply Bool.andb_true_iff in A as [_ Tq].
    unfold Matcher.type_pass in Ht. rewrite Tq in Ht. rewrite Tq, Ht. reflexivity.
  - assert (Rj : Matcher.rejected (Matcher.slots device entity) = false).
    { unfold Matcher.rejected. rewrite Hf, Hr, Ht, Hn.
      destruct (Matcher.floor_only_mode _).
      - specialize (Hfo eq_refl). apply Qle_bool_iff in Hfo. rewrite Hfo. reflexivity.
      - cbn [negb orb]. rewrite Bool.andb_false_r.
        destruct (_ && _); reflexivity. }
    rewrite Rj. destruct (Matcher.domain_check _ _ _). reflexivity.
Qed.

(** C3.  In [score_entity] a request that names a room passes the room
    gate exactly when the room score reaches the configured threshold
    [THRESHOLDS["room"]], which is 0.70: a pair whose room score is
    below it is rejected with the sentinel, and a pair whose room score
    reaches it, or whose request names no room, is scored as soon as
    the other gates pass.  In [compute_scores_for_device] the gate asks
    for 0.98 instead, whatever thresholds the configuration carries,
    with the same two outcomes. *)
Theorem C3_room_gate `{Vectorizer} :
  Matcher.THRESHOLDS_room == 0.70 /\
  (forall device entity,
      let s := Matcher.slots device entity in
      let r := Matcher.score_entity device entity in
      (Matcher.room_q s = [] -> Matcher.room_pass s = true) /\
      (Matcher.room_q s <> [] ->
       (Matcher.room_pass s = true <-> Matcher.THRESHOLDS_room <= Matcher.room_score s)) /\
      (Matcher.room_q s <> [] -> Matcher.room_pass s = false ->
       Matcher.sr_score r = -1) /\
      (Matcher.room_q s <> [] -> ~ Matcher.THRESHOLDS_room <= Matcher.room_score s ->
       Matcher.sr_score r = -1) /\
      (Matcher.room_q s = [] \/ Matcher.THRESHOLDS_room <= Matcher.room_score s ->
       Matcher.floor_pass s = true -> Matcher.type_pass s = true ->
       Matcher.name_pass s = true ->
       (Matcher.floor_only_mode s = true -> 0.95 <= Matcher.type_score s) ->
       Matcher.sr_score r
       = if Matcher.is_all_devices s then 0.80
         else Matcher.base_score s + Matcher.location_match_bonus s
              + Matcher.exact_bonus s + fst (Matcher.domain_check device entity s))) /\
  (forall indices dev e al config,
      let s := field_scores indices dev e al in
      let W := get_or (weights config) default_weights in
      (room_q s = [] -> room_pass config s = true) /\
      (room_q s <> [] -> (room_pass config s = true <-> 0.98 <= room_score s)) /\
      (room_pass config s = false ->
       compute_scores_for_device indices dev e al config = Ok (-1, evidence_of s)) /\
      (room_q s <> [] -> ~ 0.98 <= room_score s ->
       compute_scores_for_device indices dev e al config = Ok (-1, evidence_of s)) /\
      (forall wF wR wN wT,
          room_q s = [] \/ 0.98 <= room_score s ->
          floor_pass config s = true -> type_pass config s = true ->
          name_pass config s = true ->
          w_F W = Some wF -> w_R W = Some wR -> w_N W = Some wN -> w_T W = Some wT ->
          compute_scores_for_device indices dev e al config
          = Ok (weighted_sum wF wR wN wT
                  (if truthy (floor_q s) then floor_score s else 0.90)
                  (room_score s)
                  (if is_generic s then 0.85 else name_score s)
                  (type_score s)
                + location_bonus s,
                evidence_of s))).
Proof.
  split; [reflexivity|]. split.
  - intros device entity s r.
    assert (Iff : Matcher.room_q s <> [] ->
                  (Matcher.room_pass s = true
                   <-> Matcher.THRESHOLDS_room <= Matcher.room_score s)).
    { intros Hq. apply truthy_true in Hq. unfold Matcher.room_pass. rewrite Hq.
      apply Qge_bool_iff. }
    split; [|split; [exact Iff|split; [|split]]].
    + intros E. unfold Matcher.room_pass. rewrite E. reflexivity.
    + apply matcher_rejects_on_room.
    + intros Hq Hlow. apply matcher_rejects_on_room; [exact Hq|].
      apply Bool.not_true_is_false. intros P. apply Hlow, (Iff Hq), P.
    + apply matcher_accepts_on_gates.
  - intros indices dev e al config s W.
    assert (Iff : room_q s <> [] -> (room_pass config s = true <-> 0.98 <= room_score s)).
    { intros Hq. apply truthy_true in Hq. unfold room_pass. rewrite Hq.
      apply Qge_bool_iff. }
    split; [|split; [exact Iff|split; [|split]]].
    + intros E. unfold room_pass. rewrite E. reflexivity.
    + apply engine_rejects_on_room.
    + intros Hq Hlow. apply engine_rejects_on_room.
      apply Bool.not_true_is_false. intros P. apply Hlow, (Iff Hq), P.
    + intros wF wR wN wT. apply engine_accepts_on_gates.
Qed.

Lemma C3_room_gate_witness :
  (@compute_scores_for_device no_overlap (fresh_alias_indices no_aliases)
     scenario_request bedroom_lamp no_aliases default_config
   = Ok (-1, evidence_of (@field_scores no_overlap (fresh_alias_indices no_aliases)
                            scenario_request bedroom_lamp no_aliases)) /\
   exists score ev,
     @compute_scores_for_device no_overlap (fresh_alias_indices no_aliases)
       scenario_request living_lamp no_aliases default_config = Ok (score, ev)
     /\ score == 0.685) /\
  (Matcher.sr_score (@Matcher.score_entity no_overlap scenario_request bedroom_lamp) = -1 /\
   Matcher.sr_score (@Matcher.score_entity no_overlap scenario_request living_lamp)
   == 1.04).
Proof.
  destruct (@C3_room_gate no_overlap) as (_ & Hfirst & Hengine).
  split; [split|split].
  - apply (proj1 (proj2 (proj2 (proj2
             (Hengine (fresh_alias_indices no_aliases) scenario_request bedroom_lamp
                no_aliases default_config))))).
    + vm_compute. discriminate.
    + vm_compute. intros L. apply L. reflexivity.
  - eexists. eexists. split.
    + apply (proj2 (proj2 (proj2 (proj2
               (Hengine (fresh_alias_indices no_aliases) scenario_request living_lamp
                  no_aliases default_config)))) 0.15 0.40 0.30 0.15);
        try reflexivity.
      right. vm_compute. discriminate.
    + vm_compute. reflexivity.
  - apply (proj1 (proj2 (proj2 (proj2 (Hfirst scenario_request bedroom_lamp))))).
    + vm_compute. discriminate.
    + vm_compute. intros L. apply L. reflexivity.
  - rewrite (proj2 (proj2 (proj2 (proj2 (Hfirst scenario_request living_lamp))))).
    + vm_compute. reflexivity.
    + right. vm_compute. discriminate.
    + vm_compute. reflexivity.
    + vm_compute. reflexivity.
    + vm_compute. reflexivity.
    + vm_compute. discriminate.
Defined.

(** ** C8: input validation *)

Local Open Scope string_scope.

Lemma path_get_dict v key rest w :
  path_get v (key :: rest) = Some w ->
  exists members u, v = JObj members /\ assoc key members = Some u /\ path_get u rest = Some w.
Proof.
  simpl. destruct v; try discriminate.
  destruct (assoc key members) as [u|] eqn:E; [|discriminate].
  intros Hp. eauto.
Qed.

Lemma missing_or_not_list_dec seq :
  missing_or_not_list seq \/ exists items, seq = Some (JList items).
Proof.
  destruct seq as [[]|]; simpl; eauto.
Qed.

(** The validation accepts exactly the payloads that carry both
    sequences as lists. *)
Lemma validate_input_accepts payload :
  fst (validate_input payload) = true <->
  (exists devs ents,
      device_sequence payload = Some (JList devs) /\
      entity_sequence payload = Some (JList ents)).
Proof.
  unfold validate_input, device_sequence, entity_sequence, is_wrapped.
  destruct payload as [| | | | |members]; simpl;
    try (split; [discriminate|intros (? & ? & ? & ?); discriminate]).
  destruct (match assoc "intention_data" members with Some _ => true | None => false end
            || match assoc "entities_data" members with Some _ => true | None => false end)
    eqn:W.
  - destruct (assoc "intention_data" members) as [[| | | | |im]|]; simpl;
      try (split; [discriminate|intros (? & ? & ? & ?); discriminate]).
    + destruct (assoc "data" im) as [[| | | | |dm]|]; simpl;
        try (split; [discriminate|intros (? & ? & ? & ?); discriminate]).
      destruct (assoc "devices" dm) as [[| | | |devs|]|]; simpl;
        try (split; [discriminate|intros (? & ? & ? & ?); discriminate]).
      destruct (assoc "entities_data" members) as [[| | | | |em]|]; simpl;
        try (split; [discriminate|intros (? & ? & ? & ?); discriminate]).
      destruct (assoc "data" em) as [[| | | | |edm]|]; simpl;
        try (split; [discriminate|intros (? & ? & ? & ?); discriminate]).
      destruct (assoc "entities" edm) as [[| | | |ents|]|]; simpl;
        try (split; [discriminate|intros (? & ? & ? & ?); discriminate]).
      split; [eauto|reflexivity].
  - destruct (assoc "entities" members) as [[| | | |ents|]|]; simpl;
      try (split; [discriminate|intros (? & ? & ? & ?); discriminate]).
    destruct (assoc "intent_devices" members) as [[| | | |devs|]|]; simpl;
      try (split; [discriminate|intros (? & ? & ? & ?); discriminate]).
    split; [eauto|reflexivity].
Qed.








Local Close Scope string_scope.

(** ** C1 and C4: the composite score *)

Local Open Scope Q_scope.

(** The engine: an accepted pair gets the weighted sum and the location
    bonus, and nothing else. *)
Lemma engine_accepted_score `{Vectorizer} indices dev e al config wF wR wN wT :
  let s := field_scores indices dev e al in
  let W := get_or (weights config) default_weights in
  w_F W = Some wF -> w_R W = Some wR -> w_N W = Some wN -> w_T W = Some wT ->
  all_pass config s = true ->
  compute_scores_for_device indices dev e al config
  = Ok (weighted_sum wF wR wN wT
          (if truthy (floor_q s) then floor_score s else 0.90)
          (room_score s)
          (if is_generic s then 0.85 else name_score s)
          (type_score s)
        + location_bonus s,
        evidence_of s).
Proof.
  cbv zeta. intros HF HR HN HT Hp. unfold compute_scores_for_device.
  rewrite Hp, HF, HR, HN, HT. reflexivity.
Qed.

Lemma engine_rejected_score `{Vectorizer} indices dev e al config :
  all_pass config (field_scores indices dev e al) = false ->
  compute_scores_for_device indices dev e al config
  = Ok (-1, evidence_of (field_scores indices dev e al)).
Proof. intros Hp. unfold compute_scores_for_device. rewrite Hp. reflexivity. Qed.

Lemma engine_location_bonus `{Vectorizer} indices dev e al :
  let s := field_scores indices dev e al in
  let extracted := detect_location_from_name (name_q s) (rooms al) in
  location_bonus s =
    if truthy (name_q s) && truthy extracted && truthy (normalize extracted)
       && str_eqb (normalize extracted) (normalize (get_primary_field e Room))
    then 0.4 else 0.
Proof.
  cbv zeta. unfold field_scores. simpl.
  destruct (truthy (get_primary_field dev Name)); simpl; [|reflexivity].
  destruct (truthy (detect_location_from_name _ _)); simpl; [|reflexivity].
  reflexivity.
Qed.

(** The actions of the engine never carry a warning. *)
Lemma process_no_warnings `{Vectorizer} p st out a :
  fst (process p st) = Ok out -> In a (actions out) -> warnings a = [].
Proof.
  unfold process. simpl. intros Hp Hin.
  destruct (process_devices_actions _ _ _ _ _ _ _ Hp Hin) as [[]|(dev & m & _ & Hpd)].
  unfold process_device in Hpd.
  destruct (rank _ dev _ (aliases p) (cfg p)); [|discriminate].
  simpl in Hpd. injection Hpd as <- _. reflexivity.
Qed.

(** The first generation: the score of a pair that is neither in the
    all-devices mode nor rejected. *)
Lemma matcher_accepted_score `{Vectorizer} device entity :
  let s := Matcher.slots device entity in
  Matcher.is_all_devices s = false -> Matcher.rejected s = false ->
  Matcher.sr_score (Matcher.score_entity device entity)
  = Matcher.base_score s + Matcher.location_match_bonus s + Matcher.exact_bonus s
    + fst (Matcher.domain_check device entity s) /\
  Matcher.sr_warnings (Matcher.score_entity device entity)
  = snd (Matcher.domain_check device entity s).
Proof.
  cbv zeta. intros Ha Hr. unfold Matcher.score_entity. rewrite Ha, Hr.
  destruct (Matcher.domain_check device entity _). split; reflexivity.
Qed.

Lemma matcher_all_devices_score `{Vectorizer} device entity :
  let s := Matcher.slots device entity in
  Matcher.is_all_devices s = true ->
  Matcher.sr_score (Matcher.score_entity device entity) = 0.80
  \/ Matcher.sr_score (Matcher.score_entity device entity) = -1.
Proof.
  cbv zeta. intros Ha. unfold Matcher.score_entity. rewrite Ha.
  destruct (_ && _); [left|right]; reflexivity.
Qed.

(** A similarity of an absent query is 0, so a score of 0.98 or more
    implies that the field was requested. *)
Lemma slot_similarity_no_query `{Vectorizer} candidates :
  Matcher.sim_score (Matcher.slot_similarity [] candidates) = 0.
Proof. reflexivity. Qed.

Lemma matcher_room_requested `{Vectorizer} device entity :
  let s := Matcher.slots device entity in
  0.98 <= Matcher.room_score s -> truthy (Matcher.room_q s) = true.
Proof.
  cbv zeta. unfold Matcher.slots. simpl.
  destruct (truthy (Matcher.or_else (room_name_en device) _)); [reflexivity|].
  intros C. exfalso. revert C. apply Qlt_not_le. reflexivity.
Qed.

Lemma matcher_floor_requested `{Vectorizer} device entity :
  let s := Matcher.slots device entity in
  0.98 <= Matcher.floor_score s -> truthy (Matcher.floor_q s) = true.
Proof.
  cbv zeta. unfold Matcher.slots. simpl.
  destruct (truthy (Matcher.or_else (floor_name_en device) _)); [reflexivity|].
  intros C. exfalso. revert C. apply Qlt_not_le. reflexivity.
Qed.

Lemma matcher_name_requested `{Vectorizer} device entity :
  let s := Matcher.slots device entity in
  0.98 <= Matcher.sim_score (Matcher.name_sim s) -> truthy (Matcher.name_q s) = true.
Proof.
  cbv zeta. unfold Matcher.slots. simpl.
  destruct (Matcher.or_else (device_name_en device) (device_name device)) eqn:E;
    [|reflexivity].
  intros C. exfalso. revert C. apply Qlt_not_le. reflexivity.
Qed.

Lemma matcher_exact_bonus `{Vectorizer} device entity :
  let s := Matcher.slots device entity in
  Matcher.exact_bonus s =
    (if Qge_bool (Matcher.room_score s) 0.98 then 0.10 else 0)
    + (if negb (Matcher.is_generic_device_name (Matcher.name_q s))
          && Qge_bool (Matcher.sim_score (Matcher.name_sim s)) 0.98 then 0.05 else 0)
    + (if Qge_bool (Matcher.floor_score s) 0.98 then 0.03 else 0).
Proof.
  cbv zeta. unfold Matcher.exact_bonus.
  f_equal; [f_equal|].
  - destruct (Qge_bool (Matcher.room_score _) 0.98) eqn:G;
      [|rewrite Bool.andb_false_r; reflexivity].
    apply Qge_bool_iff, matcher_room_requested in G. rewrite G. reflexivity.
  - destruct (Qge_bool (Matcher.sim_score _) 0.98) eqn:G;
      [|rewrite !Bool.andb_false_r; reflexivity].
    apply Qge_bool_iff, matcher_name_requested in G. rewrite G. reflexivity.
  - destruct (Qge_bool (Matcher.floor_score _) 0.98) eqn:G;
      [|rewrite Bool.andb_false_r; reflexivity].
    apply Qge_bool_iff, matcher_floor_requested in G. rewrite G. reflexivity.
Qed.

(** *** The end-to-end scenario *)

Lemma nth_Forall {A} (P : A -> Prop) (l : list A) (n : nat) (d : A) :
  Forall P l -> P d -> P (nth n l d).
Proof.
  intros Hl Hd. revert n. induction Hl as [|x l Hx _ IH]; intros [|n]; simpl; auto.
Qed.

(** A batch with a single request. *)
Lemma process_single `{Vectorizer} p st dev top :
  intent_devices p = [dev] ->
  rank (fresh_alias_indices (aliases p)) dev
    (filter_candidates dev (entities p) (build_type_index (entities p)))
    (aliases p) (cfg p) = Ok top ->
  exists out a,
    fst (process p st) = Ok out /\
    actions out = [a] /\
    targets a = List.map target_of top /\
    suggestions_if_empty a
    = (if is_nil top
       then loose_suggestions dev
              (filter_candidates dev (entities p) (build_type_index (entities p))) (cfg p)
       else []).
Proof.
  intros Hd Hr. unfold process. cbn [fst]. rewrite Hd.
  cbn [process_devices]. unfold process_device. rewrite Hr.
  cbn [bind]. do 2 eexists. split; [reflexivity|].
  cbn [actions fst app targets suggestions_if_empty]. auto.
Qed.

Section Scenario.
Context `{Vectorizer}.

Let indices := fresh_alias_indices no_aliases.

Lemma scenario_pool :
  filter_candidates scenario_request [living_lamp; bedroom_lamp]
    (build_type_index [living_lamp; bedroom_lamp]) = [living_lamp; bedroom_lamp].
Proof. vm_compute. reflexivity. Qed.

Lemma scenario_engine_living :
  exists score ev,
    compute_scores_for_device indices scenario_request living_lamp no_aliases
      default_config = Ok (score, ev) /\
    score == 0.685 /\ Qge_bool score 0 = true.
Proof.
  eexists. eexists. split; [vm_compute; reflexivity|].
  split; reflexivity.
Qed.

Lemma scenario_engine_bedroom :
  tfidf_best (py "livingroom") [py "bedroom"] < 0.98 ->
  compute_scores_for_device indices scenario_request bedroom_lamp no_aliases
    default_config
  = Ok (-1, evidence_of (field_scores indices scenario_request bedroom_lamp no_aliases)).
Proof.
  intros Hlow. apply engine_rejects_on_room.
  unfold room_pass.
  change (room_score (field_scores indices scenario_request bedroom_lamp no_aliases))
    with (tfidf_best (py "livingroom") [py "bedroom"]).
  change (truthy (room_q (field_scores indices scenario_request bedroom_lamp no_aliases)))
    with true.
  cbv iota. destruct (Qge_bool _ 0.98) eqn:G; [|reflexivity].
  apply Qge_bool_iff in G. exfalso. revert G. apply Qlt_not_le, Hlow.
Qed.

Lemma scenario_engine_rank :
  tfidf_best (py "livingroom") [py "bedroom"] < 0.98 ->
  exists it,
    rank indices scenario_request [living_lamp; bedroom_lamp] no_aliases default_config
    = Ok [it] /\
    si_e it = living_lamp /\ si_score it == 0.685.
Proof.
  intros Hlow.
  destruct scenario_engine_living as (score & ev & Hl & Hs & Hg).
  exists {| si_e := living_lamp; si_score := score; si_ev := ev |}.
  split; [|split; [reflexivity|exact Hs]].
  unfold rank, score_pool.
  rewrite Hl, (scenario_engine_bedroom Hlow). simpl. rewrite Hg. reflexivity.
Qed.

Lemma scenario_engine_targets (st : AliasIndices) :
  tfidf_best (py "livingroom") [py "bedroom"] < 0.98 ->
  exists out a t,
    fst (process scenario_batch st) = Ok out /\
    actions out = [a] /\ targets a = [t] /\
    t_entity_id t = py "light.living_lamp" /\
    suggestions_if_empty a = [].
Proof.
  intros Hlow.
  destruct (scenario_engine_rank Hlow) as (it & Hr & He & _).
  destruct (process_single scenario_batch st scenario_request [it] eq_refl)
    as (out & a & Ho & Ha & Ht & Hs).
  - change (entities scenario_batch) with [living_lamp; bedroom_lamp].
    rewrite scenario_pool. exact Hr.
  - exists out, a, (target_of it). split; [exact Ho|]. split; [exact Ha|].
    split; [exact Ht|]. split; [|exact Hs].
    unfold target_of. cbn [t_entity_id]. rewrite He. reflexivity.
Qed.

Lemma scenario_matcher_living :
  Matcher.is_all_devices (Matcher.slots scenario_request living_lamp) = false /\
  Matcher.rejected (Matcher.slots scenario_request living_lamp) = false /\
  Matcher.base_score (Matcher.slots scenario_request living_lamp) == 0.94 /\
  Matcher.base_score (Matcher.slots scenario_request living_lamp)
  == 0.15 * 0.90 + 0.40 * 1 + 0.30 * 0.85 + 0.15 * 1 /\
  Matcher.sr_score (Matcher.score_entity scenario_request living_lamp) == 1.04.
Proof. repeat split; vm_compute; reflexivity. Qed.

Lemma scenario_matcher_bedroom :
  Forall (fun x => x < 0.70) (tfidf_cosines (py "livingroom") [py "bedroom"]) ->
  Matcher.sr_score (Matcher.score_entity scenario_request bedroom_lamp) = -1.
Proof.
  intros Hlow. apply matcher_rejects_on_room; [discriminate|].
  unfold Matcher.room_pass.
  change (truthy (Matcher.room_q (Matcher.slots scenario_request bedroom_lamp)))
    with true.
  change (Matcher.room_score (Matcher.slots scenario_request bedroom_lamp))
    with (nth (Matcher.argmax (tfidf_cosines (py "livingroom") [py "bedroom"]))
              (tfidf_cosines (py "livingroom") [py "bedroom"]) 0).
  cbv iota. destruct (Qge_bool _ _) eqn:G; [|reflexivity].
  apply Qge_bool_iff in G. exfalso. revert G. apply Qlt_not_le.
  apply (nth_Forall (fun x => x < Matcher.THRESHOLDS_room)); [exact Hlow|reflexivity].
Qed.

Lemma scenario_matcher_top :
  Forall (fun x => x < 0.70) (tfidf_cosines (py "livingroom") [py "bedroom"]) ->
  exists r,
    Matcher.top_k scenario_request [living_lamp; bedroom_lamp] = [r] /\
    Matcher.rk_entity r = living_lamp /\ Matcher.rk_score r == 1.04.
Proof.
  intros Hlow.
  exists {| Matcher.rk_entity := living_lamp;
            Matcher.rk_score :=
              Matcher.sr_score (Matcher.score_entity scenario_request living_lamp);
            Matcher.rk_ev := Matcher.sr_ev (Matcher.score_entity scenario_request living_lamp);
            Matcher.rk_warnings :=
              Matcher.sr_warnings (Matcher.score_entity scenario_request living_lamp) |}.
  split; [|split; [reflexivity|apply scenario_matcher_living]].
  unfold Matcher.top_k.
  change (List.filter (Matcher.entity_filter scenario_request) [living_lamp; bedroom_lamp])
    with [living_lamp; bedroom_lamp].
  cbn [flat_map]. rewrite (scenario_matcher_bedroom Hlow).
  change (Qge_bool (-1) 0) with false.
  change (Qge_bool (Matcher.sr_score (Matcher.score_entity scenario_request living_lamp)) 0)
    with true.
  reflexivity.
Qed.
End Scenario.

(** C1, as amended.  In [score_entity], a pair that is not in the
    all-devices mode and is not rejected has, before bonuses, the
    weighted sum 0.15 floor + 0.40 room + 0.30 name + 0.15 type, where
    an absent floor counts 0.90 and an absent or generic device name
    counts 0.85.  In [compute_scores_for_device], an accepted pair whose
    request names a device has the weighted sum under the configured
    weights (0.15, 0.40, 0.30, 0.15 by default) plus the location bonus,
    where an absent floor counts 0.90 and a generic device name counts
    0.85.  For the two-lamp pool and the request for the room
    [living_room] and the type [light], provided the vectorizer keeps
    [livingroom] and [bedroom] below the room thresholds, both
    generations rank exactly one target, [light.living_lamp], and in
    [score_entity] its composite before bonuses is
    0.15 * 0.90 + 0.40 * 1 + 0.30 * 0.85 + 0.15 * 1 = 0.94. *)
Theorem C1_weighted_composite `{Vectorizer} :
  (forall device entity,
      let s := Matcher.slots device entity in
      Matcher.is_all_devices s = false -> Matcher.rejected s = false ->
      Matcher.base_score s
      = weighted_sum 0.15 0.40 0.30 0.15
          (if truthy (Matcher.floor_q s) then Matcher.floor_score s else 0.90)
          (Matcher.room_score s)
          (if truthy (Matcher.name_q s)
              && negb (Matcher.is_generic_device_name (Matcher.name_q s))
           then Matcher.sim_score (Matcher.name_sim s) else 0.85)
          (Matcher.type_score s) /\
      Matcher.sr_score (Matcher.score_entity device entity)
      = Matcher.base_score s + Matcher.location_match_bonus s + Matcher.exact_bonus s
        + fst (Matcher.domain_check device entity s)) /\
  (forall indices dev e al config wF wR wN wT,
      let s := field_scores indices dev e al in
      let W := get_or (weights config) default_weights in
      w_F W = Some wF -> w_R W = Some wR -> w_N W = Some wN -> w_T W = Some wT ->
      all_pass config s = true ->
      name_q s <> [] ->
      compute_scores_for_device indices dev e al config
      = Ok (weighted_sum wF wR wN wT
              (if truthy (floor_q s) then floor_score s else 0.90)
              (room_score s)
              (if is_generic s then 0.85 else name_score s)
              (type_score s)
            + location_bonus s,
            evidence_of s)) /\
  get_or (weights default_config) default_weights
  = {| w_F := Some 0.15; w_R := Some 0.40; w_N := Some 0.30; w_T := Some 0.15 |} /\
  (tfidf_best (py "livingroom") [py "bedroom"] < 0.98 ->
   forall st, exists out a t,
       fst (process scenario_batch st) = Ok out /\
       actions out = [a] /\ targets a = [t] /\
       t_entity_id t = py "light.living_lamp") /\
  (Forall (fun x => x < 0.70) (tfidf_cosines (py "livingroom") [py "bedroom"]) ->
   exists r,
     Matcher.top_k scenario_request [living_lamp; bedroom_lamp] = [r] /\
     Matcher.rk_entity r = living_lamp /\
     Matcher.base_score (Matcher.slots scenario_request living_lamp)
     == 0.15 * 0.90 + 0.40 * 1 + 0.30 * 0.85 + 0.15 * 1 /\
     Matcher.base_score (Matcher.slots scenario_request living_lamp) == 0.94).
Proof.
  split; [|split; [|split; [|split]]].
  - intros device entity s Ha Hr. split; [reflexivity|].
    apply (matcher_accepted_score device entity Ha Hr).
  - intros indices dev e al config wF wR wN wT s W HF HR HN HT Hp _.
    apply engine_accepted_score; assumption.
  - reflexivity.
  - intros Hlow st.
    destruct (scenario_engine_targets st Hlow) as (out & a & t & Ho & Ha & Ht & Hid & _).
    exists out, a, t. auto.
  - intros Hlow.
    destruct (scenario_matcher_top Hlow) as (r & Ht & He & _).
    exists r. split; [exact Ht|]. split; [exact He|].
    destruct scenario_matcher_living as (_ & _ & H94 & Hsum & _).
    split; [exact Hsum|exact H94].
Qed.

Lemma C1_weighted_composite_witness :
  (exists out a t,
      fst (@process no_overlap scenario_batch ∅) = Ok out /\
      actions out = [a] /\ targets a = [t] /\
      t_entity_id t = py "light.living_lamp") /\
  (exists r,
      @Matcher.top_k no_overlap scenario_request [living_lamp; bedroom_lamp] = [r] /\
      Matcher.rk_entity r = living_lamp /\
      Matcher.base_score (@Matcher.slots no_overlap scenario_request living_lamp)
      == 0.15 * 0.90 + 0.40 * 1 + 0.30 * 0.85 + 0.15 * 1 /\
      Matcher.base_score (@Matcher.slots no_overlap scenario_request living_lamp) == 0.94) /\
  (exists ev,
      @compute_scores_for_device no_overlap (fresh_alias_indices no_aliases)
        generic_name_request living_lamp no_aliases default_config
      = Ok (weighted_sum 0.15 0.40 0.30 0.15 0.90 1 0.85 1 + 0, ev)).
Proof.
  destruct (@C1_weighted_composite no_overlap) as (_ & Hengine & _ & Hscen & Hfirst).
  split; [|split].
  - apply Hscen. reflexivity.
  - apply Hfirst. repeat constructor.
  - eexists.
    refine (Hengine (fresh_alias_indices no_aliases) generic_name_request living_lamp
              no_aliases default_config 0.15 0.40 0.30 0.15
              eq_refl eq_refl eq_refl eq_refl _ _).
    + vm_compute. reflexivity.
    + vm_compute. discriminate.
Defined.

(** C1, as stated, fails on the figure: the weighted sum
    0.15 * 0.90 + 0.40 * 1.0 + 0.30 * 0.85 + 0.15 * 1.0 that [score_entity]
    gives the living-room lamp before bonuses is 0.94, not 0.9025; and
    the composite [compute_scores_for_device] returns for it is not
    0.9025 either. *)
Lemma C1_scenario_composite_is_not_0_9025 :
  Matcher.rejected (@Matcher.slots no_overlap scenario_request living_lamp) = false /\
  Matcher.base_score (@Matcher.slots no_overlap scenario_request living_lamp)
  == 0.15 * 0.90 + 0.40 * 1 + 0.30 * 0.85 + 0.15 * 1 /\
  Matcher.base_score (@Matcher.slots no_overlap scenario_request living_lamp) == 0.94 /\
  ~ Matcher.base_score (@Matcher.slots no_overlap scenario_request living_lamp) == 0.9025 /\
  exists score ev,
    @compute_scores_for_device no_overlap (fresh_alias_indices no_aliases)
      scenario_request living_lamp no_aliases default_config = Ok (score, ev) /\
    ~ score == 0.9025.
Proof.
  split; [vm_compute; reflexivity|]. split; [vm_compute; reflexivity|].
  split; [vm_compute; reflexivity|].
  split; [vm_compute; intros E; discriminate E|].
  eexists. eexists. split; [vm_compute; reflexivity|].
  vm_compute. intros E. discriminate E.
Qed.

(** C4, as amended.  In [score_entity], a pair that is not in the
    all-devices mode and is not rejected receives, on top of the weighted
    sum: +0.10 when the room score is at least 0.98; +0.05 when the
    device name is not generic and the name score is at least 0.98;
    +0.03 when the floor score is at least 0.98; +0.03 when the request
    has a service whose normalised domain and the entity's normalised
    domain are both present and equal, and a warning instead, without
    rejecting the pair, when both are present and differ; and the
    location bonus 0.4 when the device name holds a room of the alias
    table that is the normalised room of one of the entity's room
    fields.  In [compute_scores_for_device] an accepted pair receives
    only the location bonus 0.4, when the device name holds a room of the
    request's alias table whose normal form is the normal form of the
    entity's room; and the actions of [process] carry no warning. *)
Theorem C4_bonuses `{Vectorizer} :
  (forall device entity,
      let s := Matcher.slots device entity in
      let r := Matcher.score_entity device entity in
      let svc := Matcher.normalize_domain (lower (split_dot_head (service device))) in
      let both := truthy (service device) && truthy svc && truthy (Matcher.norm_e_domain s) in
      let found := Matcher.extract_location_from_name (Matcher.name_q s) in
      Matcher.is_all_devices s = false -> Matcher.rejected s = false ->
      Matcher.sr_score r
      == Matcher.base_score s
         + (if Qge_bool (Matcher.room_score s) 0.98 then 0.10 else 0)
         + (if negb (Matcher.is_generic_device_name (Matcher.name_q s))
               && Qge_bool (Matcher.sim_score (Matcher.name_sim s)) 0.98
            then 0.05 else 0)
         + (if Qge_bool (Matcher.floor_score s) 0.98 then 0.03 else 0)
         + (if both && str_eqb svc (Matcher.norm_e_domain s) then 0.03 else 0)
         + Matcher.location_match_bonus s /\
      Matcher.sr_warnings r
      = (if both && negb (str_eqb svc (Matcher.norm_e_domain s))
         then [py "Service domain mismatch for " ++ entity_id entity] else []) /\
      Matcher.location_match_bonus s
      = (if truthy (Matcher.name_q s) && fst found && truthy (snd found)
            && (str_eqb (snd found) (Matcher.normalize_room (room_name entity))
                || str_eqb (snd found) (Matcher.normalize_room (room_name_en entity))
                || str_eqb (snd found) (Matcher.normalize_room (room_type entity)))
         then 0.4 else 0)) /\
  (forall indices dev e al config wF wR wN wT,
      let s := field_scores indices dev e al in
      let W := get_or (weights config) default_weights in
      let extracted := detect_location_from_name (name_q s) (rooms al) in
      w_F W = Some wF -> w_R W = Some wR -> w_N W = Some wN -> w_T W = Some wT ->
      all_pass config s = true ->
      (exists base,
          compute_scores_for_device indices dev e al config
          = Ok (base + location_bonus s, evidence_of s) /\
          base = weighted_sum wF wR wN wT
                   (if truthy (floor_q s) then floor_score s else 0.90)
                   (room_score s)
                   (if is_generic s then 0.85 else name_score s)
                   (type_score s)) /\
      location_bonus s
      = (if truthy (name_q s) && truthy extracted && truthy (normalize extracted)
            && str_eqb (normalize extracted) (normalize (get_primary_field e Room))
         then 0.4 else 0)) /\
  (forall p st out a,
      fst (process p st) = Ok out -> In a (actions out) -> warnings a = []).
Proof.
  split; [|split].
  - intros device entity s r svc both found Ha Hr.
    assert (D : Matcher.domain_check device entity s
                = (if both && str_eqb svc (Matcher.norm_e_domain s) then 0.03 else 0,
                   if both && negb (str_eqb svc (Matcher.norm_e_domain s))
                   then [py "Service domain mismatch for " ++ entity_id entity] else [])).
    { subst both svc. unfold Matcher.domain_check.
      destruct (truthy (service device)); simpl; [|reflexivity].
      destruct (truthy (Matcher.normalize_domain _) && truthy _); simpl; [|reflexivity].
      destruct (str_eqb _ _); reflexivity. }
    destruct (matcher_accepted_score device entity Ha Hr) as [Hs Hw].
    fold s in Hs, Hw. fold r in Hs, Hw. rewrite D in Hs, Hw. cbn [fst snd] in Hs, Hw.
    split; [|split].
    + rewrite Hs. pose proof (matcher_exact_bonus device entity) as E.
      cbv zeta in E. fold s in E. rewrite E.
      generalize (Matcher.base_score s) (Matcher.location_match_bonus s).
      intros b l.
      destruct (Qge_bool (Matcher.room_score s) 0.98);
        destruct (negb _ && Qge_bool _ 0.98);
        destruct (Qge_bool (Matcher.floor_score s) 0.98);
        destruct (both && str_eqb svc _); ring.
    + exact Hw.
    + subst found s. unfold Matcher.slots. simpl.
      destruct (truthy (Matcher.or_else (device_name_en device) (device_name device)));
        simpl; [|reflexivity].
      destruct (Matcher.extract_location_from_name _) as [c x]. simpl.
      destruct (c && truthy x); reflexivity.
  - intros indices dev e al config wF wR wN wT s W extracted HF HR HN HT Hp. split.
    + eexists. split; [|reflexivity].
      apply engine_accepted_score; assumption.
    + apply engine_location_bonus.
  - intros p st out a. apply process_no_warnings.
Qed.

Lemma C4_bonuses_witness :
  (let s := @Matcher.slots no_overlap generic_name_request lamp_named_light in
   Matcher.sr_score (@Matcher.score_entity no_overlap generic_name_request lamp_named_light)
   == Matcher.base_score s + 0.10 /\
   Matcher.sr_warnings (@Matcher.score_entity no_overlap generic_name_request lamp_named_light)
   = []) /\
  (exists base,
      @compute_scores_for_device no_overlap (fresh_alias_indices no_aliases)
        generic_name_request living_lamp no_aliases default_config
      = Ok (base + 0,
            evidence_of (@field_scores no_overlap (fresh_alias_indices no_aliases)
                           generic_name_request living_lamp no_aliases)) /\
      base = weighted_sum 0.15 0.40 0.30 0.15 0.90 1 0.85 1) /\
  warnings (first_action (output_of (fst (@process no_overlap scenario_batch ∅)))) = [].
Proof.
  cbv zeta.
  assert (Ha : Matcher.is_all_devices
                 (@Matcher.slots no_overlap generic_name_request lamp_named_light) = false)
    by (vm_compute; reflexivity).
  assert (Hr : Matcher.rejected
                 (@Matcher.slots no_overlap generic_name_request lamp_named_light) = false)
    by (vm_compute; reflexivity).
  assert (Hp : all_pass default_config
                 (@field_scores no_overlap (fresh_alias_indices no_aliases)
                    generic_name_request living_lamp no_aliases) = true)
    by (vm_compute; reflexivity).
  destruct (@C4_bonuses no_overlap) as (Hfirst & Hengine & Hwarn).
  destruct (Hfirst generic_name_request lamp_named_light Ha Hr) as (Hs & Hw & _).
  split; [|split].
  - split; [rewrite Hs; vm_compute; reflexivity|rewrite Hw; vm_compute; reflexivity].
  - exact (proj1 (Hengine (fresh_alias_indices no_aliases) generic_name_request living_lamp
                    no_aliases default_config 0.15 0.40 0.30 0.15
                    eq_refl eq_refl eq_refl eq_refl Hp)).
  - apply (Hwarn scenario_batch ∅
             (output_of (fst (@process no_overlap scenario_batch ∅)))).
    + vm_compute. reflexivity.
    + vm_compute. left. reflexivity.
Defined.

(** C4, as stated, fails.  In [compute_scores_for_device] the accepted
    pair of the request for the generic name [light] in the living room
    and the living-room lamp has the room score 1.0 and the composite
    0.94, the bare weighted sum: no +0.10 is added.  In [score_entity]
    the same request against a lamp named [light] has the name score 1.0
    and the composite 1.04: the room bonus is added, the +0.05 for the
    name is not, the name being generic. *)
Lemma C4_no_exact_bonus :
  (let s := @field_scores no_overlap (fresh_alias_indices no_aliases)
              generic_name_request living_lamp no_aliases in
   all_pass default_config s = true /\
   room_score s == 1 /\
   exists score ev,
     @compute_scores_for_device no_overlap (fresh_alias_indices no_aliases)
       generic_name_request living_lamp no_aliases default_config = Ok (score, ev) /\
     score == weighted_sum 0.15 0.40 0.30 0.15 0.90 1 0.85 1 /\
     score == 0.94 /\
     ~ score == with_exact_bonuses 0.94 (floor_score s) (room_score s) (name_score s)) /\
  (let s := @Matcher.slots no_overlap generic_name_request lamp_named_light in
   Matcher.rejected s = false /\
   Matcher.sim_score (Matcher.name_sim s) == 1 /\
   Matcher.sr_score (@Matcher.score_entity no_overlap generic_name_request lamp_named_light)
   == 1.04 /\
   ~ Matcher.sr_score (@Matcher.score_entity no_overlap generic_name_request lamp_named_light)
     == with_exact_bonuses (Matcher.base_score s) (Matcher.floor_score s)
          (Matcher.room_score s) (Matcher.sim_score (Matcher.name_sim s))).
Proof.
  split; cbv zeta.
  - split; [vm_compute; reflexivity|]. split; [vm_compute; reflexivity|].
    eexists. eexists. split; [vm_compute; reflexivity|].
    split; [vm_compute; reflexivity|]. split; [vm_compute; reflexivity|].
    vm_compute. intros E. discriminate E.
  - split; [vm_compute; reflexivity|]. split; [vm_compute; reflexivity|].
    split; [vm_compute; reflexivity|].
    vm_compute. intros E. discriminate E.
Qed.

(* ================================================================== *)
(** * Further properties *)
(* ================================================================== *)

Local Open Scope Q_scope.

(** ** The LRU cache *)

Section LRUOrder.
Context {K V : Type} `{EqDecision K}.
Implicit Types (l : list (K * V)) (c : LRUCache K V).

Lemma od_find_None key l : od_find key l = None <-> ~ In key (List.map fst l).
Proof.
  induction l as [|[k w] r IH]; simpl; [tauto|].
  destruct (decide (k = key)) as [->|Hne].
  - split; [discriminate|]. intros C. exfalso. apply C. now left.
  - rewrite IH. split; [intros Hr [E|Hin]; [congruence|tauto]|tauto].
Qed.

Lemma od_find_app key l1 l2 :
  od_find key (l1 ++ l2)
  = match od_find key l1 with Some v => Some v | None => od_find key l2 end.
Proof.
  induction l1 as [|[k w] r IH]; simpl; [reflexivity|].
  destruct (decide (k = key)); [reflexivity|exact IH].
Qed.

Lemma od_find_remove_other key key' l :
  key <> key' -> od_find key (od_remove key' l) = od_find key l.
Proof.
  intros Hne. induction l as [|[k w] r IH]; simpl; [reflexivity|].
  destruct (decide (k = key')) as [->|Hk]; simpl.
  - destruct (decide (key' = key)); [congruence|reflexivity].
  - destruct (decide (k = key)); [reflexivity|exact IH].
Qed.

Lemma od_find_assign key value l : od_find key (od_assign key value l) = Some value.
Proof.
  induction l as [|[k w] r IH]; simpl.
  - destruct (decide (key = key)); [reflexivity|congruence].
  - destruct (decide (k = key)) as [->|Hk]; simpl.
    + destruct (decide (key = key)); [reflexivity|congruence].
    + destruct (decide (k = key)); [congruence|exact IH].
Qed.

Lemma od_find_assign_other key key' value l :
  key <> key' -> od_find key (od_assign key' value l) = od_find key l.
Proof.
  intros Hne. induction l as [|[k w] r IH]; simpl.
  - destruct (decide (key' = key)); [congruence|reflexivity].
  - destruct (decide (k = key')) as [->|Hk]; simpl.
    + destruct (decide (key' = key)); [congruence|reflexivity].
    + destruct (decide (k = key)); [reflexivity|exact IH].
Qed.

Lemma od_assign_absent key value l :
  od_find key l = None -> od_assign key value l = l ++ [(key, value)].
Proof.
  induction l as [|[k w] r IH]; simpl; [reflexivity|].
  destruct (decide (k = key)); [discriminate|].
  intros F. rewrite (IH F). reflexivity.
Qed.

Lemma od_assign_present_keys key value l v :
  od_find key l = Some v ->
  List.map fst (od_assign key value l) = List.map fst l.
Proof.
  induction l as [|[k w] r IH]; simpl; [discriminate|].
  destruct (decide (k = key)); simpl; [reflexivity|].
  intros F. rewrite (IH F). reflexivity.
Qed.

Lemma od_remove_keys_incl key l x :
  In x (List.map fst (od_remove key l)) -> In x (List.map fst l).
Proof.
  induction l as [|[k w] r IH]; simpl; [tauto|].
  destruct (decide (k = key)); simpl; tauto.
Qed.

Lemma od_remove_NoDup key l :
  NoDup (List.map fst l) ->
  NoDup (List.map fst (od_remove key l)) /\ ~ In key (List.map fst (od_remove key l)).
Proof.
  induction l as [|[k w] r IH]; simpl; intros N.
  - split; [constructor|tauto].
  - apply NoDup_cons in N as [Hk N]. rewrite list_elem_of_In in Hk.
    destruct (decide (k = key)) as [->|Hne]; simpl.
    + split; assumption.
    + destruct (IH N) as [N' Hn]. split.
      * apply NoDup_cons. split; [|exact N'].
        rewrite list_elem_of_In. intros C. apply Hk. eapply od_remove_keys_incl, C.
      * intros [E|C]; [congruence|tauto].
Qed.

Lemma od_move_to_end_NoDup key l :
  NoDup (List.map fst l) -> NoDup (List.map fst (od_move_to_end key l)).
Proof.
  intros N. unfold od_move_to_end.
  destruct (od_find key l) as [v|]; [|exact N].
  destruct (od_remove_NoDup key l N) as [N' Hn].
  rewrite List.map_app. simpl. apply NoDup_app. split; [exact N'|]. split.
  - intros x Hx Hk. apply list_elem_of_singleton in Hk. subst x.
    apply Hn. apply list_elem_of_In, Hx.
  - apply NoDup_singleton.
Qed.

Lemma od_assign_NoDup key value l :
  NoDup (List.map fst l) -> NoDup (List.map fst (od_assign key value l)).
Proof.
  intros N. destruct (od_find key l) as [v|] eqn:F.
  - rewrite (od_assign_present_keys key value l v F). exact N.
  - rewrite (od_assign_absent key value l F), List.map_app. simpl.
    apply NoDup_app. split; [exact N|]. split.
    + intros x Hx Hk. apply list_elem_of_singleton in Hk. subst x.
      apply (proj1 (od_find_None key l) F). apply list_elem_of_In, Hx.
    + apply NoDup_singleton.
Qed.

Lemma tl_keys_NoDup l : NoDup (List.map fst l) -> NoDup (List.map fst (tl l)).
Proof.
  destruct l as [|[k w] r]; simpl; [auto|].
  intros N. apply NoDup_cons in N. tauto.
Qed.

Lemma lru_get_cache key c v :
  fst (lru_get key c) = Some v ->
  cache (snd (lru_get key c)) = od_remove key (cache c) ++ [(key, v)]
  /\ od_find key (cache c) = Some v.
Proof.
  unfold lru_get, od_move_to_end.
  destruct (od_find key (cache c)) as [w|] eqn:F; simpl; [|discriminate].
  intros [= ->]. split; reflexivity.
Qed.

Lemma lru_get_find key c : fst (lru_get key c) = od_find key (cache c).
Proof. unfold lru_get. destruct (od_find key (cache c)); reflexivity. Qed.

Lemma lru_get_wf key c : lru_wf c -> lru_wf (snd (lru_get key c)).
Proof.
  intros [N B]. unfold lru_get.
  destruct (od_find key (cache c)) as [v|] eqn:F; simpl; [|split; assumption].
  split; simpl.
  - apply od_move_to_end_NoDup, N.
  - rewrite od_move_to_end_length. exact B.
Qed.

Lemma lru_set_wf key value c : lru_wf c -> lru_wf (lru_set key value c).
Proof.
  intros [N B]. split; [|apply lru_set_bounded, B].
  unfold lru_set. simpl.
  assert (N1 : NoDup (List.map fst
                        (od_assign key value
                           (match od_find key (cache c) with
                            | Some _ => od_move_to_end key (cache c)
                            | None => cache c
                            end)))).
  { apply od_assign_NoDup.
    destruct (od_find key (cache c)); [apply od_move_to_end_NoDup|]; exact N. }
  destruct (_ <? _)%nat; [apply tl_keys_NoDup|]; exact N1.
Qed.

(** X1.  The cache keeps its shape: from a cache with one entry per key
    and at most [maxsize] entries, every [get] and every [set] leaves a
    cache with one entry per key and at most [maxsize] entries. *)
Theorem X1_lru_shape_kept (c : LRUCache K V) (key : K) (value : V) :
  lru_wf c ->
  lru_wf (snd (lru_get key c)) /\ lru_wf (lru_set key value c).
Proof.
  intros W. split; [apply lru_get_wf|apply lru_set_wf]; exact W.
Qed.

(** X2.  What [set] stores, [get] returns: in a cache of capacity at
    least 1, a key read right after it was set has the value set, whether
    the key was new or present, and whether or not an entry was evicted. *)
Theorem X2_lru_set_then_get (c : LRUCache K V) (key : K) (value : V) :
  lru_wf c -> (1 <= maxsize c)%nat ->
  fst (lru_get key (lru_set key value c)) = Some value.
Proof.
  intros [N B] M. rewrite lru_get_find. unfold lru_set. simpl.
  destruct (od_find key (cache c)) as [v|] eqn:F.
  - assert (L : length (od_assign key value (od_move_to_end key (cache c)))
                = length (cache c)).
    { rewrite <- (od_move_to_end_length key (cache c)).
      rewrite <- !(length_map fst).
      assert (F' : od_find key (od_move_to_end key (cache c)) = Some v).
      { unfold od_move_to_end. rewrite F, od_find_app.
        destruct (od_remove_NoDup key (cache c) N) as [_ Hn].
        apply od_find_None in Hn. rewrite Hn. simpl.
        destruct (decide (key = key)); [reflexivity|congruence]. }
      rewrite (od_assign_present_keys key value _ v F'). reflexivity. }
    rewrite L. destruct (Nat.ltb_spec (maxsize c) (length (cache c))); [lia|].
    apply od_find_assign.
  - rewrite (od_assign_absent key value _ F), length_app. simpl.
    destruct (Nat.ltb_spec (maxsize c) (length (cache c) + 1)) as [G|G].
    + destruct (cache c) as [|[k w] r] eqn:E; simpl in *; [lia|].
      destruct (decide (k = key)); [discriminate|].
      rewrite od_find_app, F. simpl.
      destruct (decide (key = key)); [reflexivity|congruence].
    + rewrite od_find_app, F. simpl.
      destruct (decide (key = key)); [reflexivity|congruence].
Qed.

(** X3.  Reading protects from the next eviction: in a cache of capacity
    at least 2, a key that was just read with [get] is still there, with
    the same value, after a [set] of any other key. *)
Theorem X3_lru_read_survives_next_set (c : LRUCache K V) (key other : K) (v value : V) :
  lru_wf c -> (2 <= maxsize c)%nat ->
  fst (lru_get key c) = Some v -> other <> key ->
  fst (lru_get key (lru_set other value (snd (lru_get key c)))) = Some v.
Proof.
  intros W M G Hne.
  destruct (lru_get_cache key c v G) as [E F].
  pose proof (lru_get_wf key c W) as [N' B'].
  destruct W as [N B].
  set (c' := snd (lru_get key c)) in *.
  assert (Ms : maxsize c' = maxsize c).
  { subst c'. unfold lru_get. rewrite F. reflexivity. }
  assert (Fk : od_find key (cache c') = Some v).
  { rewrite E, od_find_app.
    destruct (od_remove_NoDup key (cache c) N) as [_ Hn].
    apply od_find_None in Hn. rewrite Hn. simpl.
    destruct (decide (key = key)); [reflexivity|congruence]. }
  rewrite lru_get_find. unfold lru_set. simpl.
  destruct (od_find other (cache c')) as [w|] eqn:Fo.
  - assert (Fo' : od_find other (od_move_to_end other (cache c')) = Some w).
    { unfold od_move_to_end. rewrite Fo, od_find_app.
      destruct (od_remove_NoDup other (cache c') N') as [_ Hn].
      apply od_find_None in Hn. rewrite Hn. simpl.
      destruct (decide (other = other)); [reflexivity|congruence]. }
    assert (L : length (od_assign other value (od_move_to_end other (cache c')))
                = length (cache c')).
    { rewrite <- (od_move_to_end_length other (cache c')).
      rewrite <- !(length_map fst).
      rewrite (od_assign_present_keys other value _ w Fo'). reflexivity. }
    rewrite L. destruct (Nat.ltb_spec (maxsize c') (length (cache c'))); [lia|].
    rewrite od_find_assign_other by congruence.
    unfold od_move_to_end. rewrite Fo, od_find_app.
    rewrite od_find_remove_other by congruence. rewrite Fk. reflexivity.
  - rewrite (od_assign_absent other value _ Fo), length_app. simpl.
    destruct (Nat.ltb_spec (maxsize c') (length (cache c') + 1)) as [Gt|Gt].
    + rewrite E in *. rewrite length_app in *. simpl in *.
      destruct (od_remove key (cache c)) as [|[k w] r] eqn:R; simpl in *; [lia|].
      rewrite <- app_assoc, od_find_app.
      destruct (od_remove_NoDup key (cache c) N) as [_ Hn]. rewrite R in Hn.
      assert (Hr : od_find key r = None).
      { apply od_find_None. intros C. apply Hn. simpl. now right. }
      rewrite Hr. simpl. destruct (decide (key = key)); [reflexivity|congruence].
    + rewrite od_find_app, Fk. reflexivity.
Qed.

(** X4.  Eviction is by age: a [set] of a new key into a full cache drops
    exactly the oldest entry and appends the new one, all other entries
    keeping their order; into a cache that is not full it only appends. *)
Theorem X4_lru_evicts_oldest (c : LRUCache K V) (key : K) (value : V) :
  od_find key (cache c) = None ->
  (length (cache c) <= maxsize c)%nat ->
  cache (lru_set key value c)
  = (if (length (cache c) <? maxsize c)%nat then cache c else tl (cache c))
    ++ (if (maxsize c =? 0)%nat then [] else [(key, value)]).
Proof.
  intros F B. unfold lru_set. simpl. rewrite F.
  rewrite (od_assign_absent key value _ F), length_app. simpl.
  destruct (Nat.ltb_spec (length (cache c)) (maxsize c)) as [L|L].
  - destruct (Nat.ltb_spec (maxsize c) (length (cache c) + 1)); [lia|].
    destruct (Nat.eqb_spec (maxsize c) 0); [lia|reflexivity].
  - destruct (Nat.ltb_spec (maxsize c) (length (cache c) + 1)); [|lia].
    destruct (cache c) as [|kv r]; simpl in *.
    + destruct (Nat.eqb_spec (maxsize c) 0); [reflexivity|lia].
    + destruct (Nat.eqb_spec (maxsize c) 0); [lia|reflexivity].
Qed.
End LRUOrder.

Ltac keys_distinct :=
  cbn;
  repeat (apply NoDup_cons_2;
          [rewrite list_elem_of_In; cbn; intuition discriminate|]);
  apply NoDup_nil_2.

Lemma X1_lru_shape_kept_witness :
  lru_wf (snd (lru_get (py "a") (@empty_cache str str 1000)))
  /\ lru_wf (lru_set (py "a") (py "a") (@empty_cache str str 1000)).
Proof.
  apply (X1_lru_shape_kept (@empty_cache str str 1000)).
  split; [keys_distinct|simpl; lia].
Defined.

Lemma X2_lru_set_then_get_witness :
  fst (lru_get (py "b")
         (lru_set (py "b") (py "2") {| cache := [(py "a", py "1")]; maxsize := 1 |}))
  = Some (py "2").
Proof.
  apply (X2_lru_set_then_get {| cache := [(py "a", py "1")]; maxsize := 1 |}).
  - split; [keys_distinct|simpl; lia].
  - simpl. lia.
Defined.

Lemma X3_lru_read_survives_next_set_witness :
  let c := {| cache := [(py "a", py "1"); (py "b", py "2")]; maxsize := 2 |} in
  fst (lru_get (py "a") (lru_set (py "c") (py "3") (snd (lru_get (py "a") c))))
  = Some (py "1").
Proof.
  cbv zeta.
  apply (X3_lru_read_survives_next_set
           {| cache := [(py "a", py "1"); (py "b", py "2")]; maxsize := 2 |}).
  - split; [keys_distinct|simpl; lia].
  - simpl. lia.
  - vm_compute. reflexivity.
  - discriminate.
Defined.

Lemma X4_lru_evicts_oldest_witness :
  cache (lru_set (py "c") (py "3")
           {| cache := [(py "a", py "1"); (py "b", py "2")]; maxsize := 2 |})
  = [(py "b", py "2"); (py "c", py "3")].
Proof.
  apply (X4_lru_evicts_oldest
           {| cache := [(py "a", py "1"); (py "b", py "2")]; maxsize := 2 |}).
  - vm_compute. reflexivity.
  - simpl. lia.
Defined.

(** ** Substrings *)

Lemma starts_with_spec (a b : str) : starts_with a b = true <-> exists post, b = a ++ post.
Proof.
  revert b. induction a as [|x a IH]; intros b; simpl.
  - split; [eauto|reflexivity].
  - destruct b as [|y b]; [split; [discriminate|intros [p Hp]; discriminate]|].
    rewrite Bool.andb_true_iff, IH, N.eqb_eq. split.
    + intros [-> [p ->]]. eauto.
    + intros [p [= -> ->]]. eauto.
Qed.

Lemma str_in_spec (a b : str) : str_in a b = true <-> occurs_in a b.
Proof.
  unfold occurs_in. induction b as [|y b IH]; simpl.
  - rewrite Bool.orb_false_r, starts_with_spec. split.
    + intros [post E]. exists [], post. exact E.
    + intros (pre & post & E). symmetry in E.
      apply app_eq_nil in E as [-> E]. apply app_eq_nil in E as [-> ->].
      exists []. reflexivity.
  - rewrite Bool.orb_true_iff, starts_with_spec, IH. split.
    + intros [[post E]|(pre & post & E)].
      * exists [], post. exact E.
      * exists (y :: pre), post. rewrite E. reflexivity.
    + intros (pre & post & E). destruct pre as [|z pre].
      * left. exists post. exact E.
      * right. injection E as -> ->. eauto.
Qed.

(** ** The alias index *)

Lemma index_aliases_sound (alias_map : AliasMap) (canonical : str)
    (all_aliases aliases : list str) (index : gmap str str) :
  In (canonical, all_aliases) alias_map -> normalize canonical <> [] ->
  (forall a, In a aliases -> In a all_aliases) ->
  (forall k v, index !! k = Some v -> alias_entry_ok alias_map k v) ->
  forall k v, index_aliases (normalize canonical) aliases index !! k = Some v ->
              alias_entry_ok alias_map k v.
Proof.
  intros Hrow Hc. unfold index_aliases.
  revert index. induction aliases as [|a r IH]; simpl; intros index Hsub Hok; [exact Hok|].
  apply IH; [auto|].
  destruct (truthy (normalize a)) eqn:Ta; [|exact Hok].
  intros k v. rewrite lookup_insert. destruct (decide (normalize a = k)) as [<-|_].
  - intros [= <-]. split; [apply truthy_true, Ta|]. split; [exact Hc|].
    exists canonical, all_aliases. split; [exact Hrow|]. split; [reflexivity|].
    right. exists a. split; [apply Hsub; now left|reflexivity].
  - apply Hok.
Qed.

Lemma index_aliases_hit (cn : str) (aliases : list str) (index : gmap str str) k :
  k <> [] ->
  index !! k = Some cn \/ (exists a, In a aliases /\ normalize a = k) ->
  index_aliases cn aliases index !! k = Some cn.
Proof.
  intros Hk. unfold index_aliases. revert index.
  induction aliases as [|a r IH]; simpl; intros index Hhit.
  - destruct Hhit as [Hi|(a & [] & _)]. exact Hi.
  - apply IH. destruct Hhit as [Hi|(a' & [<-|Hin] & E)].
    + left. destruct (truthy (normalize a)); [|exact Hi].
      rewrite lookup_insert. destruct (decide (normalize a = k)); [reflexivity|exact Hi].
    + left. rewrite E. apply truthy_true in Hk. rewrite Hk. apply lookup_insert_eq.
    + right. eauto.
Qed.

Lemma index_aliases_miss (cn : str) (aliases : list str) (index : gmap str str) k :
  (forall a, In a aliases -> normalize a <> k) ->
  index_aliases cn aliases index !! k = index !! k.
Proof.
  unfold index_aliases. revert index.
  induction aliases as [|a r IH]; simpl; intros index Hmiss; [reflexivity|].
  rewrite IH by auto.
  destruct (truthy (normalize a)); [|reflexivity].
  apply lookup_insert_ne, Hmiss. now left.
Qed.

Lemma index_aliases_dom (cn : str) (aliases : list str) (index : gmap str str) k :
  is_Some (index !! k) -> is_Some (index_aliases cn aliases index !! k).
Proof.
  unfold index_aliases. revert index.
  induction aliases as [|a r IH]; simpl; intros index Hs; [exact Hs|].
  apply IH. destruct (truthy (normalize a)); [|exact Hs].
  rewrite lookup_insert. destruct (decide (normalize a = k)); [eauto|exact Hs].
Qed.

Lemma build_alias_reverse_index_fold alias_map :
  build_alias_reverse_index alias_map = fold_left index_row alias_map ∅.
Proof.
  unfold build_alias_reverse_index. generalize (∅ : gmap str str).
  induction alias_map as [|[canonical aliases] r IH]; simpl; intros index; [reflexivity|].
  rewrite IH. reflexivity.
Qed.

Lemma index_row_hit index row k :
  k <> [] -> normalize (fst row) <> [] -> row_mentions k row ->
  index_row index row !! k = Some (normalize (fst row)).
Proof.
  intros Hk Hc Hm. unfold index_row.
  apply truthy_true in Hc. rewrite Hc. cbv zeta.
  apply index_aliases_hit; [exact Hk|].
  destruct Hm as [E|Hm]; [|right; exact Hm].
  left. rewrite E. apply lookup_insert_eq.
Qed.

Lemma index_row_miss index row k :
  ~ row_mentions k row -> index_row index row !! k = index !! k.
Proof.
  intros Hm. unfold index_row.
  destruct (truthy (normalize (fst row))); [|reflexivity]. cbv zeta.
  rewrite index_aliases_miss.
  - apply lookup_insert_ne. intros E. apply Hm. left. exact E.
  - intros a Hin E. apply Hm. right. eauto.
Qed.

Lemma index_row_dom index row k :
  is_Some (index !! k) -> is_Some (index_row index row !! k).
Proof.
  intros Hs. unfold index_row.
  destruct (truthy (normalize (fst row))); [|exact Hs]. cbv zeta.
  apply index_aliases_dom. rewrite lookup_insert.
  destruct (decide (normalize (fst row) = k)); [eauto|exact Hs].
Qed.

Lemma fold_rows_miss rows index k :
  (forall row, In row rows -> ~ row_mentions k row) ->
  fold_left index_row rows index !! k = index !! k.
Proof.
  revert index. induction rows as [|row r IH]; simpl; intros index Hm; [reflexivity|].
  rewrite IH by auto. apply index_row_miss, Hm. now left.
Qed.

Lemma fold_rows_dom rows index k :
  k <> [] ->
  is_Some (index !! k)
  \/ (exists row, In row rows /\ normalize (fst row) <> [] /\ row_mentions k row) ->
  is_Some (fold_left index_row rows index !! k).
Proof.
  intros Hk. revert index.
  induction rows as [|row r IH]; simpl; intros index Hs.
  - destruct Hs as [Hs|(row & [] & _)]. exact Hs.
  - apply IH. destruct Hs as [Hs|(row' & [<-|Hin] & Hc & Hm)].
    + left. apply index_row_dom, Hs.
    + left. rewrite (index_row_hit index row k Hk Hc Hm). eauto.
    + right. eauto.
Qed.

Lemma fold_rows_sound (alias_map rows : AliasMap) (index : gmap str str) :
  (forall row, In row rows -> In row alias_map) ->
  (forall k v, index !! k = Some v -> alias_entry_ok alias_map k v) ->
  forall k v, fold_left index_row rows index !! k = Some v -> alias_entry_ok alias_map k v.
Proof.
  revert index. induction rows as [|[canonical aliases] r IH]; simpl;
    intros index Hsub Hok; [exact Hok|].
  apply IH; [auto|]. unfold index_row. simpl.
  destruct (truthy (normalize canonical)) eqn:Tc; [|exact Hok].
  apply truthy_true in Tc.
  apply (index_aliases_sound alias_map canonical aliases); auto.
  intros k v. rewrite lookup_insert. destruct (decide (normalize canonical = k)) as [<-|_].
  - intros [= <-]. split; [exact Tc|]. split; [exact Tc|].
    exists canonical, aliases. split; [apply Hsub; now left|]. split; [reflexivity|].
    left. reflexivity.
  - apply Hok.
Qed.

(** X5.  The reverse index built from an alias table is sound and
    complete, and a later row overrides an earlier one.  Every entry
    maps a non-empty token, the normal form of a canonical identifier or
    of one of its aliases, to the non-empty normal form of that canonical
    identifier of the table; every identifier and alias with a normal
    form, in a row whose canonical identifier has one, is a key; and a
    token is mapped by the last row that mentions it. *)
Theorem X5_alias_index_sound_complete (alias_map : AliasMap) :
  (forall k v,
      build_alias_reverse_index alias_map !! k = Some v ->
      k <> [] /\ v <> [] /\
      exists canonical aliases,
        In (canonical, aliases) alias_map /\ v = normalize canonical /\
        row_mentions k (canonical, aliases)) /\
  (forall row k,
      In row alias_map -> normalize (fst row) <> [] -> k <> [] -> row_mentions k row ->
      is_Some (build_alias_reverse_index alias_map !! k)) /\
  (forall before row after k,
      alias_map = before ++ row :: after ->
      normalize (fst row) <> [] -> k <> [] -> row_mentions k row ->
      (forall later, In later after -> ~ row_mentions k later) ->
      build_alias_reverse_index alias_map !! k = Some (normalize (fst row))).
Proof.
  rewrite build_alias_reverse_index_fold. split; [|split].
  - apply (fold_rows_sound alias_map alias_map); [auto|].
    intros k v Hk. rewrite lookup_empty in Hk. discriminate.
  - intros row k Hin Hc Hk Hm. apply fold_rows_dom; [exact Hk|]. right. eauto.
  - intros before row after k -> Hc Hk Hm Hlater.
    rewrite fold_left_app. simpl.
    rewrite fold_rows_miss by exact Hlater.
    apply index_row_hit; assumption.
Qed.

Lemma X5_alias_index_sound_complete_witness :
  build_alias_reverse_index
    [(py "living_room", [py "客厅"; py "Lounge"]); (py "bedroom", [py "卧室"])]
  !! py "lounge" = Some (py "livingroom").
Proof.
  refine (proj2 (proj2 (X5_alias_index_sound_complete _))
            [] (py "living_room", [py "客厅"; py "Lounge"]) [(py "bedroom", [py "卧室"])]
            (py "lounge") eq_refl _ _ _ _).
  - vm_compute. discriminate.
  - discriminate.
  - right. exists (py "Lounge"). split; [right; now left|vm_compute; reflexivity].
  - intros later [<-|[]] [E|(a & [<-|[]] & E)]; vm_compute in E; discriminate E.
Defined.

(** X6.  On the index a batch builds from its alias table,
    [expand_alias_fast] never fails and returns at most one token: none
    for an empty value, else exactly one, made of lower-case letters,
    digits and CJK ideographs only.  The token is the value's own normal
    form when the alias class is unknown or does not mention it, and the
    canonical form of the last row of the class table that mentions it
    otherwise; the canonical identifier of that row expands to the same
    token when no later row mentions it in turn. *)
Theorem X6_expand_alias_fast_total (a : Aliases) :
  let indices := fresh_alias_indices a in
  (forall alias_type, expand_alias_fast indices [] alias_type = []) /\
  (forall value alias_type,
      value <> [] ->
      exists token,
        expand_alias_fast indices value alias_type = [token] /\
        Forall (fun ch => is_keep ch = true) token) /\
  (forall value alias_type,
      value <> [] -> indices !! alias_type = None ->
      expand_alias_fast indices value alias_type = [normalize value]) /\
  (forall value,
      value <> [] ->
      (forall row, In row (device_types a) -> ~ row_mentions (normalize value) row) ->
      expand_alias_fast indices value "device_types" = [normalize value]) /\
  (forall value before row after,
      device_types a = before ++ row :: after ->
      normalize (fst row) <> [] -> normalize value <> [] ->
      row_mentions (normalize value) row ->
      (forall later, In later after -> ~ row_mentions (normalize value) later) ->
      expand_alias_fast indices value "device_types" = [normalize (fst row)]) /\
  (forall before row after,
      device_types a = before ++ row :: after ->
      normalize (fst row) <> [] ->
      (forall later, In later after -> ~ row_mentions (normalize (fst row)) later) ->
      expand_alias_fast indices (fst row) "device_types" = [normalize (fst row)]).
Proof.
  cbv zeta.
  assert (Hsound : forall (m : AliasMap) k v,
             build_alias_reverse_index m !! k = Some v ->
             Forall (fun ch => is_keep ch = true) v /\ v <> []).
  { intros m k v Hk. rewrite build_alias_reverse_index_fold in Hk.
    apply (fold_rows_sound m m) in Hk as (_ & Hv & c & al & _ & -> & _); [|auto|].
    - split; [apply normalize_keep|exact Hv].
    - intros k' v' E. rewrite lookup_empty in E. discriminate. }
  assert (Hdt : fresh_alias_indices a !! "device_types"%string
                = Some (build_alias_reverse_index (device_types a))).
  { apply fresh_alias_indices_lookup. }
  split; [|split; [|split; [|split; [|split]]]].
  - intros alias_type. unfold expand_alias_fast. reflexivity.
  - intros value alias_type Hv. apply truthy_true in Hv.
    unfold expand_alias_fast. rewrite Hv.
    destruct (fresh_alias_indices a !! alias_type) as [index|] eqn:Hi.
    + destruct (index !! normalize value) as [canonical|] eqn:Hc.
      * assert (Hk : Forall (fun ch => is_keep ch = true) canonical /\ canonical <> []).
        { unfold fresh_alias_indices in Hi.
          repeat (rewrite lookup_insert in Hi;
                  destruct (decide (_ = alias_type)) as [_|_];
                  [injection Hi as <-; eapply Hsound, Hc|]).
          rewrite lookup_empty in Hi. discriminate. }
        destruct Hk as [Hk Hne]. apply truthy_true in Hne. rewrite Hne. eauto.
      * eexists. split; [reflexivity|apply normalize_keep].
    + eexists. split; [reflexivity|apply normalize_keep].
  - intros value alias_type Hv Hi. apply truthy_true in Hv.
    unfold expand_alias_fast. rewrite Hv, Hi. reflexivity.
  - intros value Hv Hmiss. apply truthy_true in Hv.
    unfold expand_alias_fast. rewrite Hv, Hdt.
    rewrite build_alias_reverse_index_fold, fold_rows_miss by exact Hmiss.
    rewrite lookup_empty. reflexivity.
  - intros value before row after Hd Hc Hn Hm Hlater.
    assert (Hv : truthy value = true).
    { destruct value; [exfalso; apply Hn; reflexivity|reflexivity]. }
    unfold expand_alias_fast. rewrite Hv, Hdt.
    rewrite build_alias_reverse_index_fold, Hd, fold_left_app. simpl.
    rewrite fold_rows_miss by exact Hlater.
    rewrite (index_row_hit _ row _ Hn Hc Hm).
    apply truthy_true in Hc. rewrite Hc. reflexivity.
  - intros before row after Hd Hc Hlater.
    assert (Hv : truthy (fst row) = true).
    { destruct (fst row); [exfalso; apply Hc; reflexivity|reflexivity]. }
    unfold expand_alias_fast. rewrite Hv, Hdt.
    rewrite build_alias_reverse_index_fold, Hd, fold_left_app. simpl.
    rewrite fold_rows_miss by exact Hlater.
    rewrite (index_row_hit _ row _ Hc Hc (or_introl eq_refl)).
    apply truthy_true in Hc. rewrite Hc. reflexivity.
Qed.

Lemma X6_expand_alias_fast_total_witness :
  let a := {| rooms := []; floors := [];
              device_types := [(py "light", [py "lamp"]); (py "bulb", [py "light"])] |} in
  expand_alias_fast (fresh_alias_indices a) (py "Lamp") "device_types" = [py "light"]
  /\ expand_alias_fast (fresh_alias_indices a) (py "light") "device_types" = [py "bulb"].
Proof.
  cbv zeta.
  destruct (X6_expand_alias_fast_total
              {| rooms := []; floors := [];
                 device_types := [(py "light", [py "lamp"]); (py "bulb", [py "light"])] |})
    as (_ & _ & _ & _ & Hlast & _).
  split.
  - apply (Hlast (py "Lamp") [] (py "light", [py "lamp"]) [(py "bulb", [py "light"])]).
    + reflexivity.
    + vm_compute. discriminate.
    + vm_compute. discriminate.
    + right. exists (py "lamp"). split; [now left|vm_compute; reflexivity].
    + intros later [<-|[]] [E|(al & [<-|[]] & E)]; vm_compute in E; discriminate E.
  - apply (Hlast (py "light") [(py "light", [py "lamp"])] (py "bulb", [py "light"]) []).
    + reflexivity.
    + vm_compute. discriminate.
    + vm_compute. discriminate.
    + right. exists (py "light"). split; [now left|vm_compute; reflexivity].
    + intros later [].
Defined.

(** ** Field similarity *)

Lemma live_candidates_map (candidates : list str) :
  live_candidates candidates = List.filter truthy (List.map normalize candidates).
Proof.
  unfold live_candidates. induction candidates as [|c r IH]; simpl; [reflexivity|].
  destruct c as [|x c]; simpl; [exact IH|].
  rewrite <- IH. reflexivity.
Qed.

Lemma field_similarity_cases `{Vectorizer} q candidates :
  field_similarity q candidates = 0 \/ field_similarity q candidates = 1
  \/ field_similarity q candidates = 0.95
  \/ field_similarity q candidates = tfidf_best (normalize q) (live_candidates candidates).
Proof.
  unfold field_similarity. fold (live_candidates candidates).
  destruct (negb _ || _); [now left|].
  destruct (mem_str _ _); [right; now left|].
  destruct (existsb _ _); [right; right; now left|].
  right. right. right. reflexivity.
Qed.

(** X7.  Under a vectorizer whose cosines lie between 0 and 1, every
    field similarity lies between 0 and 1; a query whose normal form is
    that of a candidate scores 1, and a query that only contains, or is
    contained in, the normal form of a candidate scores 0.95, whatever
    the vectorizer says. *)
Theorem X7_field_similarity_range `{Vectorizer} (q : str) (candidates : list str) :
  cosine_range ->
  0 <= field_similarity q candidates <= 1 /\
  (normalize q <> [] -> In (normalize q) (live_candidates candidates) ->
   field_similarity q candidates = 1) /\
  (normalize q <> [] -> ~ In (normalize q) (live_candidates candidates) ->
   (exists c, In c (live_candidates candidates)
              /\ (occurs_in (normalize q) c \/ occurs_in c (normalize q))) ->
   field_similarity q candidates = 0.95).
Proof.
  intros R. split; [|split].
  - destruct (field_similarity_cases q candidates) as [-> |[-> |[-> | ->]]];
      try (split; [discriminate|discriminate]).
    apply R.
  - intros Hq Hin. apply truthy_true in Hq.
    unfold field_similarity. fold (live_candidates candidates). rewrite Hq. simpl.
    destruct (live_candidates candidates) as [|c r] eqn:E; [destruct Hin|].
    simpl is_nil. cbv iota.
    assert (M : mem_str (normalize q) (c :: r) = true).
    { unfold mem_str. apply existsb_exists. exists (normalize q).
      split; [exact Hin|apply str_eqb_refl]. }
    rewrite M. reflexivity.
  - intros Hq Hnot (c & Hc & Hocc). apply truthy_true in Hq.
    unfold field_similarity. fold (live_candidates candidates). rewrite Hq. simpl.
    destruct (live_candidates candidates) as [|c0 r] eqn:E; [destruct Hc|].
    simpl is_nil. cbv iota.
    assert (M : mem_str (normalize q) (c0 :: r) = false).
    { unfold mem_str. destruct (existsb _ _) eqn:X; [|reflexivity].
      apply existsb_exists in X as (x & Hx & Ex). apply str_eqb_eq in Ex. subst x.
      contradiction. }
    rewrite M.
    assert (X : existsb (fun c => str_in (normalize q) c || str_in c (normalize q))
                        (c0 :: r) = true).
    { apply existsb_exists. exists c. split; [exact Hc|].
      apply Bool.orb_true_iff. destruct Hocc as [O|O]; [left|right];
        apply str_in_spec, O. }
    rewrite X. reflexivity.
Qed.

Lemma no_overlap_cosine_range : @cosine_range no_overlap.
Proof. intros q cs. simpl. split; discriminate. Qed.

Lemma X7_field_similarity_range_witness :
  0 <= @field_similarity no_overlap (py "room") [py "Living Room"; []] <= 1 /\
  @field_similarity no_overlap (py "room") [py "Living Room"; []] = 0.95.
Proof.
  destruct (@X7_field_similarity_range no_overlap (py "room") [py "Living Room"; []]
              no_overlap_cosine_range) as (Hr & _ & Hc).
  split; [exact Hr|]. apply Hc.
  - vm_compute. discriminate.
  - vm_compute. intros [E|[]]. discriminate E.
  - exists (py "livingroom"). split; [vm_compute; now left|].
    left. exists (py "living"), []. vm_compute. reflexivity.
Defined.

(** X8.  A field similarity only sees normal forms: two queries with the
    same normal form, against candidate lists whose members have the same
    normal forms position by position, score the same.  In particular
    the score is blind to letter case, whitespace, underscores and
    hyphens in the query. *)
Theorem X8_field_similarity_normal_forms `{Vectorizer} (q q' : str)
    (candidates candidates' : list str) :
  normalize q = normalize q' ->
  Forall2 (fun c c' => normalize c = normalize c') candidates candidates' ->
  field_similarity q candidates = field_similarity q' candidates'.
Proof.
  intros Hq Hc.
  assert (L : live_candidates candidates = live_candidates candidates').
  { rewrite !live_candidates_map. f_equal.
    induction Hc as [|c c' r r' E _ IH]; simpl; [reflexivity|].
    rewrite E, IH. reflexivity. }
  unfold field_similarity. fold (live_candidates candidates).
  fold (live_candidates candidates'). rewrite Hq, L. reflexivity.
Qed.

Lemma X8_field_similarity_normal_forms_witness :
  @field_similarity no_overlap (py "Living Room") [py "living_room"; py "-"]
  = @field_similarity no_overlap (py "living-room") [py "LIVING ROOM"; []].
Proof.
  apply (@X8_field_similarity_normal_forms no_overlap).
  - vm_compute. reflexivity.
  - repeat constructor.
Defined.

(** ** Rooms named inside a device name *)

Lemma detect_location_in_sound n (room_aliases : AliasMap) r :
  detect_location_in n room_aliases = r ->
  (r = [] /\ forall row, In row room_aliases ->
               ~ (normalize (fst row) <> [] /\ occurs_in (normalize (fst row)) n) /\
               forall a, In a (snd row) ->
                 ~ (normalize a <> [] /\ occurs_in (normalize a) n))
  \/ exists before aliases after,
       room_aliases = before ++ (r, aliases) :: after /\
       (normalize r <> [] /\ occurs_in (normalize r) n
        \/ exists a, In a aliases /\ normalize a <> [] /\ occurs_in (normalize a) n) /\
       forall row, In row before ->
         ~ (normalize (fst row) <> [] /\ occurs_in (normalize (fst row)) n) /\
         forall a, In a (snd row) ->
           ~ (normalize a <> [] /\ occurs_in (normalize a) n).
Proof.
  revert r. induction room_aliases as [|[code aliases] rest IH]; simpl; intros r Hr.
  - left. split; [symmetry; exact Hr|]. intros row [].
  - destruct (truthy (normalize code) && str_in (normalize code) n) eqn:C.
    + right. subst r. exists [], aliases, rest. split; [reflexivity|]. split; [|intros row []].
      left. apply Bool.andb_true_iff in C as [T S].
      split; [apply truthy_true, T|apply str_in_spec, S].
    + destruct (existsb _ aliases) eqn:X.
      * right. subst r. exists [], aliases, rest. split; [reflexivity|].
        split; [|intros row []]. right.
        apply existsb_exists in X as (a & Ha & Hm).
        apply Bool.andb_true_iff in Hm as [T S].
        exists a. split; [exact Ha|]. split; [apply truthy_true, T|apply str_in_spec, S].
      * assert (Hhere : ~ (normalize code <> [] /\ occurs_in (normalize code) n) /\
                        forall a, In a aliases ->
                          ~ (normalize a <> [] /\ occurs_in (normalize a) n)).
        { split.
          - intros [T S]. apply truthy_true in T. apply str_in_spec in S.
            rewrite T, S in C. discriminate.
          - intros a Ha [T S]. apply truthy_true in T. apply str_in_spec in S.
            assert (existsb (fun a => truthy (normalize a) && str_in (normalize a) n)
                      aliases = true).
            { apply existsb_exists. exists a. rewrite T, S. auto. }
            congruence. }
        destruct (IH r Hr) as [[-> Hnone]|(before & al & after & -> & Hm & Hb)].
        -- left. split; [reflexivity|]. intros row [<-|Hin]; [exact Hhere|auto].
        -- right. exists ((code, aliases) :: before), al, after.
           split; [reflexivity|]. split; [exact Hm|].
           intros row [<-|Hin]; [exact Hhere|auto].
Qed.

(** X9.  [detect_location_from_name] returns the code of the first row
    of the room table whose normalised code, or one of whose normalised
    aliases, occurs in the normalised device name; it returns the empty
    string when the name has no normal form or no row qualifies. *)
Theorem X9_detect_location_first_match (name_q : str) (room_aliases : AliasMap) :
  let n := normalize name_q in
  let qualifies (row : str * list str) :=
    (normalize (fst row) <> [] /\ occurs_in (normalize (fst row)) n)
    \/ exists a, In a (snd row) /\ normalize a <> [] /\ occurs_in (normalize a) n in
  (n = [] -> detect_location_from_name name_q room_aliases = []) /\
  ((forall row, In row room_aliases -> ~ qualifies row) ->
   detect_location_from_name name_q room_aliases = []) /\
  (forall before row after,
      n <> [] -> room_aliases = before ++ row :: after ->
      qualifies row -> (forall earlier, In earlier before -> ~ qualifies earlier) ->
      detect_location_from_name name_q room_aliases = fst row).
Proof.
  cbv zeta. unfold detect_location_from_name. split; [|split].
  - intros ->. reflexivity.
  - intros Hnone. destruct (negb _); [reflexivity|].
    destruct (detect_location_in_sound (normalize name_q) room_aliases _ eq_refl)
      as [[E _]|(before & al & after & E & Hm & _)]; [exact E|].
    exfalso. apply (Hnone (detect_location_in (normalize name_q) room_aliases, al)).
    + rewrite E at 2. apply in_or_app. right. now left.
    + exact Hm.
  - intros before row after Hn -> Hq Hearlier.
    apply truthy_true in Hn. rewrite Hn. simpl.
    induction before as [|[code aliases] before IH]; simpl.
    + destruct row as [code aliases]. simpl in *.
      destruct Hq as [[T S]|(a & Ha & T & S)].
      * apply truthy_true in T. apply str_in_spec in S. rewrite T, S. reflexivity.
      * destruct (_ && _); [reflexivity|].
        assert (X : existsb (fun a => truthy (normalize a)
                                      && str_in (normalize a) (normalize name_q))
                      aliases = true).
        { apply existsb_exists. exists a. apply truthy_true in T.
          apply str_in_spec in S. rewrite T, S. auto. }
        rewrite X. reflexivity.
    + assert (Hhere : ~ ((normalize code <> [] /\ occurs_in (normalize code) (normalize name_q))
                         \/ exists a, In a aliases /\ normalize a <> []
                                      /\ occurs_in (normalize a) (normalize name_q))).
      { apply (Hearlier (code, aliases)). now left. }
      destruct (truthy (normalize code) && str_in (normalize code) (normalize name_q)) eqn:C.
      { exfalso. apply Hhere. left. apply Bool.andb_true_iff in C as [T S].
        split; [apply truthy_true, T|apply str_in_spec, S]. }
      destruct (existsb _ aliases) eqn:X.
      { exfalso. apply Hhere. right.
        apply existsb_exists in X as (a & Ha & Hm).
        apply Bool.andb_true_iff in Hm as [T S].
        exists a. split; [exact Ha|]. split; [apply truthy_true, T|apply str_in_spec, S]. }
      apply IH. intros earlier Hin. apply Hearlier. now right.
Qed.

Lemma X9_detect_location_first_match_witness :
  detect_location_from_name (py "Living-Room Lamp")
    [(py "bedroom", [py "卧室"]); (py "living_room", [py "客厅"; py "lounge"])]
  = py "living_room".
Proof.
  refine (proj2 (proj2 (X9_detect_location_first_match (py "Living-Room Lamp") _))
            [(py "bedroom", [py "卧室"])] (py "living_room", [py "客厅"; py "lounge"]) []
            _ eq_refl _ _).
  - vm_compute. discriminate.
  - left. split; [vm_compute; discriminate|].
    exists [], (py "lamp"). vm_compute. reflexivity.
  - intros earlier [<-|[]] [[_ (pre & post & E)]|(a & [<-|[]] & _ & (pre & post & E))];
      vm_compute in E;
      repeat (destruct pre as [|? pre]; [discriminate E|injection E as <- E]);
      destruct pre; discriminate E.
Defined.

(** ** The scorer *)

Lemma field_scores_no_type `{Vectorizer} indices dev e al :
  let s := field_scores indices dev e al in
  type_q s = [] -> type_score s = 0.
Proof.
  cbv zeta. unfold field_scores. cbn [type_q type_score]. intros Ht.
  rewrite Ht. simpl. unfold field_similarity. reflexivity.
Qed.

Lemma field_scores_no_room `{Vectorizer} indices dev e al :
  let s := field_scores indices dev e al in
  room_q s = [] -> room_score s = 0.
Proof.
  cbv zeta. unfold field_scores. cbn [room_q room_score]. intros ->. reflexivity.
Qed.

(** X10.  A request that names only a generic device, with no floor, no
    room and no type given or implied, is never rejected: whatever the
    thresholds and whatever the entity, the name gate is skipped, and
    with the default weights the composite is 0.39 plus the location
    bonus, so the entity is ranked. *)
Theorem X10_generic_name_always_accepted `{Vectorizer} (indices : AliasIndices)
    (dev e : Obj) (al : Aliases) (config : Config) :
  let s := field_scores indices dev e al in
  floor_q s = [] -> room_q s = [] -> type_q s = [] -> is_generic s = true ->
  weights config = None ->
  all_pass config s = true /\
  exists score,
    compute_scores_for_device indices dev e al config = Ok (score, evidence_of s) /\
    score == 0.39 + location_bonus s /\
    0 <= location_bonus s /\ Qge_bool score 0 = true.
Proof.
  cbv zeta. intros Hf Hr Ht Hg Hw.
  assert (Hp : all_pass config (field_scores indices dev e al) = true).
  { unfold all_pass, floor_pass, room_pass, type_pass, name_pass.
    rewrite Hf, Hr, Ht, Hg. simpl. rewrite Bool.orb_true_r. reflexivity. }
  split; [exact Hp|].
  pose proof (engine_accepted_score indices dev e al config 0.15 0.40 0.30 0.15) as A.
  cbv zeta in A. rewrite Hw in A. specialize (A eq_refl eq_refl eq_refl eq_refl Hp).
  eexists. split; [exact A|].
  assert (Hl : 0 <= location_bonus (field_scores indices dev e al)).
  { pose proof (engine_location_bonus indices dev e al) as L. cbv zeta in L.
    rewrite L. destruct (_ && _ && _ && _); discriminate. }
  rewrite Hf, Hg, (field_scores_no_type indices dev e al Ht),
    (field_scores_no_room indices dev e al Hr).
  unfold weighted_sum. simpl truthy. cbv iota.
  split; [ring|]. split; [exact Hl|].
  apply Qge_bool_iff.
  generalize dependent (location_bonus (field_scores indices dev e al)).
  intros l _ Hl. lra.
Qed.

Lemma X10_generic_name_always_accepted_witness :
  exists score,
    @compute_scores_for_device no_overlap (fresh_alias_indices no_aliases)
      (request_of "" "" "light" "") bedroom_lamp no_aliases default_config
    = Ok (score,
          evidence_of (@field_scores no_overlap (fresh_alias_indices no_aliases)
                         (request_of "" "" "light" "") bedroom_lamp no_aliases)) /\
    score == 0.39 + 0.
Proof.
  destruct (@X10_generic_name_always_accepted no_overlap (fresh_alias_indices no_aliases)
              (request_of "" "" "light" "") bedroom_lamp no_aliases default_config
              eq_refl eq_refl eq_refl eq_refl eq_refl) as (_ & score & Hc & Hs & _).
  exists score. split; [exact Hc|]. rewrite Hs. vm_compute. reflexivity.
Defined.

(** X11.  A pair that fails a gate never reads the weights: it gets
    the sentinel and its evidence under any weights table, a table with
    missing keys included.  For a pair that passed the gates the weights
    are read in the order F, R, N, T, and the error raised names the
    first of them that is missing (the weights before it being
    numbers). *)
Theorem X11_missing_weight_named `{Vectorizer} (indices : AliasIndices)
    (dev e : Obj) (al : Aliases) (config : Config) :
  let s := field_scores indices dev e al in
  let W := get_or (weights config) default_weights in
  (all_pass config s = false ->
   compute_scores_for_device indices dev e al config = Ok (-1, evidence_of s)) /\
  (all_pass config s = true ->
   (w_F W = None ->
    compute_scores_for_device indices dev e al config = Raise "KeyError: F") /\
   (w_F W <> None -> w_R W = None ->
    compute_scores_for_device indices dev e al config = Raise "KeyError: R") /\
   (w_F W <> None -> w_R W <> None -> w_N W = None ->
    compute_scores_for_device indices dev e al config = Raise "KeyError: N") /\
   (w_F W <> None -> w_R W <> None -> w_N W <> None -> w_T W = None ->
    compute_scores_for_device indices dev e al config = Raise "KeyError: T")).
Proof.
  cbv zeta. split; [apply engine_rejected_score|].
  intros Hp. unfold compute_scores_for_device. rewrite Hp. simpl.
  destruct (w_F _) as [wF|]; simpl;
    [|split; [reflexivity|];
      split; [intros C'; contradiction|];
      split; intros C'; contradiction].
  split; [discriminate|].
  destruct (w_R _) as [wR|]; simpl;
    [|split; [reflexivity|];
      split; intros _ C'; contradiction].
  split; [discriminate|].
  destruct (w_N _) as [wN|]; simpl;
    [|split; [reflexivity|]; intros _ _ C'; contradiction].
  split; [discriminate|].
  destruct (w_T _) as [wT|]; simpl; [discriminate|reflexivity].
Qed.

(** ** The orchestrator *)

Lemma process_devices_spec `{Vectorizer} indices p type_index devs out0 out :
  process_devices indices p type_index devs out0 = Ok out ->
  intent out = intent out0 /\ user_input out = user_input out0 /\
  exists results : list (Action * list MatchedDevice),
    Forall2 (fun dev r => process_device indices p type_index dev = Ok r) devs results /\
    actions out = actions out0 ++ List.map fst results /\
    matched_devices out = matched_devices out0 ++ flat_map snd results.
Proof.
  revert out0. induction devs as [|dev rest IH]; simpl; intros out0 Hp.
  - injection Hp as <-. split; [reflexivity|]. split; [reflexivity|].
    exists []. simpl. rewrite !app_nil_r. repeat split. constructor.
  - destruct (process_device indices p type_index dev) as [am|exc] eqn:D; [|discriminate].
    simpl in Hp. destruct (IH _ Hp) as (Hi & Hu & results & HF & Ha & Hm). simpl in *.
    split; [exact Hi|]. split; [exact Hu|].
    exists (am :: results). split; [constructor; assumption|].
    simpl. rewrite Ha, Hm, <- !app_assoc. split; reflexivity.
Qed.

Lemma process_device_shape `{Vectorizer} indices p type_index dev a m :
  process_device indices p type_index dev = Ok (a, m) ->
  exists top,
    rank indices dev (filter_candidates dev (entities p) type_index) (aliases p) (cfg p)
    = Ok top /\
    request a = request_echo dev /\
    targets a = List.map target_of top /\
    m = List.map (fun it => {| md_entity_id := entity_id (si_e it);
                               md_service := service dev |}) top /\
    disambiguation_required a
    = needs_disambiguation top (get_or (disambiguationGap (cfg p)) 0.08) /\
    suggestions_if_empty a
    = (if is_nil top
       then loose_suggestions dev (filter_candidates dev (entities p) type_index) (cfg p)
       else []).
Proof.
  unfold process_device. intros Hp.
  destruct (rank indices dev _ (aliases p) (cfg p)) as [top|exc]; [|discriminate].
  simpl in Hp. injection Hp as <- <-. exists top. repeat split.
Qed.

(** X13.  The output of [process] echoes the batch: the intent label and
    the user query are those of the payload, and the actions carry, in
    the order of the device requests, the floor, room, device name,
    device type and service of each request. *)
Theorem X13_process_echoes_requests `{Vectorizer} (p : Payload) (st : AliasIndices)
    (out : Output) :
  fst (process p st) = Ok out ->
  intent out = intent_name p /\
  user_input out = user_query p /\
  List.map request (actions out) = List.map request_echo (intent_devices p).
Proof.
  unfold process. cbn [fst]. intros Hp.
  destruct (process_devices_spec _ _ _ _ _ _ Hp) as (Hi & Hu & results & HF & Ha & _).
  split; [exact Hi|]. split; [exact Hu|].
  rewrite Ha. simpl. clear Ha Hp.
  induction HF as [|dev [a m] devs results Hd _ IH]; simpl; [reflexivity|].
  destruct (process_device_shape _ _ _ _ _ _ Hd) as (top & _ & Hr & _).
  rewrite Hr, IH. reflexivity.
Qed.

Lemma X13_process_echoes_requests_witness :
  List.map request (actions (output_of (fst (@process no_overlap scenario_batch ∅))))
  = List.map request_echo (intent_devices scenario_batch).
Proof.
  refine (proj2 (proj2 (@X13_process_echoes_requests no_overlap scenario_batch ∅ _ _))).
  vm_compute. reflexivity.
Defined.

(** X14.  The flat list of matched devices is exactly the ranked targets
    of all the actions, in order, each with the service of its own
    request: no target is left out, and nothing that is not a target,
    in particular no suggestion, is listed. *)
Theorem X14_matched_devices_are_targets `{Vectorizer} (p : Payload) (st : AliasIndices)
    (out : Output) :
  fst (process p st) = Ok out ->
  matched_devices out
  = flat_map (fun a =>
                List.map (fun t => {| md_entity_id := t_entity_id t;
                                      md_service := rq_service (request a) |})
                         (targets a))
             (actions out).
Proof.
  unfold process. cbn [fst]. intros Hp.
  destruct (process_devices_spec _ _ _ _ _ _ Hp) as (_ & _ & results & HF & Ha & Hm).
  rewrite Ha, Hm. simpl. clear Ha Hm Hp.
  induction HF as [|dev [a m] devs results Hd _ IH]; simpl; [reflexivity|].
  destruct (process_device_shape _ _ _ _ _ _ Hd) as (top & _ & Hr & Ht & Hmd & _).
  rewrite IH, Ht, Hr, Hmd, List.map_map. reflexivity.
Qed.

Lemma X14_matched_devices_are_targets_witness :
  List.map md_entity_id
    (matched_devices (output_of (fst (@process no_overlap scenario_batch ∅))))
  = [py "light.living_lamp"].
Proof.
  rewrite (@X14_matched_devices_are_targets no_overlap scenario_batch ∅
             (output_of (fst (@process no_overlap scenario_batch ∅)))).
  - vm_compute. reflexivity.
  - vm_compute. reflexivity.
Defined.

Lemma filter_candidates_empty dev : filter_candidates dev [] (build_type_index []) = [].
Proof.
  unfold filter_candidates, narrow, type_pool, build_type_index. simpl.
  rewrite !lookup_empty. simpl.
  repeat match goal with |- context [if ?b then _ else _] => destruct b end; reflexivity.
Qed.

Lemma process_devices_empty_pool `{Vectorizer} indices p devs out0 :
  entities p = [] ->
  exists out,
    process_devices indices p (build_type_index []) devs out0 = Ok out /\
    matched_devices out = matched_devices out0 /\
    forall a, In a (actions out) ->
      In a (actions out0) \/
      (targets a = [] /\ suggestions_if_empty a = [] /\ disambiguation_required a = false).
Proof.
  intros He. revert out0. induction devs as [|dev rest IH]; simpl; intros out0.
  - exists out0. split; [reflexivity|]. split; [reflexivity|]. auto.
  - unfold process_device. rewrite He, filter_candidates_empty.
    unfold rank. simpl score_pool. cbn [bind].
    assert (S : forall k : Z, slice_to (sort_desc si_score (@nil ScoredItem)) k = []).
    { intros k. unfold slice_to. simpl. destruct (0 <=? k)%Z; apply firstn_nil. }
    rewrite S. cbn [bind is_nil List.map needs_disambiguation].
    assert (L : loose_suggestions dev [] (cfg p) = []).
    { rewrite loose_suggestions_ranked. reflexivity. }
    rewrite L.
    edestruct IH as (out & Ho & Hm & Ha). exists out. split; [exact Ho|].
    split; [rewrite Hm; simpl; apply app_nil_r|].
    intros a Hin. destruct (Ha a Hin) as [Hold|Hnew]; [|now right].
    simpl in Hold. apply in_app_or in Hold as [Hold|[<-|[]]]; [now left|].
    right. repeat split.
Qed.

(** X15.  Against an empty entity list, whenever [process] returns, it
    has answered every request with no target, no suggestion and no
    disambiguation, and it lists no matched device. *)
Theorem X15_process_empty_pool `{Vectorizer} (p : Payload) (st : AliasIndices)
    (out : Output) :
  entities p = [] ->
  fst (process p st) = Ok out ->
  length (actions out) = length (intent_devices p) /\
  matched_devices out = [] /\
  forall a, In a (actions out) ->
    targets a = [] /\ suggestions_if_empty a = [] /\ disambiguation_required a = false.
Proof.
  intros He. unfold process. cbn [fst]. rewrite He. intros Hout.
  destruct (process_devices_empty_pool (fresh_alias_indices (aliases p)) p
              (intent_devices p)
              {| intent := intent_name p; user_input := user_query p;
                 actions := []; matched_devices := [] |} He) as (out' & Ho & Hm & Ha).
  rewrite Hout in Ho. injection Ho as <-.
  split; [rewrite (process_devices_length _ _ _ _ _ _ Hout); reflexivity|].
  split; [exact Hm|].
  intros a Hin. destruct (Ha a Hin) as [[]|Hnew]. exact Hnew.
Qed.

Lemma X15_process_empty_pool_witness :
  let out := output_of (fst (@process no_overlap
                               (batch [scenario_request] [] topK_minus_one) ∅)) in
  length (actions out) = 1%nat /\
  matched_devices out = [] /\
  forall a, In a (actions out) ->
    targets a = [] /\ suggestions_if_empty a = [] /\ disambiguation_required a = false.
Proof.
  cbv zeta.
  apply (@X15_process_empty_pool no_overlap (batch [scenario_request] [] topK_minus_one) ∅).
  - reflexivity.
  - vm_compute. reflexivity.
Defined.

Lemma score_pool_missing_F `{Vectorizer} indices dev pool al config :
  w_F (get_or (weights config) default_weights) = None ->
  (exists e, In e pool /\ all_pass config (field_scores indices dev e al) = true) ->
  score_pool indices dev pool al config = Raise "KeyError: F".
Proof.
  intros HF. induction pool as [|e rest IH]; simpl; intros (e' & Hin & Hp); [destruct Hin|].
  unfold compute_scores_for_device at 1.
  destruct (all_pass config (field_scores indices dev e al)) eqn:A; simpl.
  - rewrite HF. reflexivity.
  - destruct Hin as [<-|Hin]; [congruence|].
    rewrite IH by eauto. reflexivity.
Qed.

Lemma score_pool_outcome_missing_F `{Vectorizer} indices dev pool al config :
  w_F (get_or (weights config) default_weights) = None ->
  score_pool indices dev pool al config = Raise "KeyError: F"
  \/ exists scored, score_pool indices dev pool al config = Ok scored.
Proof.
  intros HF. induction pool as [|e rest IH]; simpl; [eauto|].
  unfold compute_scores_for_device.
  destruct (all_pass config (field_scores indices dev e al)); simpl.
  - rewrite HF. now left.
  - destruct IH as [-> |[scored ->]]; simpl; [now left|right; eexists; reflexivity].
Qed.

Lemma process_devices_missing_F `{Vectorizer} indices p type_index devs out0 :
  w_F (get_or (weights (cfg p)) default_weights) = None ->
  (exists dev e,
      In dev devs /\ In e (filter_candidates dev (entities p) type_index) /\
      all_pass (cfg p) (field_scores indices dev e (aliases p)) = true) ->
  process_devices indices p type_index devs out0 = Raise "KeyError: F".
Proof.
  intros HF. revert out0.
  induction devs as [|dev rest IH]; simpl; intros out0 (dev' & e & Hd & He & Hp);
    [destruct Hd|].
  unfold process_device, rank.
  destruct (score_pool_outcome_missing_F indices dev
              (filter_candidates dev (entities p) type_index) (aliases p) (cfg p) HF)
    as [-> |[scored Hs]]; [reflexivity|].
  destruct Hd as [<-|Hd].
  - rewrite (score_pool_missing_F indices dev _ (aliases p) (cfg p) HF) in Hs by eauto.
    discriminate.
  - rewrite Hs. simpl. apply IH. eauto.
Qed.

(** X16.  A weights table without the key [F] makes the whole batch fail
    as soon as one request has one candidate that passes its gates:
    [process] then raises [KeyError: F] and returns no output at all,
    not even for the requests that had no accepted candidate. *)
Theorem X16_process_missing_weight_raises `{Vectorizer} (p : Payload) (st : AliasIndices)
    (dev e : Obj) :
  w_F (get_or (weights (cfg p)) default_weights) = None ->
  In dev (intent_devices p) ->
  In e (filter_candidates dev (entities p) (build_type_index (entities p))) ->
  all_pass (cfg p)
    (field_scores (fresh_alias_indices (aliases p)) dev e (aliases p)) = true ->
  fst (process p st) = Raise "KeyError: F".
Proof.
  intros HF Hd He Hp. unfold process. cbn [fst].
  apply process_devices_missing_F; [exact HF|]. eauto.
Qed.

Lemma X16_process_missing_weight_raises_witness :
  fst (@process no_overlap
         (batch [scenario_request] [bedroom_lamp; living_lamp] weights_without_F) ∅)
  = Raise "KeyError: F".
Proof.
  apply (@X16_process_missing_weight_raises no_overlap
           (batch [scenario_request] [bedroom_lamp; living_lamp] weights_without_F) ∅
           scenario_request living_lamp).
  - reflexivity.
  - now left.
  - vm_compute. right. now left.
  - vm_compute. reflexivity.
Defined.

(** ** Ranking order *)




(** ** The type index and the candidate pool *)

Lemma get_or_insert (index : TypeIndex) (k' k : str) (l : list Obj) :
  get_or (<[k' := l]> index !! k) [] = if decide (k' = k) then l else get_or (index !! k) [].
Proof. rewrite lookup_insert. destruct (decide (k' = k)); reflexivity. Qed.

Lemma normalize_nil_of_falsy (s : str) : truthy s = false -> normalize s = [].
Proof. intros F. apply truthy_false in F. subst. reflexivity. Qed.

(** One entity extends the list of a key by itself at most once, and
    only where it belongs. *)
Lemma index_entity_get (index : TypeIndex) (e : Obj) (k : str) :
  exists b : bool,
    get_or (index_entity index e !! k) []
    = get_or (index !! k) [] ++ (if b then [e] else []) /\
    (b = true -> listed_under k e) /\
    (listed_under k e -> b = true \/ In e (get_or (index !! k) [])).
Proof.
  unfold listed_under, index_entity. fold (domain_of e).
  pose proof (normalize_nil_of_falsy (domain_of e)) as Hd.
  pose proof (normalize_nil_of_falsy (device_type e)) as Ht.
  set (d := normalize (domain_of e)) in *.
  set (t := normalize (device_type e)) in *.
  destruct (truthy (domain_of e)); destruct (truthy d) eqn:Td;
    destruct (truthy (device_type e)); destruct (truthy t) eqn:Tt;
    cbn [andb negb];
    try (destruct (str_eqb t d) eqn:E; cbn [negb];
         [apply str_eqb_eq in E|apply bool_decide_eq_false in E]);
    try (destruct (bool_decide _) eqn:B;
         [apply bool_decide_eq_true in B|apply bool_decide_eq_false in B]);
    repeat rewrite get_or_insert in *;
    repeat (destruct (decide _)); subst;
    try rewrite list_elem_of_In in *.
  all: try apply truthy_true in Td; try apply truthy_false in Td;
    try apply truthy_true in Tt; try apply truthy_false in Tt.
  all: try specialize (Hd eq_refl); try specialize (Ht eq_refl).
  all: try congruence.
  all: try (exists true; split; [try rewrite app_nil_r; reflexivity|]; split;
            [intros _; split; [congruence|tauto]|tauto]).
  all: try (exists false; split; [try rewrite app_nil_r; reflexivity|]; split;
            [discriminate|]; intros [Hk [Hx|Hx]]; try congruence; try tauto).
Qed.

Lemma index_entity_no_empty_list (index : TypeIndex) (e : Obj) :
  (forall k, index !! k <> Some []) -> forall k, index_entity index e !! k <> Some [].
Proof.
  intros Hne. unfold index_entity.
  assert (Hins : forall (m : TypeIndex) k' l,
             (forall k, m !! k <> Some []) -> l <> [] ->
             forall k, <[k' := l]> m !! k <> Some []).
  { intros m k' l Hm Hl k. rewrite lookup_insert.
    destruct (decide (k' = k)); [congruence|apply Hm]. }
  assert (Happ : forall l : list Obj, l ++ [e] <> []) by (intros [|? ?]; discriminate).
  set (index1 := if truthy _ then _ else index).
  assert (H1 : forall k, index1 !! k <> Some []).
  { unfold index1. destruct (truthy _); [|exact Hne].
    destruct (truthy _); [|exact Hne]. apply Hins; [exact Hne|apply Happ]. }
  destruct (truthy (device_type e)); [|exact H1].
  destruct (_ && _); [|exact H1].
  destruct (bool_decide _) eqn:B; apply Hins; try exact H1; try apply Happ.
  apply bool_decide_eq_true in B. intros E. rewrite E in B. inversion B.
Qed.

Lemma index_entity_inv (index : TypeIndex) (seen : list Obj) (e : Obj) :
  type_index_inv index seen -> type_index_inv (index_entity index e) (seen ++ [e]).
Proof.
  intros I k. destruct (I k) as (Hsub & Hmem & _).
  destruct (index_entity_get index e k) as (b & -> & Hb & Hl).
  split; [|split].
  - destruct b.
    + apply sublist_app; [exact Hsub|reflexivity].
    + rewrite app_nil_r. apply sublist_inserts_r, Hsub.
  - intros x. rewrite !in_app_iff, Hmem. split.
    + intros [[Hx L]|Hx]; [tauto|].
      destruct b; [|destruct Hx]. destruct Hx as [<-|[]].
      split; [right; now left|apply Hb; reflexivity].
    + intros [[Hx|[<-|[]]] L]; [tauto|].
      destruct (Hl L) as [->|Hin]; [right; now left|].
      left. apply Hmem, Hin.
  - apply index_entity_no_empty_list. intros k'. apply I.
Qed.

Lemma fold_index_inv (ents : list Obj) :
  forall (index : TypeIndex) (seen : list Obj),
    type_index_inv index seen ->
    type_index_inv (fold_left index_entity ents index) (seen ++ ents).
Proof.
  induction ents as [|e rest IH]; simpl; intros index seen I.
  - rewrite app_nil_r. exact I.
  - replace (seen ++ e :: rest) with ((seen ++ [e]) ++ rest)
      by (rewrite <- app_assoc; reflexivity).
    apply IH, index_entity_inv, I.
Qed.

Lemma build_type_index_inv (ents : list Obj) : type_index_inv (build_type_index ents) ents.
Proof.
  apply (fold_index_inv ents ∅ []). intros k. rewrite lookup_empty. simpl.
  split; [constructor|]. split; [|discriminate].
  intros e. split; [intros []|intros [[] _]].
Qed.

(** X19.  The type index lists, under a key, exactly the entities whose
    domain (the part of the entity identifier before the first dot) or
    whose device type normalises to that key, the key being non-empty;
    it lists them in the order of the entity list, and it holds no key
    with an empty list. *)
Theorem X19_type_index_exact (ents : list Obj) (k : str) :
  let l := get_or (build_type_index ents !! k) [] in
  (forall e, In e l <->
             In e ents /\ k <> [] /\
             (normalize (domain_of e) = k \/ normalize (device_type e) = k)) /\
  sublist l ents /\
  build_type_index ents !! k <> Some [].
Proof.
  cbv zeta. destruct (build_type_index_inv ents k) as (Hsub & Hmem & Hne).
  split; [exact Hmem|]. split; assumption.
Qed.

Lemma nothing_listed_is_nil (ents : list Obj) (k : str) :
  is_nil (get_or (build_type_index ents !! k) []) = true <->
  forall e, In e ents -> ~ listed_under k e.
Proof.
  destruct (build_type_index_inv ents k) as (_ & Hmem & _).
  rewrite is_nil_true. split.
  - intros E e He L. assert (X : In e []) by (rewrite <- E; apply Hmem; tauto).
    destruct X.
  - intros Hno. destruct (get_or _ _) as [|x l] eqn:E; [reflexivity|].
    destruct (proj1 (Hmem x) (or_introl eq_refl)) as [Hx L]. destruct (Hno x Hx L).
Qed.

Lemma no_empty_key (ents : list Obj) : get_or (build_type_index ents !! []) [] = [].
Proof.
  apply is_nil_true, nothing_listed_is_nil. intros e _ [Hk _]. congruence.
Qed.

(** The pool after the type stage: the list of the requested type, else
    the list of the service domain, else every entity. *)
Lemma type_pool_scoped (dev : Obj) (ents : list Obj) :
  let by_type :=
    get_or (build_type_index ents !! normalize (get_primary_field dev Type_)) [] in
  let by_service :=
    get_or (build_type_index ents !! normalize (service_domain_of dev)) [] in
  type_pool dev ents (build_type_index ents) =
    if negb (is_nil by_type) then by_type
    else if negb (is_nil by_service) then by_service
    else ents.
Proof.
  cbv zeta. unfold type_pool. fold (service_domain_of dev).
  pose proof (no_empty_key ents) as Hnil.
  destruct (truthy (get_primary_field dev Type_)) eqn:Tt;
    destruct (truthy (service_domain_of dev)) eqn:Ts.
  - destruct (is_nil (get_or (_ !! normalize (get_primary_field dev Type_)) [])) eqn:E1;
      cbn [negb andb]; [|rewrite E1; reflexivity].
    destruct (is_nil (get_or (_ !! normalize (service_domain_of dev)) [])) eqn:E2;
      reflexivity.
  - rewrite (normalize_nil_of_falsy _ Ts), Hnil, Bool.andb_false_r.
    cbn [is_nil negb].
    destruct (is_nil _); reflexivity.
  - rewrite (normalize_nil_of_falsy _ Tt), Hnil. cbn [is_nil negb].
    destruct (is_nil _); reflexivity.
  - rewrite (normalize_nil_of_falsy _ Tt), (normalize_nil_of_falsy _ Ts), Hnil.
    reflexivity.
Qed.

Lemma narrow_sublist limit field dev pool : sublist (narrow limit field dev pool) pool.
Proof.
  rewrite narrow_cases. cbv zeta.
  destruct (_ && _ && _); [|reflexivity].
  induction pool as [|x r IH]; simpl; [constructor|].
  destruct (field_contains field dev x); [apply sublist_skip|apply sublist_cons]; exact IH.
Qed.

(** X20.  The candidate pool of a request keeps the order of the entity
    list and never repeats an entity more often than the list does.
    Its scope is the requested device type when some entity is listed
    under it, else the domain of the requested service when some entity
    is listed under that, else every entity: in the first two cases each
    candidate is listed under that key, and in the last case the pool is
    the whole entity list before the room and floor stages. *)
Theorem X20_candidate_pool_scope (dev : Obj) (ents : list Obj) :
  let kt := normalize (get_primary_field dev Type_) in
  let ks := normalize (service_domain_of dev) in
  let pool := filter_candidates dev ents (build_type_index ents) in
  sublist pool ents /\
  ((exists e0, In e0 ents /\ listed_under kt e0) ->
   forall e, In e pool -> listed_under kt e) /\
  ((forall e0, In e0 ents -> ~ listed_under kt e0) ->
   (exists e0, In e0 ents /\ listed_under ks e0) ->
   forall e, In e pool -> listed_under ks e) /\
  ((forall e0, In e0 ents -> ~ listed_under kt e0) ->
   (forall e0, In e0 ents -> ~ listed_under ks e0) ->
   type_pool dev ents (build_type_index ents) = ents).
Proof.
  cbv zeta.
  pose proof (type_pool_scoped dev ents) as TP. cbv zeta in TP.
  pose proof (nothing_listed_is_nil ents (normalize (get_primary_field dev Type_))) as Nt.
  pose proof (nothing_listed_is_nil ents (normalize (service_domain_of dev))) as Ns.
  destruct (build_type_index_inv ents (normalize (get_primary_field dev Type_)))
    as (St & Mt & _).
  destruct (build_type_index_inv ents (normalize (service_domain_of dev)))
    as (Ss & Ms & _).
  split; [|split; [|split]].
  - unfold filter_candidates.
    etransitivity; [apply narrow_sublist|].
    etransitivity; [apply narrow_sublist|].
    rewrite TP.
    destruct (is_nil _); cbn [negb]; [|exact St].
    destruct (is_nil _); cbn [negb]; [reflexivity|exact Ss].
  - intros (e0 & He0 & L0) e Hin.
    unfold filter_candidates in Hin. apply narrow_incl, narrow_incl in Hin.
    rewrite TP in Hin.
    assert (E : is_nil (get_or (build_type_index ents
                                  !! normalize (get_primary_field dev Type_)) []) = false).
    { apply Bool.not_true_is_false. intros E. destruct (proj1 Nt E e0 He0 L0). }
    rewrite E in Hin. cbn [negb] in Hin. apply Mt in Hin. tauto.
  - intros Hno (e0 & He0 & L0) e Hin.
    unfold filter_candidates in Hin. apply narrow_incl, narrow_incl in Hin.
    rewrite TP in Hin.
    rewrite (proj2 Nt Hno) in Hin. cbn [negb] in Hin.
    assert (E : is_nil (get_or (build_type_index ents
                                  !! normalize (service_domain_of dev)) []) = false).
    { apply Bool.not_true_is_false. intros E. destruct (proj1 Ns E e0 He0 L0). }
    rewrite E in Hin. cbn [negb] in Hin. apply Ms in Hin. tauto.
  - intros Hnt Hns. rewrite TP, (proj2 Nt Hnt), (proj2 Ns Hns). reflexivity.
Qed.

(** ** Validation, the entry point and the envelope *)

Section EntryPoint.
Context {R : Type} (run_process : json -> result R).

(** X21.  A payload whose device sequence and entity sequence are both
    lists passes validation with an empty message, and [main] prints
    exactly one object for it: the result of [process], or the error of
    the exception [process] raised. *)
Theorem X21_well_formed_payload_runs (payload : json) (devs ents : list json) :
  device_sequence payload = Some (JList devs) ->
  entity_sequence payload = Some (JList ents) ->
  validate_input payload = (true, ""%string) /\
  main_one_shot run_process (Value payload)
  = [match run_process payload with
     | Ok r => PrintResult r
     | Raise e => PrintException e
     end].
Proof.
  intros Hd He.
  assert (V : fst (validate_input payload) = true)
    by (apply validate_input_accepts; eauto).
  assert (M : snd (validate_input payload) = ""%string).
  { revert V. unfold validate_input.
    repeat match goal with
           | |- context [if ?b then _ else _] => destruct b
           end; simpl; congruence. }
  destruct (validate_input payload) as [valid message] eqn:E. simpl in V, M. subst.
  split; [reflexivity|].
  unfold main_one_shot, handle. rewrite E. simpl.
  destruct (run_process payload); reflexivity.
Qed.

Lemma handle_single (line : Loaded) :
  loads line = true -> exists out, handle run_process line = [out].
Proof.
  unfold handle. destruct line as [payload| |exc]; [|eauto|discriminate].
  intros _. destruct (validate_input payload) as [[|] message]; simpl; [|eauto].
  destruct (run_process payload); eauto.
Qed.

(** X22.  The daemon prints exactly one object for every non-blank line
    it reads, in the order of the lines, up to the end of the input or
    to the first line on which the JSON parser raises an exception other
    than a decode error: the n-th object is what the n-th line alone
    would have printed, whether that line was not JSON, failed
    validation, made [process] raise or was processed.  From the line
    with the uncaught exception on nothing is printed. *)
Theorem X22_daemon_one_reply_per_line (answered rest : list Loaded) :
  forallb loads answered = true ->
  rest = [] \/ (exists exc after, rest = OtherError exc :: after) ->
  Forall2 (fun line out => handle run_process line = [out])
          answered (main_daemon run_process (answered ++ rest)) /\
  length (main_daemon run_process (answered ++ rest)) = length answered.
Proof.
  intros Hl Hrest.
  assert (F : Forall2 (fun line out => handle run_process line = [out])
                      answered (main_daemon run_process (answered ++ rest))).
  { induction answered as [|line more IH]; simpl in *.
    - destruct Hrest as [-> |(exc & after & ->)]; constructor.
    - apply Bool.andb_true_iff in Hl as [Hline Hmore].
      destruct (handle_single line Hline) as [out Ho].
      destruct line as [payload| |exc]; [| |discriminate];
        rewrite Ho; simpl; (constructor; [exact Ho|exact (IH Hmore)]). }
  split; [exact F|]. symmetry. eapply Forall2_length, F.
Qed.
End EntryPoint.

Lemma X21_well_formed_payload_runs_witness :
  validate_input (JObj [("entities"%string, JList []); ("intent_devices"%string, JList [])])
  = (true, ""%string) /\
  main_one_shot (fun _ : json => Ok tt)
    (Value (JObj [("entities"%string, JList []); ("intent_devices"%string, JList [])]))
  = [PrintResult tt].
Proof.
  apply (X21_well_formed_payload_runs (fun _ : json => Ok tt)
           (JObj [("entities"%string, JList []); ("intent_devices"%string, JList [])])
           [] []); reflexivity.
Defined.

Lemma X22_daemon_one_reply_per_line_witness :
  main_daemon (fun _ : json => Ok tt)
    [DecodeError; Value JNull; OtherError "RecursionError"; DecodeError]
  = [PrintInvalidJSON; PrintError "Payload must be a dictionary"].
Proof.
  destruct (X22_daemon_one_reply_per_line (fun _ : json => Ok tt)
              [DecodeError; Value JNull] [OtherError "RecursionError"; DecodeError])
    as [_ Hlen].
  - reflexivity.
  - right. eauto.
  - reflexivity.
Defined.

(** X23.  For a payload that passed validation and does not carry both
    of the keys [success] and [data], the envelope detection of
    [process] cannot fail, and the device requests and the entities it
    hands on are the two validated lists. *)
Theorem X23_envelope_of_validated_payload (members : list (string * json))
    (devs ents : list json) :
  device_sequence (JObj members) = Some (JList devs) ->
  entity_sequence (JObj members) = Some (JList ents) ->
  has_key "success" (JObj members) && has_key "data" (JObj members) = false ->
  exists x,
    extract_envelope members = Ok x /\
    x_intent_devices x = JList devs /\
    x_entities x = JList ents.
Proof.
  unfold device_sequence, entity_sequence, is_wrapped, extract_envelope.
  intros Hd He Hdirect. rewrite Hdirect. cbn [bind].
  cbn [has_key dict_get] in *.
  destruct (match assoc "intention_data" members with Some _ => true | None => false end
            || match assoc "entities_data" members with Some _ => true | None => false end)
    eqn:W.
  - cbn [path_get] in Hd, He.
    destruct (assoc "intention_data" members) as [[| | | | |im]|]; try discriminate.
    destruct (assoc "entities_data" members) as [[| | | | |em]|]; try discriminate.
    destruct (assoc "data" im) as [[| | | | |dm]|] eqn:Di; try discriminate.
    destruct (assoc "data" em) as [[| | | | |edm]|] eqn:De; try discriminate.
    destruct (assoc "devices" dm) as [v|] eqn:Dv; [|discriminate].
    destruct (assoc "entities" edm) as [w|] eqn:Ew; [|discriminate].
    injection Hd as ->. injection He as ->.
    cbn [get_or is_dict dict_get method_get bind]. rewrite Di, De.
    cbn [get_or method_get bind]. rewrite Dv, Ew.
    eexists. split; [reflexivity|]. split; reflexivity.
  - cbn [path_get] in Hd, He.
    destruct (assoc "intent_devices" members) as [v|]; [|discriminate].
    destruct (assoc "entities" members) as [w|]; [|discriminate].
    injection Hd as ->. injection He as ->.
    eexists. split; [reflexivity|]. cbn [x_intent_devices x_entities get_or].
    split; [destruct devs|destruct ents]; reflexivity.
Qed.

Lemma X23_envelope_of_validated_payload_witness :
  exists x,
    extract_envelope [("entities"%string, JList [JNull]);
                      ("intent_devices"%string, JList [])] = Ok x /\
    x_intent_devices x = JList [] /\
    x_entities x = JList [JNull].
Proof.
  apply (X23_envelope_of_validated_payload
           [("entities"%string, JList [JNull]); ("intent_devices"%string, JList [])]
           [] [JNull]); reflexivity.
Defined.

(** X24.  A payload that carries the keys [success] and [data] is read
    as the direct envelope whenever [data] is a dictionary with a
    [devices] member: whatever that member is becomes the device
    requests, unchecked, and the entity list handed on is empty, even
    where validation has accepted the payload for the entities it holds
    elsewhere.  When [data] is null, a boolean or a number, the envelope
    detection raises a type error. *)
Theorem X24_direct_envelope (members : list (string * json)) (s d : json) :
  assoc "success" members = Some s ->
  assoc "data" members = Some d ->
  match d with
  | JObj dm =>
      forall v, assoc "devices" dm = Some v ->
                exists x, extract_envelope members = Ok x /\
                          x_intent_devices x = v /\ x_entities x = JList []
  | JNull | JBool _ | JNum _ => extract_envelope members = Raise "TypeError"
  | _ => True
  end.
Proof.
  intros Hs Hd. unfold extract_envelope. cbn [has_key dict_get].
  rewrite Hs, Hd. cbn [andb get_or].
  destruct d as [| | | | |dm]; try reflexivity; try exact I.
  intros v Hv. cbn [devices_in bind method_get]. rewrite Hv. cbn [get_or bind].
  eexists. split; [reflexivity|]. split; reflexivity.
Qed.

Lemma X24_direct_envelope_witness :
  fst (validate_input (JObj [("success"%string, JBool true); ("data"%string, JNull);
                             ("entities"%string, JList []);
                             ("intent_devices"%string, JList [])])) = true /\
  extract_envelope [("success"%string, JBool true); ("data"%string, JNull);
                    ("entities"%string, JList []); ("intent_devices"%string, JList [])]
  = Raise "TypeError".
Proof.
  split; [reflexivity|].
  apply (X24_direct_envelope
           [("success"%string, JBool true); ("data"%string, JNull);
            ("entities"%string, JList []); ("intent_devices"%string, JList [])]
           (JBool true) JNull); reflexivity.
Defined.

(** ** matcher.py: canonical forms *)


Lemma normalize_text_is_normalize (s : str) : Matcher.normalize_text s = normalize s.
Proof. reflexivity. Qed.

Lemma normalize_text_idem (s : str) :
  Matcher.normalize_text (Matcher.normalize_text s) = Matcher.normalize_text s.
Proof. apply normalize_idem. Qed.

Lemma find_alias_key key_form n (tbl : AliasMap) key :
  Matcher.find_alias key_form n tbl = Some key -> In key (List.map fst tbl).
Proof.
  induction tbl as [|[k al] rest IH]; simpl; [discriminate|].
  destruct (str_eqb n (key_form k)); [intros [= <-]; now left|].
  destruct (existsb _ al); [intros [= <-]; now left|].
  intros F. right. apply IH, F.
Qed.

Lemma room_keys_fixed :
  forallb (fun k => str_eqb (Matcher.normalize_room k) k)
          (List.map fst Matcher.ROOM_ALIASES) = true.
Proof. vm_compute. reflexivity. Qed.

Lemma floor_keys_fixed :
  forallb (fun k => str_eqb (Matcher.normalize_floor k) k)
          (List.map fst Matcher.FLOOR_ALIASES) = true.
Proof. vm_compute. reflexivity. Qed.

Lemma normalize_room_idem (s : str) :
  Matcher.normalize_room (Matcher.normalize_room s) = Matcher.normalize_room s.
Proof.
  unfold Matcher.normalize_room at 2 3.
  destruct (truthy s); cbn [negb]; [|reflexivity].
  destruct (Matcher.find_alias _ _ _) as [key|] eqn:F; cbn [get_or].
  - apply find_alias_key in F.
    pose proof room_keys_fixed as K. rewrite forallb_forall in K.
    apply str_eqb_eq, K, F.
  - unfold Matcher.normalize_room.
    destruct (truthy (Matcher.normalize_text s)) eqn:Tn; cbn [negb].
    + rewrite normalize_text_idem, F. reflexivity.
    + symmetry. apply truthy_false, Tn.
Qed.

Lemma isdigit_truthy s : Matcher.isdigit s = true -> truthy s = true.
Proof. unfold Matcher.isdigit. intros H. apply andb_true_iff in H. tauto. Qed.

Lemma normalize_floor_idem (s : str) :
  Matcher.normalize_floor (Matcher.normalize_floor s) = Matcher.normalize_floor s.
Proof.
  unfold Matcher.normalize_floor at 2 3.
  destruct (truthy s); cbn [negb]; [|reflexivity].
  destruct (Matcher.isdigit (Matcher.normalize_text s)) eqn:Dg.
  - unfold Matcher.normalize_floor.
    rewrite (isdigit_truthy _ Dg), normalize_text_idem, Dg. reflexivity.
  - destruct (Matcher.find_alias _ _ _) as [key|] eqn:F; cbn [get_or].
    + apply find_alias_key in F.
      pose proof floor_keys_fixed as K. rewrite forallb_forall in K.
      apply str_eqb_eq, K, F.
    + unfold Matcher.normalize_floor.
      destruct (truthy (Matcher.normalize_text s)) eqn:Tn; cbn [negb].
      * rewrite normalize_text_idem, Dg, F. reflexivity.
      * symmetry. apply truthy_false, Tn.
Qed.

(** X25.  The room and floor normalisers of matcher.py give canonical
    forms: the result is a key of the alias table or the normal form of
    the text, and normalising a result again leaves it as it is. *)
Theorem X25_room_and_floor_canonical_forms (s : str) :
  Matcher.normalize_room (Matcher.normalize_room s) = Matcher.normalize_room s /\
  Matcher.normalize_floor (Matcher.normalize_floor s) = Matcher.normalize_floor s /\
  (In (Matcher.normalize_room s) (List.map fst Matcher.ROOM_ALIASES)
   \/ Matcher.normalize_room s = Matcher.normalize_text s) /\
  (In (Matcher.normalize_floor s) (List.map fst Matcher.FLOOR_ALIASES)
   \/ Matcher.normalize_floor s = Matcher.normalize_text s).
Proof.
  split; [apply normalize_room_idem|]. split; [apply normalize_floor_idem|]. split.
  - unfold Matcher.normalize_room.
    destruct (truthy s) eqn:Ts; cbn [negb].
    + destruct (Matcher.find_alias _ _ _) as [key|] eqn:F; cbn [get_or];
        [left; eapply find_alias_key, F|right; reflexivity].
    + right. apply truthy_false in Ts. subst. reflexivity.
  - unfold Matcher.normalize_floor.
    destruct (truthy s) eqn:Ts; cbn [negb].
    + destruct (Matcher.isdigit _); [right; reflexivity|].
      destruct (Matcher.find_alias _ _ _) as [key|] eqn:F; cbn [get_or];
        [left; eapply find_alias_key, F|right; reflexivity].
    + right. apply truthy_false in Ts. subst. reflexivity.
Qed.

(** ** matcher.py: the slot similarity *)

Lemma argmax_from_spec (l : list Q) :
  forall best_i best i,
    Matcher.argmax_from best_i best i l = best_i
    \/ (i <= Matcher.argmax_from best_i best i l < i + length l)%nat.
Proof.
  induction l as [|x r IH]; simpl; intros best_i best i; [now left|].
  destruct (Qle_bool x best).
  - destruct (IH best_i best (S i)) as [E|E]; [now left|right; lia].
  - destruct (IH i x (S i)) as [E|E]; right; lia.
Qed.

Lemma argmax_lt (l : list Q) : l <> [] -> (Matcher.argmax l < length l)%nat.
Proof.
  destruct l as [|x r]; [congruence|]. intros _. simpl.
  destruct (argmax_from_spec r O x 1%nat) as [E|E]; lia.
Qed.

Lemma calculate_tfidf_similarity_wf `{Vectorizer} (q : str) (cs : list str) :
  cosines_wf ->
  length (Matcher.calculate_tfidf_similarity q cs) = length cs /\
  List.Forall (fun x => 0 <= x <= 1) (Matcher.calculate_tfidf_similarity q cs).
Proof.
  intros W. unfold Matcher.calculate_tfidf_similarity.
  assert (Z : length (List.map (fun _ : str => 0) cs) = length cs /\
              List.Forall (fun x => 0 <= x <= 1) (List.map (fun _ : str => 0) cs)).
  { split; [apply length_map|]. apply List.Forall_forall. intros x Hx.
    apply in_map_iff in Hx as (? & <- & _). lra. }
  destruct (_ || _); [exact Z|]. destruct (forallb _ _); [exact Z|apply W].
Qed.

Lemma slot_similarity_bounds `{Vectorizer} (query : str) (candidates : list str) :
  cosines_wf ->
  let r := Matcher.slot_similarity query candidates in
  0 <= Matcher.sim_score r <= 1 /\
  (Matcher.sim_hit r = [] \/ In (Matcher.sim_hit r) candidates).
Proof.
  intros W. cbv zeta. unfold Matcher.slot_similarity.
  destruct (truthy (Matcher.normalize_text query)); cbn [negb];
    [|simpl; split; [lra|now left]].
  destruct (is_nil (List.filter truthy candidates)) eqn:Nv;
    [simpl; split; [lra|now left]|].
  destruct (List.find _ _) as [cand|] eqn:F.
  - apply find_some in F as (Hin & _). apply List.filter_In in Hin as (Hin & _).
    simpl. split; [lra|now right].
  - set (valid := List.filter truthy candidates) in *.
    set (texts := List.map Matcher.normalize_text valid).
    destruct (calculate_tfidf_similarity_wf (Matcher.normalize_text query) texts W)
      as (Hlen & Hrange).
    set (sims := Matcher.calculate_tfidf_similarity _ texts) in *.
    assert (Hne : sims <> []).
    { intros E. rewrite E in Hlen. simpl in Hlen. unfold texts in Hlen.
      rewrite length_map in Hlen. apply is_nil_false in Nv.
      destruct valid; [congruence|discriminate]. }
    pose proof (argmax_lt sims Hne) as Hlt.
    cbn [Matcher.sim_score Matcher.sim_hit]. split.
    + rewrite List.Forall_forall in Hrange. apply Hrange, nth_In, Hlt.
    + right.
      assert (Hv : In (nth (Matcher.argmax sims) valid []) valid).
      { apply nth_In. rewrite Hlen in Hlt. unfold texts in Hlt.
        rewrite length_map in Hlt. exact Hlt. }
      apply List.filter_In in Hv. tauto.
Qed.

(** X26.  Provided the vectorizer returns one cosine per candidate, each
    between 0 and 1, the slot similarity of matcher.py is between 0 and
    1 and its hit is empty or one of the candidates.  A query whose
    normal form is empty scores 0 with an empty hit.  When a candidate
    has the non-empty normal form of the query, the score is 1 and the
    hit is a candidate with that normal form. *)
Theorem X26_slot_similarity_range_and_hit `{Vectorizer} (query : str)
    (candidates : list str) :
  cosines_wf ->
  let r := Matcher.slot_similarity query candidates in
  0 <= Matcher.sim_score r <= 1 /\
  (Matcher.sim_hit r = [] \/ In (Matcher.sim_hit r) candidates) /\
  (Matcher.normalize_text query = [] ->
   Matcher.sim_score r = 0 /\ Matcher.sim_hit r = []) /\
  (forall c, In c candidates ->
             Matcher.normalize_text c = Matcher.normalize_text query ->
             Matcher.normalize_text query <> [] ->
             Matcher.sim_score r = 1 /\
             In (Matcher.sim_hit r) candidates /\
             Matcher.normalize_text (Matcher.sim_hit r) = Matcher.normalize_text query).
Proof.
  intros W. cbv zeta.
  destruct (slot_similarity_bounds query candidates W) as (Hrange & Hhit).
  split; [exact Hrange|]. split; [exact Hhit|]. clear Hrange Hhit.
  unfold Matcher.slot_similarity. split.
  - intros Hq. rewrite Hq. split; reflexivity.
  - intros c Hc Hn Hq. rewrite (proj2 (truthy_true _) Hq). cbn [negb].
    assert (X : In c (List.filter truthy candidates)).
    { apply List.filter_In. split; [exact Hc|]. apply truthy_true. intros ->.
      apply Hq. rewrite <- Hn. reflexivity. }
    destruct (is_nil (List.filter truthy candidates)) eqn:Nv.
    { apply is_nil_true in Nv. rewrite Nv in X. destruct X. }
    destruct (List.find _ _) as [cand|] eqn:F.
    + apply find_some in F as (Hin & Hf).
      apply andb_true_iff in Hf as (_ & Heq). apply str_eqb_eq in Heq.
      apply List.filter_In in Hin as (Hin & _).
      simpl. split; [reflexivity|]. split; [exact Hin|]. symmetry. exact Heq.
    + pose proof (find_none _ _ F c X) as Hnone. cbv beta in Hnone.
      rewrite Hn, (proj2 (truthy_true _) Hq), str_eqb_refl in Hnone. discriminate.
Qed.

Lemma no_overlap_cosines_wf : @cosines_wf no_overlap.
Proof.
  intros q cs. simpl. split; [apply length_map|].
  apply List.Forall_forall. intros x Hx. apply in_map_iff in Hx as (? & <- & _). lra.
Qed.

Lemma X26_slot_similarity_range_and_hit_witness :
  let r := @Matcher.slot_similarity no_overlap (py "Living Room")
             [py ""; py "living_room"] in
  Matcher.sim_score r = 1 /\ Matcher.sim_hit r = py "living_room".
Proof.
  cbv zeta.
  destruct (@X26_slot_similarity_range_and_hit no_overlap (py "Living Room")
              [py ""; py "living_room"] no_overlap_cosines_wf)
    as (_ & _ & _ & Hexact).
  destruct (Hexact (py "living_room")) as (Hs & _ & _);
    [right; now left|vm_compute; reflexivity|vm_compute; discriminate|].
  split; [exact Hs|]. vm_compute. reflexivity.
Defined.

(** ** matcher.py: scoring and ranking *)

Lemma slots_range `{Vectorizer} (device entity : Obj) :
  cosines_wf ->
  let s := Matcher.slots device entity in
  0 <= Matcher.floor_score s <= 1 /\
  0 <= Matcher.room_score s <= 1 /\
  0 <= Matcher.sim_score (Matcher.name_sim s) <= 1 /\
  0 <= Matcher.type_score s <= 1 /\
  (Matcher.location_match_bonus s = 0 \/ Matcher.location_match_bonus s = 0.4).
Proof.
  intros W. cbv zeta.
  assert (S : forall q cs, 0 <= Matcher.sim_score (Matcher.slot_similarity q cs) <= 1)
    by (intros q cs; apply (slot_similarity_bounds q cs W)).
  unfold Matcher.slots.
  cbn [Matcher.floor_score Matcher.room_score Matcher.name_sim Matcher.type_score
       Matcher.location_match_bonus].
  split; [|split; [|split; [|split]]].
  - repeat match goal with
           | |- context [if ?b then _ else _] => destruct b
           end; try apply S; lra.
  - repeat match goal with
           | |- context [if ?b then _ else _] => destruct b
           end; try apply S; lra.
  - apply S.
  - repeat match goal with
           | |- context [if ?b then _ else _] => destruct b
           end; try apply S; lra.
  - destruct (truthy _); [|now left].
    destruct (Matcher.extract_location_from_name _) as [found loc].
    destruct (_ && _); [|now left].
    destruct (_ || _); [right|left]; reflexivity.
Qed.

Lemma exact_bonus_range (s : Matcher.Slots) : 0 <= Matcher.exact_bonus s <= 0.18.
Proof.
  unfold Matcher.exact_bonus.
  repeat match goal with
         | |- context [if ?b then _ else _] => destruct b
         end; lra.
Qed.

Lemma domain_check_cases (device entity : Obj) (s : Matcher.Slots) :
  Matcher.domain_check device entity s = (0, [])
  \/ Matcher.domain_check device entity s = (0.03, [])
  \/ Matcher.domain_check device entity s
     = (0, [py "Service domain mismatch for " ++ entity_id entity]).
Proof.
  unfold Matcher.domain_check.
  repeat match goal with
         | |- context [if ?b then _ else _] => destruct b
         end; auto.
Qed.

Lemma accepted_floor_weight (s : Matcher.Slots) :
  Matcher.rejected s = false -> truthy (Matcher.floor_q s) = true ->
  0.7 <= Matcher.floor_score s.
Proof.
  unfold Matcher.rejected, Matcher.floor_only_mode, Matcher.floor_pass.
  intros R T. rewrite T in R. cbn [andb] in R.
  destruct (Qge_bool (Matcher.floor_score s) Matcher.THRESHOLDS_floor) eqn:G.
  { apply Qge_bool_iff in G. unfold Matcher.THRESHOLDS_floor in G. lra. }
  cbn [negb] in R.
  repeat match type of R with
         | context [if ?b then _ else _] => destruct b
         end;
    rewrite ?Bool.orb_true_r in R; cbn [orb] in R;
    rewrite ?Bool.orb_true_r in R; discriminate.
Qed.

(** X27.  The ranking of one request in matcher.py is in non-increasing
    order of score and holds at most 100 entries; each entry is an entity
    of the list that passed the pool filter, with the score and the
    warnings the scorer gave it, and its score is not negative: a
    rejected pair, scored -1, is never ranked. *)
Theorem X27_matcher_ranking `{Vectorizer} (device : Obj) (entities : list Obj) :
  let top := Matcher.top_k device entities in
  StronglySorted (desc Matcher.rk_score) top /\
  (length top <= Matcher.BEST_K)%nat /\
  (forall r, In r top ->
             In (Matcher.rk_entity r) entities /\
             Matcher.entity_filter device (Matcher.rk_entity r) = true /\
             0 <= Matcher.rk_score r /\
             Matcher.rk_score r
             = Matcher.sr_score (Matcher.score_entity device (Matcher.rk_entity r)) /\
             Matcher.rk_warnings r
             = Matcher.sr_warnings (Matcher.score_entity device (Matcher.rk_entity r))).
Proof.
  cbv zeta. unfold Matcher.top_k. split; [|split].
  - apply StronglySorted_firstn, sort_desc_sorted.
  - apply firstn_le_length.
  - intros r Hin. apply firstn_In, sort_desc_In, in_flat_map in Hin.
    destruct Hin as (e & He & Hr). apply List.filter_In in He as (He & Hf).
    destruct (Qge_bool _ _) eqn:G; [|destruct Hr].
    destruct Hr as [<-|[]]. cbn. apply Qge_bool_iff in G. auto.
Qed.

(** X28.  Provided the vectorizer returns one cosine per candidate, each
    between 0 and 1, the scorer of matcher.py either rejects the pair
    with the score -1 and no warning, or accepts it with a score between
    0.105 and 1.61 and at most one warning, the service domain mismatch
    for the entity.  An accepted score is thus never the sentinel, and it
    can lie above 1 only through the bonuses. *)
Theorem X28_score_entity_outcomes `{Vectorizer} (device entity : Obj) :
  cosines_wf ->
  let r := Matcher.score_entity device entity in
  (Matcher.sr_score r = -1 /\ Matcher.sr_warnings r = [])
  \/ (0.105 <= Matcher.sr_score r <= 1.61 /\
      (Matcher.sr_warnings r = []
       \/ Matcher.sr_warnings r
          = [py "Service domain mismatch for " ++ entity_id entity])).
Proof.
  intros W. cbv zeta.
  destruct (slots_range device entity W) as (Hf & Hr & Hn & Ht & Hl).
  pose proof (exact_bonus_range (Matcher.slots device entity)) as Hx.
  unfold Matcher.score_entity.
  destruct (Matcher.is_all_devices _) eqn:A.
  { destruct (_ && _); [right|left]; cbn [Matcher.sr_score Matcher.sr_warnings];
      [|auto].
    split; [lra|now left]. }
  destruct (Matcher.rejected _) eqn:Rj; [left; auto|]. right.
  pose proof (accepted_floor_weight _ Rj) as Hfw.
  assert (Hb : 0.105 <= Matcher.base_score (Matcher.slots device entity) <= 1).
  { unfold Matcher.base_score, Matcher.WEIGHTS_F, Matcher.WEIGHTS_R,
      Matcher.WEIGHTS_N, Matcher.WEIGHTS_T.
    destruct (truthy (Matcher.floor_q _)); [specialize (Hfw eq_refl)|];
      destruct (_ && _); lra. }
  destruct (domain_check_cases device entity (Matcher.slots device entity))
    as [-> |[-> | ->]]; cbn [Matcher.sr_score Matcher.sr_warnings];
    (split; [destruct Hl as [-> | ->]; lra|auto]).
Qed.

Lemma X28_score_entity_outcomes_witness :
  let r := @Matcher.score_entity no_overlap scenario_request living_lamp in
  0.105 <= Matcher.sr_score r <= 1.61 /\ Matcher.sr_warnings r = [].
Proof.
  cbv zeta.
  destruct (@X28_score_entity_outcomes no_overlap scenario_request living_lamp
              no_overlap_cosines_wf) as [[Hs _]|[Hs _]].
  - vm_compute in Hs. discriminate.
  - split; [exact Hs|]. vm_compute. reflexivity.
Defined.

(** ** The alias expansion of the older interface *)

Lemma dict_fromkeys_In (x : str) (l : list str) : In x (dict_fromkeys l) <-> In x l.
Proof.
  induction l as [|y r IH]; simpl; [tauto|].
  rewrite List.filter_In, IH. split.
  - intros [E|[Hin _]]; auto.
  - intros [E|Hin]; [now left|].
    destruct (decide (y = x)) as [E|N]; [now left|right].
    split; [exact Hin|]. apply Bool.negb_true_iff, bool_decide_eq_false, N.
Qed.

Lemma filter_sublist {A} (f : A -> bool) (l : list A) : sublist (List.filter f l) l.
Proof.
  induction l as [|x r IH]; simpl; [constructor|].
  destruct (f x); [apply sublist_skip|apply sublist_cons]; exact IH.
Qed.

Lemma dict_fromkeys_NoDup (l : list str) : NoDup (dict_fromkeys l).
Proof.
  induction l as [|y r IH]; simpl; [apply NoDup_nil_2|].
  apply NoDup_cons_2.
  - rewrite list_elem_of_In, List.filter_In. intros [_ C].
    rewrite str_eqb_refl in C. discriminate.
  - eapply sublist_NoDup; [exact IH|apply filter_sublist].
Qed.

Lemma mem_normalized (v : str) (aliases : list str) :
  mem_str v (List.map normalize aliases) = true <->
  exists a, In a aliases /\ normalize a = v.
Proof.
  unfold mem_str. rewrite existsb_exists. split.
  - intros (x & Hx & E). apply in_map_iff in Hx as (a & <- & Ha).
    apply str_eqb_eq in E. eauto.
  - intros (a & Ha & E). exists (normalize a). split; [apply in_map, Ha|].
    apply str_eqb_eq. congruence.
Qed.

Lemma row_mentions_test (v key : str) (aliases : list str) :
  str_eqb v (normalize key) || mem_str v (List.map normalize aliases) = true <->
  row_mentions v (key, aliases).
Proof.
  unfold row_mentions. cbn [fst snd].
  rewrite Bool.orb_true_iff, str_eqb_eq, mem_normalized. intuition congruence.
Qed.

Lemma expand_alias_entry_first (v : str) (pre : AliasMap) (key : str)
    (aliases : list str) (post : AliasMap) :
  (forall row, In row pre -> ~ row_mentions v row) ->
  row_mentions v (key, aliases) ->
  expand_alias_entry v (pre ++ (key, aliases) :: post)
  = normalize key :: List.map normalize aliases.
Proof.
  intros Hpre Hrow. induction pre as [|[k al] pre IH]; simpl.
  - rewrite (proj2 (row_mentions_test v key aliases) Hrow). reflexivity.
  - destruct (_ || _) eqn:E.
    + apply row_mentions_test in E. destruct (Hpre (k, al)); [now left|exact E].
    + apply IH. intros row Hin. apply Hpre. now right.
Qed.

Lemma expand_alias_entry_none (v : str) (alias_map : AliasMap) :
  (forall row, In row alias_map -> ~ row_mentions v row) ->
  expand_alias_entry v alias_map = [].
Proof.
  induction alias_map as [|[k al] rest IH]; simpl; intros Hno; [reflexivity|].
  destruct (_ || _) eqn:E.
  - apply row_mentions_test in E. destruct (Hno (k, al)); [now left|exact E].
  - apply IH. intros row Hin. apply Hno. now right.
Qed.

(** X29.  The alias expansion of the older interface returns distinct,
    non-empty normal forms.  It starts with the normal form of the value
    when that is not empty.  When no row of the alias table mentions the
    value it holds nothing else; otherwise it holds exactly the
    non-empty normal forms of the key and the aliases of the first row
    that mentions the value. *)
Theorem X29_expand_alias_members (value : str) (alias_map : AliasMap) :
  let v := normalize value in
  let r := expand_alias value alias_map in
  NoDup r /\
  List.Forall (fun x => x <> []) r /\
  (value <> [] -> v <> [] -> exists rest, r = v :: rest) /\
  (value <> [] ->
   (forall row, In row alias_map -> ~ row_mentions v row) ->
   r = List.filter truthy [v]) /\
  (forall pre key aliases post,
      value <> [] ->
      alias_map = pre ++ (key, aliases) :: post ->
      (forall row, In row pre -> ~ row_mentions v row) ->
      row_mentions v (key, aliases) ->
      forall x, In x r <->
                x <> [] /\ (x = normalize key \/ exists a, In a aliases /\ x = normalize a)).
Proof.
  cbv zeta. unfold expand_alias.
  destruct (truthy value) eqn:Tv; cbn [negb].
  2:{ apply truthy_false in Tv. split; [apply NoDup_nil_2|]. split; [constructor|].
      split; [congruence|]. split; [congruence|]. intros. congruence. }
  split; [apply dict_fromkeys_NoDup|]. split; [|split; [|split]].
  - apply List.Forall_forall. intros x Hx.
    apply dict_fromkeys_In, List.filter_In in Hx as (_ & Hx).
    apply truthy_true, Hx.
  - intros _ Hv. apply truthy_true in Hv. cbn [List.filter]. rewrite Hv.
    cbn [dict_fromkeys]. eauto.
  - intros _ Hno. rewrite (expand_alias_entry_none _ _ Hno).
    cbn [List.filter]. destruct (truthy (normalize value)); reflexivity.
  - intros pre key aliases post _ -> Hpre Hrow x.
    rewrite (expand_alias_entry_first _ _ _ _ _ Hpre Hrow).
    rewrite dict_fromkeys_In, List.filter_In, truthy_true.
    cbn [In]. rewrite in_map_iff. split.
    + intros [[E|[E|(a & E & Ha)]] Hx]; (split; [exact Hx|]).
      * destruct Hrow as [Hk|(a & Ha & E')]; cbn [fst snd] in *.
        -- left. congruence.
        -- right. exists a. split; [exact Ha|]. congruence.
      * left. congruence.
      * right. eauto.
    + intros [Hx [E|(a & Ha & E)]]; (split; [|exact Hx]).
      * right. left. congruence.
      * right. right. eauto.
Qed.

(** ** The type score of an entity with a device type and an identifier *)

Lemma normalize_app (a b : str) : normalize (a ++ b) = normalize a ++ normalize b.
Proof.
  rewrite !normalize_filter. unfold lower. rewrite !keep_of_lower_from. apply flat_map_app.
Qed.

Lemma normalize_join2 (a b : str) : normalize (join_space [a; b]) = normalize a ++ normalize b.
Proof.
  cbn [join_space]. rewrite normalize_app, normalize_cons. reflexivity.
Qed.

Lemma expand_alias_fast_nil (indices : AliasIndices) (alias_type : string) :
  expand_alias_fast indices [] alias_type = [].
Proof. unfold expand_alias_fast. cbn [truthy]. destruct (indices !! alias_type); reflexivity. Qed.

Lemma type_score_unfold `{Vectorizer} (indices : AliasIndices) (dev e : Obj) (al : Aliases) :
  let s := field_scores indices dev e al in
  let type_cands :=
    if truthy (type_q s) then expand_alias_fast indices (type_q s) "device_types" else [] in
  let e_types_norm :=
    expand_alias_fast indices (lower (device_type e)) "device_types"
    ++ expand_alias_fast indices (domain_of e) "device_types" in
  type_score s
  = field_similarity
      (if is_nil type_cands then type_q s else join_space type_cands)
      (if is_nil e_types_norm then extract_field_candidates e Type_
       else [join_space e_types_norm]).
Proof.
  cbv zeta. unfold field_scores. cbn [type_score type_q extract_field_candidates flat_map].
  fold (domain_of e). rewrite app_nil_r. reflexivity.
Qed.

(** X30.  The scorer joins the type tokens of an entity into one string.
    For an entity that has both a device type and an identifier domain,
    each with a non-empty token, a request whose type token has the
    normal form of one of the two therefore scores 0.95 on the type, by
    containment, and not 1, whatever the vectorizer. *)
Theorem X30_joined_type_tokens `{Vectorizer} (indices : AliasIndices) (dev e : Obj)
    (al : Aliases) (tq t d : str) :
  let s := field_scores indices dev e al in
  expand_alias_fast indices (type_q s) "device_types" = [tq] ->
  expand_alias_fast indices (lower (device_type e)) "device_types" = [t] ->
  expand_alias_fast indices (domain_of e) "device_types" = [d] ->
  normalize t <> [] -> normalize d <> [] ->
  normalize tq = normalize t \/ normalize tq = normalize d ->
  type_score s = 0.95.
Proof.
  cbv zeta. intros Hq Ht Hd Nt Nd Heq.
  rewrite type_score_unfold. cbv zeta. rewrite Hq, Ht, Hd.
  destruct (truthy (type_q _)) eqn:Tq.
  2:{ apply truthy_false in Tq. rewrite Tq, expand_alias_fast_nil in Hq. discriminate. }
  cbn [is_nil app]. change (join_space [tq]) with tq.
  unfold field_similarity.
  assert (Tj : truthy (join_space [t; d]) = true).
  { apply truthy_true. cbn [join_space]. destruct t; discriminate. }
  cbn [List.filter List.map]. rewrite Tj. cbn [List.filter List.map].
  rewrite normalize_join2.
  assert (Tn : truthy (normalize t ++ normalize d) = true).
  { apply truthy_true. destruct (normalize t); [congruence|discriminate]. }
  rewrite Tn.
  assert (Tt : truthy (normalize tq) = true).
  { apply truthy_true. destruct Heq as [-> | ->]; assumption. }
  rewrite Tt. cbn [negb orb is_nil mem_str existsb].
  assert (Hne : str_eqb (normalize tq) (normalize t ++ normalize d) = false).
  { apply bool_decide_eq_false. intros E.
    apply (f_equal (@length N)) in E. rewrite length_app in E.
    assert (0 < length (normalize t))%nat
      by (destruct (normalize t); [congruence|simpl; lia]).
    assert (0 < length (normalize d))%nat
      by (destruct (normalize d); [congruence|simpl; lia]).
    destruct Heq as [E' | E']; rewrite E' in E; lia. }
  rewrite Hne. cbn [orb].
  assert (Hin : str_in (normalize tq) (normalize t ++ normalize d) = true).
  { apply str_in_spec. destruct Heq as [-> | ->].
    - exists [], (normalize d). reflexivity.
    - exists (normalize t), []. rewrite app_nil_r. reflexivity. }
  rewrite Hin. reflexivity.
Qed.

Lemma X30_joined_type_tokens_witness :
  type_score (@field_scores no_overlap (fresh_alias_indices no_aliases)
                scenario_request typed_lamp no_aliases) = 0.95.
Proof.
  apply (@X30_joined_type_tokens no_overlap (fresh_alias_indices no_aliases)
           scenario_request typed_lamp no_aliases (py "light") (py "light") (py "light")).
  - vm_compute. reflexivity.
  - vm_compute. reflexivity.
  - vm_compute. reflexivity.
  - vm_compute. discriminate.
  - vm_compute. discriminate.
  - left. reflexivity.
Defined.
